(** * CAST backend: the HTTP controllers of [backend/main/server/controllers.go]

    A shallow embedding of the request handlers, of the package-level error
    singletons they answer with, and of the pieces of Go's [net/http] and
    [strconv] they rely on.  Handlers are written in a small state monad with
    early return; code of the [helpers] and [models] packages is an interface
    the handlers are parameterised by. *)

From Stdlib Require Import ZArith QArith String Ascii DecimalString DecimalPos
  Permutation.
From stdpp Require Import base option gmap strings list fin_maps.

Local Open Scope string_scope.
Local Open Scope Z_scope.
Local Open Scope list_scope.

(** ** Go values *)

(** A Go [error]: [None] is [nil], [Some msg] an error carrying [msg]. *)
Definition error := option string.
Definition errors_New (msg : string) : error := Some msg.

(** Go's [int] on the 64-bit targets the server is built for. *)
Definition MinInt64 : Z := - 2 ^ 63.
Definition MaxInt64 : Z := 2 ^ 63 - 1.
Definition MaxUint64 : Z := 2 ^ 64 - 1.

(** [net/http] status codes used by the controllers. *)
Module http.
Definition StatusOK : Z := 200.
Definition StatusCreated : Z := 201.
Definition StatusBadRequest : Z := 400.
Definition StatusUnauthorized : Z := 401.
Definition StatusForbidden : Z := 403.
Definition StatusNotFound : Z := 404.
Definition StatusInternalServerError : Z := 500.
End http.

(** ** [strconv] *)

Module strconv.

Definition digit_of (c : ascii) : option Z :=
  let n := Z.of_N (N_of_ascii c) in
  if (48 <=? n) && (n <=? 57) then Some (n - 48) else None.

Inductive scan := ScanOk (n : Z) | ScanSyntax | ScanRange.

(** The digit loop of [ParseUint] in base 10 with 64 bits: a character that
    is not a digit is a syntax error, an accumulator that leaves the
    unsigned range stops the scan with a range error. *)
Fixpoint scan_digits (s : string) (n : Z) : scan :=
  match s with
  | EmptyString => ScanOk n
  | String c rest =>
      match digit_of c with
      | None => ScanSyntax
      | Some d =>
          if MaxUint64 <? n * 10 + d then ScanRange
          else scan_digits rest (n * 10 + d)
      end
  end.

Definition ErrSyntax : string := "invalid syntax".
Definition ErrRange : string := "value out of range".

(** [ParseInt(s, 10, 64)]: on a range error the nearest bound is returned
    together with the error. *)
Definition ParseInt (s : string) : Z * error :=
  match s with
  | EmptyString => (0, Some ErrSyntax)
  | String c rest =>
      let neg := bool_decide (c = "-"%char) in
      let signed := neg || bool_decide (c = "+"%char) in
      let digits := if signed then rest else s in
      match digits with
      | EmptyString => (0, Some ErrSyntax)
      | _ =>
          match scan_digits digits 0 with
          | ScanSyntax => (0, Some ErrSyntax)
          | ScanRange =>
              if neg then (MinInt64, Some ErrRange) else (MaxInt64, Some ErrRange)
          | ScanOk un =>
              if neg then
                if 2 ^ 63 <? un then (MinInt64, Some ErrRange) else (- un, None)
              else
                if 2 ^ 63 <=? un then (MaxInt64, Some ErrRange) else (un, None)
          end
      end
  end.

(** [Atoi] is [ParseInt(s, 10, 0)] converted to [int]; its fast path for
    short inputs computes the same value. *)
Definition Atoi (s : string) : Z * error := ParseInt s.

(** [Itoa]: the decimal rendering of an [int]. *)
Definition Itoa (n : Z) : string := NilZero.string_of_int (Z.to_int n).

End strconv.

(** ** Requests *)

(** What a handler reads of an [http.Request]: the route variables
    ([mux.Vars]), the parsed form and the body. *)
Record Request := {
  Vars : gmap string string;
  Form : gmap string (list string);
  Body : string;
}.

(** [r.FormValue(key)]: the first value of [key], the empty string when the
    key is absent. *)
Definition FormValue (r : Request) (key : string) : string :=
  match Form r !! key with
  | Some (v :: _) => v
  | _ => ""
  end.

(** [vars[key]] on a Go map: the zero value when the key is absent. *)
Definition var_of (vars : gmap string string) (key : string) : string :=
  default "" (vars !! key).

(** ** Pagination *)

Module shared.
Record PageParams := {
  Start : Z;
  Count : Z;
  Order : string;
  TotalRecords : Z;
}.
End shared.

Definition getPageParams (r : Request) (defaultCount : Z) : shared.PageParams :=
  let s := fst (strconv.Atoi (FormValue r "start")) in
  let c := fst (strconv.Atoi (FormValue r "count")) in
  let o := FormValue r "order" in
  let o := if bool_decide (o = "") then "desc" else o in
  let c := if (c >? defaultCount) || (c <? 1) then defaultCount else c in
  let s := if s <? 0 then 0 else s in
  {| shared.Start := s; shared.Count := c; shared.Order := o;
     shared.TotalRecords := 0 |}.

Definition form_of (kvs : list (string * string)) : gmap string (list string) :=
  list_to_map ((λ kv, (fst kv, [snd kv])) <$> kvs).

Definition request_of (vars form : list (string * string)) (body : string) : Request :=
  {| Vars := list_to_map vars; Form := form_of form; Body := body |}.

(** ** Error responses *)

Record errorResponse := {
  StatusCode : Z;
  ErrorCode : string;
  Message : string;
  Details : string;
}.

#[global] Instance errorResponse_eq_dec : EqDecision errorResponse.
Proof. solve_decision. Defined.

Definition with_StatusCode (e : errorResponse) (code : Z) : errorResponse :=
  {| StatusCode := code; ErrorCode := ErrorCode e;
     Message := Message e; Details := Details e |}.

(** The package-level [var] block.  [errIncompleteRequest] and
    [errCreateCommunity] are assigned to by handlers, so their current value
    lives in the server state ([Globals] below) and these two definitions
    are the values the variables are initialised with; no handler assigns to
    the other singletons. *)
Definition errIncompleteRequest_init : errorResponse :=
  {| StatusCode := http.StatusBadRequest; ErrorCode := "ERR_1001";
     Message := "Error";
     Details := "There was an error trying to complete your request" |}.

Definition errCreateCommunity_init : errorResponse :=
  {| StatusCode := http.StatusBadRequest; ErrorCode := "ERR_1002";
     Message := "Error";
     Details := "There was an error trying to create your community" |}.

(** The line break inside the two raw string literals of the block: a
    newline and the seven tabs the next line is indented with. *)
Definition raw_break : string :=
  String "010"%char
    (String "009"%char (String "009"%char (String "009"%char (String "009"%char
    (String "009"%char (String "009"%char (String "009"%char EmptyString))))))).

Definition errFetchingBalance : errorResponse :=
  {| StatusCode := http.StatusBadRequest; ErrorCode := "ERR_1003";
     Message := "Error Fetching Balance";
     Details := "While confirming your balance, we've encountered an error"
                +:+ raw_break +:+ "connecting to the Flow Blockchain." |}.

Definition errInsufficientBalance : errorResponse :=
  {| StatusCode := http.StatusUnauthorized; ErrorCode := "ERR_1004";
     Message := "Insufficient Balance";
     Details := "In order to vote on this proposal you must have a minimum "
                +:+ raw_break +:+ "balance of %f %s tokens in your wallet." |}.

Definition errForbidden : errorResponse :=
  {| StatusCode := http.StatusForbidden; ErrorCode := "ERR_1005";
     Message := "Forbidden";
     Details := "You are not authorized to perform this action." |}.

Definition errStrategyNotFound : errorResponse :=
  {| StatusCode := http.StatusNotFound; ErrorCode := "ERR_1008";
     Message := "Strategy Not Found";
     Details := "The strategy name you are trying to use no longer exists." |}.

Definition errAlreadyVoted : errorResponse :=
  {| StatusCode := http.StatusBadRequest; ErrorCode := "ERR_1009";
     Message := "Error";
     Details := "Address %s has already voted for proposal %d." |}.

Definition errInactiveProposal : errorResponse :=
  {| StatusCode := http.StatusBadRequest; ErrorCode := "ERR_1010";
     Message := "Error";
     Details := "Cannot vote on an inactive proposal." |}.

Definition errCreateVote : errorResponse :=
  {| StatusCode := http.StatusInternalServerError; ErrorCode := "ERR_1012";
     Message := "Error";
     Details := "There was an error creating the vote." |}.

Definition nilErr : errorResponse :=
  {| StatusCode := 0; ErrorCode := ""; Message := ""; Details := "" |}.

Record Globals := {
  errIncompleteRequest : errorResponse;
  errCreateCommunity : errorResponse;
}.

Definition globals_init : Globals :=
  {| errIncompleteRequest := errIncompleteRequest_init;
     errCreateCommunity := errCreateCommunity_init |}.

(** ** The [models] package, as far as the controllers use it

    The type declarations live in package [models]; the records carry the
    fields the handlers touch, pointer fields as [option]. *)

Module models.

Record Proposal := {
  ID : Z;
  Community_id : Z;
  Strategy : option string;
  Status : option string;
  Computed_status : option string;
  Achievements_done : bool;
  Cid : option string;
}.

(** Go's zero value [models.Proposal{}]. *)
Definition Proposal_zero : Proposal :=
  {| ID := 0; Community_id := 0; Strategy := None; Status := None;
     Computed_status := None; Achievements_done := false; Cid := None |}.

(** A recorded vote (spec, data model): proposal reference, voter address,
    selected choice and the weight captured at cast time. *)
Record Vote := {
  Proposal_id : Z;
  Addr : string;
  Choice : string;
  Weight : Z;
}.

(** Tally results: the proposal and, per choice, the aggregate weight. *)
Record ProposalResults := {
  RProposal_id : Z;
  Results : gmap string Z;
}.

(** The struct [models.Strategy] (the name [Strategy] is taken by the
    field of [Proposal]).  [Threshold] is an optional JSON number; a
    rational stands for any value an integer or floating-point field can
    be decoded to. *)
Record Strategy_t := {
  Name : option string;
  Threshold : option Q;
}.

Record Community := {
  Community_ID : Z;
  Strategies : option (list Strategy_t);
}.

Record UpdateProposalRequestPayload (Voucher Sigs : Type) := {
  UStatus : string;
  Signing_addr : string;
  Timestamp : string;
  Composite_signatures : option Sigs;
  UVoucher : option Voucher;
}.

Record CommunityRequestPayload := {
  PStrategies : option (list Strategy_t);
  Proposal_threshold : option string;
  Only_authors_to_submit : option bool;
}.

End models.

Arguments models.UStatus {_ _} _.
Arguments models.Signing_addr {_ _} _.
Arguments models.Timestamp {_ _} _.
Arguments models.Composite_signatures {_ _} _.
Arguments models.UVoucher {_ _} _.

#[global] Instance Proposal_eq_dec : EqDecision models.Proposal.
Proof. solve_decision. Defined.
#[global] Instance Vote_eq_dec : EqDecision models.Vote.
Proof. solve_decision. Defined.

Definition with_Status (p : models.Proposal) (s : option string) : models.Proposal :=
  {| models.ID := models.ID p; models.Community_id := models.Community_id p;
     models.Strategy := models.Strategy p; models.Status := s;
     models.Computed_status := models.Computed_status p;
     models.Achievements_done := models.Achievements_done p;
     models.Cid := models.Cid p |}.

Definition with_Cid (p : models.Proposal) (c : option string) : models.Proposal :=
  {| models.ID := models.ID p; models.Community_id := models.Community_id p;
     models.Strategy := models.Strategy p; models.Status := models.Status p;
     models.Computed_status := models.Computed_status p;
     models.Achievements_done := models.Achievements_done p;
     models.Cid := c |}.

(** ** The response writer *)

(** A value handed to [json.Marshal]. *)
Inductive payload :=
| JString (s : string)
| JObject (fields : gmap string string)
| JProposal (p : models.Proposal)
| JResults (r : models.ProposalResults)
| JVote (v : models.Vote)
| JCommunity (c : models.Community).

(** [http.ResponseWriter].  [status] is the status line once it has been
    sent, [sent_header] the header map as it was sent with it, [body] the
    values written, oldest first. *)
Record ResponseWriter := {
  header : gmap string string;
  status : option Z;
  sent_header : gmap string string;
  body : list payload;
}.

Definition ResponseWriter_new : ResponseWriter :=
  {| header := ∅; status := None; sent_header := ∅; body := [] |}.

Definition Header_Set (k v : string) (w : ResponseWriter) : ResponseWriter :=
  {| header := <[k := v]> (header w); status := status w;
     sent_header := sent_header w; body := body w |}.

(** Only the first [WriteHeader] sends a status line; a later call is
    ignored by [net/http].  This is [net/http] for a status that is sent as
    the final status line and admits a body ([sendable] below); what
    [net/http] does with the other codes is in [net_http] below. *)
Definition WriteHeader (code : Z) (w : ResponseWriter) : ResponseWriter :=
  match status w with
  | Some _ => w
  | None =>
      {| header := header w; status := Some code;
         sent_header := header w; body := body w |}
  end.

(** [Write] sends the status line with [StatusOK] if none was sent yet and
    appends to the body; as [net/http] does under a status that admits a
    body. *)
Definition Write (p : payload) (w : ResponseWriter) : ResponseWriter :=
  let w := WriteHeader http.StatusOK w in
  {| header := header w; status := status w;
     sent_header := sent_header w; body := body w ++ [p] |}.

(** ** The handler monad *)

Section Handler.
Context {DB : Type}.

(** What a handler can touch: the package-level variables, the state behind
    [a.DB] and the other collaborators, the response writer of the request
    and the log. *)
Record St := {
  globals : Globals;
  db : DB;
  rw : ResponseWriter;
  logs : list string;
}.

(** A statement falls through with a value, returns from the handler, or
    panics. *)
Inductive res (A : Type) :=
| Next (a : A) (s : St)
| Return (s : St)
| Panic (s : St).
#[global] Arguments Next {A} a s.
#[global] Arguments Return {A} s.
#[global] Arguments Panic {A} s.

Definition H (A : Type) : Type := St → res A.

Definition ret {A} (a : A) : H A := λ s, Next a s.
Definition bind {A B} (m : H A) (k : A → H B) : H B :=
  λ s, match m s with
       | Next a s' => k a s'
       | Return s' => Return s'
       | Panic s' => Panic s'
       end.

Definition return_ {A} : H A := λ s, Return s.
Definition panic {A} : H A := λ s, Panic s.

(** [*p]: dereferencing [nil] panics. *)
Definition deref {A} (p : option A) : H A :=
  match p with Some a => ret a | None => panic end.

Definition when (b : bool) (m : H unit) : H unit :=
  if b then m else ret tt.

Definition modify_rw (f : ResponseWriter → ResponseWriter) : H unit :=
  λ s, Next tt {| globals := globals s; db := db s; rw := f (rw s); logs := logs s |}.

Definition modify_globals (f : Globals → Globals) : H unit :=
  λ s, Next tt {| globals := f (globals s); db := db s; rw := rw s; logs := logs s |}.

Definition read_global {A} (f : Globals → A) : H A :=
  λ s, Next (f (globals s)) s.

(** [log.Error().Err(err).Msg(msg)] *)
Definition log_Error (msg : string) : H unit :=
  λ s, Next tt {| globals := globals s; db := db s; rw := rw s; logs := logs s ++ [msg] |}.

(** A collaborator that only reads. *)
Definition query {A} (f : DB → A) : H A := λ s, Next (f (db s)) s.

(** A collaborator that may write. *)
Definition exec {A} (f : DB → A * DB) : H A :=
  λ s, let '(a, d) := f (db s) in
       Next a {| globals := globals s; db := d; rw := rw s; logs := logs s |}.

Definition respondWithJSON (code : Z) (p : payload) : H unit :=
  modify_rw (λ w, Write p (WriteHeader code (Header_Set "Content-Type" "application/json" w))).

Definition error_fields (err : errorResponse) : gmap string string :=
  {[ "statusCode" := strconv.Itoa (StatusCode err);
     "errorCode" := ErrorCode err;
     "message" := Message err;
     "details" := Details err ]}.

Definition respondWithError (err : errorResponse) : H unit :=
  respondWithJSON (StatusCode err) (JObject (error_fields err)).

(** [json.NewDecoder(body).Decode(&data)]: decoding the body into [data];
    [None] when the decoder reports an error. *)
Definition Decoder (T : Type) : Type := string → T → option T.

Definition validatePayload {T} (decode : Decoder T) (body : string) (data : T)
  : H (T * error) :=
  match decode body data with
  | None =>
      let errMsg := "Invalid request payload." in
      bind (log_Error errMsg) (λ _, ret (data, errors_New errMsg))
  | Some data' => ret (data', None)
  end.

End Handler.

Arguments St : clear implicits.
Arguments res : clear implicits.
Arguments H : clear implicits.

#[global] Instance H_ret {DB} : MRet (H DB) := λ A, ret.
#[global] Instance H_bind {DB} : MBind (H DB) := λ A B k m, bind m k.

Definition is_err (e : error) : bool := bool_decide (e ≠ None).

(** ** Collaborators

    The [helpers] value and the functions of package [models] the handlers
    call are defined outside [controllers.go].  Handlers take them as an interface:
    a function that reads takes the state behind [a.DB], one that may write
    also returns the new state. *)

Module models_ext.
(** Payloads declared in package [models]: the field the
    handlers set and the remaining decoded fields. *)
Record ListPayload := {
  LCommunity_id : Z;
  LFields : gmap string string;
}.
Record ListUpdatePayload := {
  AFields : gmap string string;
}.
Record CommunityUserPayload := {
  UCommunity_id : Z;
  UAddr : string;
  User_type : string;
  UFields : gmap string string;
}.
End models_ext.

Module helpers.
Record t {DB Voucher Sigs : Type} := {
  fetchProposal : DB → gmap string string → string → models.Proposal * error;
  useStrategyTally :
    DB → models.Proposal → list models.Vote → models.ProposalResults * error;
  processVote : DB → string → models.Proposal → models.Vote * error;
  createVote : DB → string → models.Proposal → (models.Vote * errorResponse) * DB;
  validateUserWithRoleViaVoucher : DB → string → Voucher → Z → string → error;
  validateUserWithRole :
    DB → string → string → option Sigs → Z → string → error;
  pinJSONToIpfs : DB → models.Proposal → (option string * error) * DB;
  fetchCommunity : DB → Z → models.Community * error;
  createCommunity :
    DB → models.CommunityRequestPayload → (models.Community * error) * DB;
  updateCommunity :
    DB → Z → models.CommunityRequestPayload → (models.Community * error) * DB;
  (** functions of package [server] defined outside [controllers.go] *)
  validateContractThreshold : list models.Strategy_t → error;
  validateProposalThreshold : string → bool → error;
  (** [helpers], continued *)
  createListForCommunity :
    DB → models_ext.ListPayload → (payload * Z * error) * DB;
  updateAddressesInList :
    DB → Z → models_ext.ListUpdatePayload → string → (Z * error) * DB;
  createCommunityUser :
    DB → models_ext.CommunityUserPayload → (Z * error) * DB;
  (** package [models] *)
  GetAllVotesForProposal : DB → Z → string → list models.Vote * error;
  AddWinningVoteAchievement :
    DB → list models.Vote → models.ProposalResults → error * DB;
  UpdateProposal : DB → models.Proposal → (models.Proposal * error) * DB;
  (** [encoding/json] at the payload types *)
  decode_UpdateProposal :
    Decoder (models.UpdateProposalRequestPayload Voucher Sigs);
  decode_Community : Decoder models.CommunityRequestPayload;
  decode_List : Decoder models_ext.ListPayload;
  decode_ListUpdate : Decoder models_ext.ListUpdatePayload;
  decode_CommunityUser : Decoder models_ext.CommunityUserPayload;
}.
Arguments t : clear implicits.
End helpers.

(** ** The handlers *)

Section Controllers.
Context {DB Voucher Sigs : Type} (h : helpers.t DB Voucher Sigs).

Local Abbreviation H := (H DB).

(** [respondWithError(w, errIncompleteRequest)]: the variable is read when
    the call is made. *)
Definition respondIncomplete : H unit :=
  e ← read_global errIncompleteRequest; respondWithError e.

(** [if err != nil { log...; respondWithError(w, errIncompleteRequest); return }] *)
Definition failIncomplete (err : error) (msg : string) : H unit :=
  when (is_err err) (log_Error msg;; respondIncomplete;; return_).

(** [getResultsForProposal] from the statement after the fetch on. *)
Definition getResultsForProposal_fetched (proposal : models.Proposal) : H unit :=
  strategy ← deref (models.Strategy proposal);
  '(votes, err) ←
    query (λ d, helpers.GetAllVotesForProposal h d (models.ID proposal) strategy);
  failIncomplete err "Error getting votes for proposal.";;
  '(results, err) ← query (λ d, helpers.useStrategyTally h d proposal votes);
  failIncomplete err "Error tallying votes.";;
  computed_status ← deref (models.Computed_status proposal);
  when (bool_decide (computed_status = "closed")
        && negb (models.Achievements_done proposal))
    (err ← exec (λ d, helpers.AddWinningVoteAchievement h d votes results);
     when (is_err err)
       (log_Error "Error calculating winning votes";;
        respondIncomplete));;
  respondWithJSON http.StatusOK (JResults results).

(** The error of the fetch is assigned and never read. *)
Definition getResultsForProposal (r : Request) : H unit :=
  let vars := Vars r in
  '(proposal, err) ← query (λ d, helpers.fetchProposal h d vars "proposalId");
  getResultsForProposal_fetched proposal.

Definition getVoteForAddress (r : Request) : H unit :=
  let vars := Vars r in
  let addr := var_of vars "addr" in
  '(proposal, err) ← query (λ d, helpers.fetchProposal h d vars "proposalId");
  failIncomplete err "Invalid Proposal ID.";;
  '(vote, err) ← query (λ d, helpers.processVote h d addr proposal);
  failIncomplete err "Error processing vote.";;
  respondWithJSON http.StatusOK (JVote vote).

Definition createVoteForProposal (r : Request) : H unit :=
  let vars := Vars r in
  '(proposal, err) ← query (λ d, helpers.fetchProposal h d vars "proposalId");
  failIncomplete err "Invalid Proposal ID.";;
  '(vote, errResponse) ← exec (λ d, helpers.createVote h d (Body r) proposal);
  when (bool_decide (errResponse ≠ nilErr))
    (log_Error "Error creating vote.";;
     respondWithError errResponse;;
     return_);;
  respondWithJSON http.StatusCreated (JVote vote).

Definition UpdateProposalRequestPayload_zero
  : models.UpdateProposalRequestPayload Voucher Sigs :=
  {| models.UStatus := ""; models.Signing_addr := ""; models.Timestamp := "";
     models.Composite_signatures := None; models.UVoucher := None |}.

Definition updateProposal (r : Request) : H unit :=
  let vars := Vars r in
  '(p, err) ← query (λ d, helpers.fetchProposal h d vars "id");
  failIncomplete err "Invalid Proposal ID.";;
  '(payload, err) ←
    validatePayload (helpers.decode_UpdateProposal h) (Body r)
      UpdateProposalRequestPayload_zero;
  failIncomplete err "Error validating payload";;
  when (bool_decide (models.UStatus payload ≠ "cancelled"))
    (log_Error "Invalid status update";;
     respondIncomplete;;
     return_);;
  match models.UVoucher payload with
  | Some voucher =>
      err ← query (λ d, helpers.validateUserWithRoleViaVoucher h d
                          (models.Signing_addr payload) voucher
                          (models.Community_id p) "author");
      when (is_err err)
        (log_Error "Error validating user with role via voucher";;
         respondWithError errForbidden;;
         return_)
  | None =>
      err ← query (λ d, helpers.validateUserWithRole h d
                          (models.Signing_addr payload)
                          (models.Timestamp payload)
                          (models.Composite_signatures payload)
                          (models.Community_id p) "author");
      when (is_err err)
        (log_Error "Error validating user with role";;
         respondWithError errForbidden;;
         return_)
  end;;
  let p := with_Status p (Some (models.UStatus payload)) in
  '(cid, err) ← exec (λ d, helpers.pinJSONToIpfs h d p);
  let p := with_Cid p cid in
  failIncomplete err "Error pinning proposal to IPFS";;
  '(p, err) ← exec (λ d, helpers.UpdateProposal h d p);
  failIncomplete err "Error updating proposal";;
  respondWithJSON http.StatusOK (JProposal p).

Definition getCommunity (r : Request) : H unit :=
  let vars := Vars r in
  let '(id, err) := strconv.Atoi (var_of vars "id") in
  failIncomplete err "Invalid Community ID";;
  '(c, err) ← query (λ d, helpers.fetchCommunity h d id);
  failIncomplete err "Error fetching community";;
  respondWithJSON http.StatusOK (JCommunity c).

Definition CommunityRequestPayload_zero : models.CommunityRequestPayload :=
  {| models.PStrategies := None; models.Proposal_threshold := None;
     models.Only_authors_to_submit := None |}.

(** The threshold checks shared by [createCommunity] and
    [updateCommunity].  A failed contract-threshold check returns from the
    handler; a failed proposal-threshold check answers and falls through. *)
Definition validateThresholds (payload : models.CommunityRequestPayload) : H unit :=
  match models.PStrategies payload with
  | Some strategies =>
      let err := helpers.validateContractThreshold h strategies in
      failIncomplete err "Error validating contract threshold"
  | None => mret tt
  end;;
  match models.Proposal_threshold payload, models.Only_authors_to_submit payload with
  | Some threshold, Some only_authors =>
      let err := helpers.validateProposalThreshold h threshold only_authors in
      when (is_err err)
        (log_Error "Error validating proposal threshold";;
         respondIncomplete)
  | _, _ => mret tt
  end.

Definition createCommunity (r : Request) : H unit :=
  '(payload, err) ←
    validatePayload (helpers.decode_Community h) (Body r)
      CommunityRequestPayload_zero;
  failIncomplete err "Error validating payload";;
  validateThresholds payload;;
  '(c, err) ← exec (λ d, helpers.createCommunity h d payload);
  failIncomplete err "Error creating community";;
  respondWithJSON http.StatusCreated (JCommunity c).

Definition updateCommunity (r : Request) : H unit :=
  let vars := Vars r in
  let '(id, err) := strconv.Atoi (var_of vars "id") in
  failIncomplete err "Invalid Community ID";;
  '(payload, err) ←
    validatePayload (helpers.decode_Community h) (Body r)
      CommunityRequestPayload_zero;
  failIncomplete err "Error validating payload";;
  validateThresholds payload;;
  '(c, err) ← exec (λ d, helpers.updateCommunity h d id payload);
  failIncomplete err "Error updating community";;
  respondWithJSON http.StatusOK (JCommunity c).

Definition assign_errIncompleteRequest_StatusCode (code : Z) : H unit :=
  modify_globals (λ g,
    {| errIncompleteRequest := with_StatusCode (errIncompleteRequest g) code;
       errCreateCommunity := errCreateCommunity g |}).

Definition assign_errCreateCommunity_StatusCode (code : Z) : H unit :=
  modify_globals (λ g,
    {| errIncompleteRequest := errIncompleteRequest g;
       errCreateCommunity := with_StatusCode (errCreateCommunity g) code |}).

Definition createListForCommunity (r : Request) : H unit :=
  let vars := Vars r in
  let '(communityId, err) := strconv.Atoi (var_of vars "communityId") in
  failIncomplete err "Invalid Community ID";;
  let payload :=
    {| models_ext.LCommunity_id := communityId; models_ext.LFields := ∅ |} in
  '(payload, err) ← validatePayload (helpers.decode_List h) (Body r) payload;
  failIncomplete err "Error validating payload";;
  '(l, httpStatus, err) ← exec (λ d, helpers.createListForCommunity h d payload);
  when (is_err err)
    (log_Error "Error creating list for community";;
     assign_errIncompleteRequest_StatusCode httpStatus;;
     respondIncomplete;;
     return_);;
  respondWithJSON http.StatusCreated l.

Definition addAddressesToList (r : Request) : H unit :=
  let vars := Vars r in
  let '(id, err) := strconv.Atoi (var_of vars "id") in
  failIncomplete err "Invalid List ID";;
  let payload := {| models_ext.AFields := ∅ |} in
  '(payload, err) ← validatePayload (helpers.decode_ListUpdate h) (Body r) payload;
  failIncomplete err "Error validating payload";;
  '(httpStatus, err) ← exec (λ d, helpers.updateAddressesInList h d id payload "add");
  when (is_err err)
    (log_Error "Error adding addresses to list";;
     assign_errIncompleteRequest_StatusCode httpStatus;;
     e ← read_global errCreateCommunity;
     respondWithError e;;
     return_);;
  respondWithJSON http.StatusCreated (JString "OK").

Definition removeAddressesFromList (r : Request) : H unit :=
  let vars := Vars r in
  let '(id, err) := strconv.Atoi (var_of vars "id") in
  failIncomplete err "Invalid List ID";;
  let payload := {| models_ext.AFields := ∅ |} in
  '(payload, err) ← validatePayload (helpers.decode_ListUpdate h) (Body r) payload;
  failIncomplete err "Error validating payload";;
  '(httpStatus, err) ← exec (λ d, helpers.updateAddressesInList h d id payload "remove");
  when (is_err err)
    (log_Error "Error removing addresses from list";;
     assign_errIncompleteRequest_StatusCode httpStatus;;
     respondIncomplete;;
     return_);;
  respondWithJSON http.StatusOK (JString "OK").

Definition createCommunityUser (r : Request) : H unit :=
  let vars := Vars r in
  let '(communityId, err) := strconv.Atoi (var_of vars "communityId") in
  failIncomplete err "Invalid Community ID";;
  let payload :=
    {| models_ext.UCommunity_id := communityId; models_ext.UAddr := "";
       models_ext.User_type := ""; models_ext.UFields := ∅ |} in
  '(payload, err) ← validatePayload (helpers.decode_CommunityUser h) (Body r) payload;
  failIncomplete err "Error validating payload";;
  '(httpStatus, err) ← exec (λ d, helpers.createCommunityUser h d payload);
  when (is_err err)
    (log_Error "Error creating community user";;
     assign_errCreateCommunity_StatusCode httpStatus;;
     e ← read_global errCreateCommunity;
     respondWithError e;;
     return_);;
  respondWithJSON http.StatusCreated (JString "OK").

(** *** Serving a request

    The server hands every request a fresh response writer; the
    package-level variables and the state behind [a.DB] outlive it. *)
Record App := {
  app_globals : Globals;
  app_db : DB;
}.

Record Served := {
  response : ResponseWriter;
  panicked : bool;
  logged : list string;
  app_after : App;
}.

Definition serve (handler : H unit) (a : App) : Served :=
  let s0 := {| globals := app_globals a; db := app_db a;
               rw := ResponseWriter_new; logs := [] |} in
  let finish (crashed : bool) (s : St DB) :=
    {| response := rw s; panicked := crashed; logged := logs s;
       app_after := {| app_globals := globals s; app_db := db s |} |} in
  match handler s0 with
  | Next _ s => finish false s
  | Return s => finish false s
  | Panic s => finish true s
  end.

End Controllers.

Arguments App : clear implicits.
Arguments Served : clear implicits.

(** ** Contract thresholds *)

Definition Qltb (x y : Q) : bool := (Qnum x * QDen y <? Qnum y * QDen x)%Z.

(** The function of this name in [controllers.go].  The handlers call
    [validateContractThreshold], which is defined outside that file. *)
Fixpoint validateConractThreshold (s : list models.Strategy_t) : error :=
  match s with
  | [] => None
  | s0 :: rest =>
      match models.Threshold s0 with
      | Some threshold =>
          if Qltb threshold 1 then errors_New "Contract Threshold Cannot Be < 1."
          else validateConractThreshold rest
      | None => validateConractThreshold rest
      end
  end.

(** ** The vote ledger, the tally and the achievement trigger

    [helpers.createVote], [helpers.useStrategyTally] and
    [models.AddWinningVoteAchievement] are defined outside [controllers.go]; this part
    follows the specification of the components they implement. *)

(** Modelled from the spec: the error kinds of the error handling design;
    the core's own declarations are missing. *)
Inductive fail :=
| InvalidSignature
| ExpiredTimestamp
| InsufficientKeyWeight
| Forbidden
| InactiveProposal
| AlreadyVoted
| InsufficientBalance
| StrategyNotFound
| BalanceFetchError
| AchievementComputeError.

#[global] Instance fail_eq_dec : EqDecision fail.
Proof. solve_decision. Defined.

Inductive result (A : Type) :=
| Ok (a : A)
| Fail (e : fail).
Arguments Ok {A} a.
Arguments Fail {A} e.

#[global] Instance result_eq_dec {A} `{EqDecision A} : EqDecision (result A).
Proof. solve_decision. Defined.

Definition strategy_name (p : models.Proposal) : string :=
  default "" (models.Strategy p).

Section Core.
Context {AuthProof : Type}.

(** The Strategy Engine's [computeWeight(strategyName, address,
    snapshotParams)]; the proposal fixes the snapshot. *)
Variable computeWeight : string → string → models.Proposal → result Z.
(** Whether the computed status is the active voting state. *)
Variable active : models.Proposal → bool.
(** Identity Verifier and Role Authorizer on the proof of a request. *)
Variable verify : string → AuthProof → option fail.

(** *** Tally *)

Definition add_weight (choice : string) (w : Z) (m : gmap string Z) : gmap string Z :=
  <[choice := default 0 (m !! choice) + w]> m.

(** Modelled from the spec: [tally] of the Vote Ledger, which re-derives
    the weight of every vote from the Strategy Engine and sums the weights
    per choice; the source of [helpers.useStrategyTally] is missing. *)
Fixpoint tally_votes (p : models.Proposal) (votes : list models.Vote)
    (acc : gmap string Z) : result (gmap string Z) :=
  match votes with
  | [] => Ok acc
  | v :: rest =>
      match computeWeight (strategy_name p) (models.Addr v) p with
      | Ok w => tally_votes p rest (add_weight (models.Choice v) w acc)
      | Fail e => Fail e
      end
  end.

Definition tally (p : models.Proposal) (votes : list models.Vote)
  : result (gmap string Z) :=
  tally_votes p votes ∅.

(** The sum of [computeWeight] over a list of voters. *)
Fixpoint sum_weights (p : models.Proposal) (voters : list string) : result Z :=
match voters with
| [] => Ok 0
| a :: rest =>
    match computeWeight (strategy_name p) a p with
    | Fail e => Fail e
    | Ok w =>
        match sum_weights p rest with
        | Ok total => Ok (w + total)
        | Fail e => Fail e
        end
    end
end.

(** The distinct voters of a list of votes. *)
Definition voters (votes : list models.Vote) : gset string :=
list_to_set (models.Addr <$> votes).

Definition total_weight (m : gmap string Z) : Z :=
  map_fold (λ _ w acc, w + acc) 0 m.

(** *** Casting a vote *)

Record CastRequest := {
  cast_addr : string;
  cast_choice : string;
  cast_proof : AuthProof;
}.

Definition votes_of (ledger : list models.Vote) (pid : Z) (addr : string)
  : list models.Vote :=
  filter (λ v, models.Proposal_id v = pid ∧ models.Addr v = addr) ledger.

Definition has_voted (ledger : list models.Vote) (pid : Z) (addr : string) : bool :=
  bool_decide (votes_of ledger pid addr ≠ []).

(** Modelled from the spec: steps 1 to 3 of [castVote], which do not touch
    the ledger: the proposal must be in the active voting state, the
    identity is verified, the weight is computed at the snapshot. *)
Definition precheck (p : models.Proposal) (req : CastRequest) : result Z :=
  if negb (active p) then Fail InactiveProposal
  else match verify (cast_addr req) (cast_proof req) with
       | Some e => Fail e
       | None => computeWeight (strategy_name p) (cast_addr req) p
       end.

Definition vote_of (p : models.Proposal) (req : CastRequest) (w : Z) : models.Vote :=
  {| models.Proposal_id := models.ID p; models.Addr := cast_addr req;
     models.Choice := cast_choice req; models.Weight := w |}.

(** Modelled from the spec: step 4 of [castVote], the atomic insert under
    the uniqueness constraint on (proposal, address) of the persistence
    layer: a duplicate fails with [AlreadyVoted] and stores nothing. *)
Definition insert_vote (ledger : list models.Vote) (v : models.Vote)
  : result models.Vote * list models.Vote :=
  if has_voted ledger (models.Proposal_id v) (models.Addr v)
  then (Fail AlreadyVoted, ledger)
  else (Ok v, (ledger ++ [v])%list).

(** Modelled from the spec: [castVote] of the Vote Ledger;
    the source of [helpers.createVote] is missing. *)
Definition castVote (ledger : list models.Vote) (p : models.Proposal)
    (req : CastRequest) : result models.Vote * list models.Vote :=
  match precheck p req with
  | Fail e => (Fail e, ledger)
  | Ok w => insert_vote ledger (vote_of p req w)
  end.

(** *** Concurrent cast attempts

    Every attempt is handled by a worker of its own; workers share the
    ledger only.  A worker first runs the checks, then the atomic insert;
    a schedule names the worker that takes the next step. *)
Inductive caster :=
| Pending
| Checked (w : Z)
| Finished (r : result models.Vote).

Record Pool := {
  pool_ledger : list models.Vote;
  casters : list caster;
}.

Definition cast_step (p : models.Proposal) (req : CastRequest) (st : Pool) (i : nat)
  : Pool :=
  match casters st !! i with
  | Some Pending =>
      let c := match precheck p req with
               | Ok w => Checked w
               | Fail e => Finished (Fail e)
               end in
      {| pool_ledger := pool_ledger st; casters := <[i := c]> (casters st) |}
  | Some (Checked w) =>
      let '(r, ledger) := insert_vote (pool_ledger st) (vote_of p req w) in
      {| pool_ledger := ledger; casters := <[i := Finished r]> (casters st) |}
  | _ => st
  end.

Definition run_casts (p : models.Proposal) (req : CastRequest)
    (schedule : list nat) (st : Pool) : Pool :=
  foldl (cast_step p req) st schedule.

Definition pool_init (ledger : list models.Vote) (n : nat) : Pool :=
  {| pool_ledger := ledger; casters := replicate n Pending |}.

(** The steps a worker has taken. *)
Definition phase (c : caster) : nat :=
match c with Pending => 0 | Checked _ => 1 | Finished _ => 2 end.

Definition is_finished (c : caster) : bool :=
  match c with Finished _ => true | _ => false end.
Definition is_success (c : caster) : bool :=
  match c with Finished (Ok _) => true | _ => false end.
Definition is_duplicate (c : caster) : bool :=
  match c with Finished (Fail AlreadyVoted) => true | _ => false end.

Definition count (f : caster → bool) (cs : list caster) : nat :=
  sum_list_with (λ c, if f c then 1%nat else 0%nat) cs.

(** What every interleaving maintains for the pair the workers cast on:
    the stored votes for the pair are the successes, every finished worker
    succeeded or met [AlreadyVoted], and there is a stored vote as soon as
    a worker has finished, and never a second one. *)
Definition pool_inv (pid : Z) (addr : string) (st : Pool) : Prop :=
let k := length (votes_of (pool_ledger st) pid addr) in
k = count is_success (casters st)
∧ (count is_success (casters st) + count is_duplicate (casters st))%nat
  = count is_finished (casters st)
∧ ((1 ≤ count is_finished (casters st))%nat → k = 1%nat)
∧ (k ≤ 1)%nat.

(** Every worker is scheduled often enough to run both of its steps. *)
Definition completes (n : nat) (schedule : list nat) : Prop :=
  ∀ i, (i < n)%nat → (2 ≤ length (filter (λ j, j = i) schedule))%nat.

End Core.

Arguments CastRequest : clear implicits.

(** ** A reference implementation of the collaborators

    The state behind [a.DB] and the collaborators over it, following the
    specification where it describes them.  It instantiates the interface
    the handlers are parameterised by. *)

(** Modelled from the spec: the Voucher of the data model, with its embedded
    composite signatures reduced to whether they verify against the
    signer; the declaration of [shared.Voucher] is missing. *)
Record Voucher := {
  voucher_signer : string;
  voucher_verifies : bool;
}.

(** Modelled from the spec: a set of composite signatures, reduced to
    whether it proves control of the claimed address; the declaration of
    [shared.CompositeSignature] is missing. *)
Definition Sigs : Type := bool.

Module world.
(** Modelled from the spec: the persisted entities of the data model
    (proposals, votes, role grants, allow and block lists, communities and
    their lists), the balances of the chain snapshot with the threshold of
    the balance strategy, the awards that ran, and whether computing the
    achievements fails. *)
Record t := {
  proposals : gmap Z models.Proposal;
  ledger : list models.Vote;
  balances : gmap string Z;
  min_balance : Z;
  grants : list (Z * string * string);
  blocklist : list string;
  admin_allowlist : list string;
  communities : gmap Z models.Community;
  lists : list models_ext.ListPayload;
  awards : list Z;
  achievement_error : error;
}.

Definition set_proposals (f : gmap Z models.Proposal → gmap Z models.Proposal) (w : t) : t :=
  {| proposals := f (proposals w); ledger := ledger w; balances := balances w;
     min_balance := min_balance w; grants := grants w; blocklist := blocklist w;
     admin_allowlist := admin_allowlist w; communities := communities w;
     lists := lists w; awards := awards w;
     achievement_error := achievement_error w |}.

Definition set_ledger (l : list models.Vote) (w : t) : t :=
  {| proposals := proposals w; ledger := l; balances := balances w;
     min_balance := min_balance w; grants := grants w; blocklist := blocklist w;
     admin_allowlist := admin_allowlist w; communities := communities w;
     lists := lists w; awards := awards w;
     achievement_error := achievement_error w |}.

Definition set_grants (g : list (Z * string * string)) (w : t) : t :=
  {| proposals := proposals w; ledger := ledger w; balances := balances w;
     min_balance := min_balance w; grants := g; blocklist := blocklist w;
     admin_allowlist := admin_allowlist w; communities := communities w;
     lists := lists w; awards := awards w;
     achievement_error := achievement_error w |}.

Definition set_communities (c : gmap Z models.Community) (w : t) : t :=
  {| proposals := proposals w; ledger := ledger w; balances := balances w;
     min_balance := min_balance w; grants := grants w; blocklist := blocklist w;
     admin_allowlist := admin_allowlist w; communities := c;
     lists := lists w; awards := awards w;
     achievement_error := achievement_error w |}.

Definition set_lists (l : list models_ext.ListPayload) (w : t) : t :=
  {| proposals := proposals w; ledger := ledger w; balances := balances w;
     min_balance := min_balance w; grants := grants w; blocklist := blocklist w;
     admin_allowlist := admin_allowlist w; communities := communities w;
     lists := l; awards := awards w;
     achievement_error := achievement_error w |}.

Definition set_awards (a : list Z) (w : t) : t :=
  {| proposals := proposals w; ledger := ledger w; balances := balances w;
     min_balance := min_balance w; grants := grants w; blocklist := blocklist w;
     admin_allowlist := admin_allowlist w; communities := communities w;
     lists := lists w; awards := a;
     achievement_error := achievement_error w |}.

Definition set_achievement_error (e : error) (w : t) : t :=
  {| proposals := proposals w; ledger := ledger w; balances := balances w;
     min_balance := min_balance w; grants := grants w; blocklist := blocklist w;
     admin_allowlist := admin_allowlist w; communities := communities w;
     lists := lists w; awards := awards w;
     achievement_error := e |}.
End world.

Definition with_Achievements_done (p : models.Proposal) (b : bool) : models.Proposal :=
  {| models.ID := models.ID p; models.Community_id := models.Community_id p;
     models.Strategy := models.Strategy p; models.Status := models.Status p;
     models.Computed_status := models.Computed_status p;
     models.Achievements_done := b;
     models.Cid := models.Cid p |}.

Module reference.

(** Modelled from the spec: the Strategy Engine on the strategies of the
    spec's scenarios, flat one-address-one-vote and balance-threshold; a
    name without a handler is [StrategyNotFound], a balance the chain
    client cannot deliver is [BalanceFetchError]. *)
Definition computeWeight (w : world.t) (strategyName address : string)
    (p : models.Proposal) : result Z :=
  if bool_decide (strategyName = "one-address-one-vote") then Ok 1
  else if bool_decide (strategyName = "balance-threshold") then
    match world.balances w !! address with
    | None => Fail BalanceFetchError
    | Some balance =>
        if world.min_balance w <=? balance then Ok balance
        else Fail InsufficientBalance
    end
  else Fail StrategyNotFound.

(** Modelled from the spec: the computed status that admits votes. *)
Definition active (p : models.Proposal) : bool :=
  bool_decide (models.Computed_status p = Some "published").

(** Modelled from the spec: the strict total order of the roles, admin
    above author above member. *)
Definition role_rank (role : string) : option nat :=
  if bool_decide (role = "admin") then Some 3%nat
  else if bool_decide (role = "author") then Some 2%nat
  else if bool_decide (role = "member") then Some 1%nat
  else None.

(** Modelled from the spec: a Community Role Grant for the address in the
    community, of the required rank or above. *)
Definition grant_covers (community : Z) (addr : string) (need : nat)
    (g : Z * string * string) : bool :=
  let '(c, a, r) := g in
  bool_decide (c = community) && bool_decide (a = addr)
  && match role_rank r with
     | Some have => (need <=? have)%nat
     | None => false
     end.

(** Modelled from the spec: [authorize] of the Role Authorizer: a grant of
    the required role or of a higher one, the block list always failing
    and the global admin list always succeeding. *)
Definition authorize (w : world.t) (addr : string) (community : Z) (role : string)
  : bool :=
  if bool_decide (addr ∈ world.blocklist w) then false
  else if bool_decide (addr ∈ world.admin_allowlist w) then true
  else match role_rank role with
       | Some need => existsb (grant_covers community addr need) (world.grants w)
       | None => false
       end.

(** Modelled from the spec: the direct path: the composite signatures must
    prove control of the address (Identity Verifier), then the address must
    hold the role (Role Authorizer); the source of
    [helpers.validateUserWithRole] is missing. *)
Definition validateUserWithRole (w : world.t) (addr timestamp : string)
    (sigs : option Sigs) (community : Z) (role : string) : error :=
  if negb (default false sigs) then Some "invalid signature"
  else if negb (authorize w addr community role) then Some "forbidden"
  else None.

(** Modelled from the spec: the voucher path of the Identity Verifier: the
    voucher's embedded signatures are verified against the voucher signer,
    then the signer must hold the role for the community; the source of
    [helpers.validateUserWithRoleViaVoucher] is missing. *)
Definition validateUserWithRoleViaVoucher (w : world.t) (addr : string)
    (voucher : Voucher) (community : Z) (role : string) : error :=
  if negb (voucher_verifies voucher) then Some "invalid signature"
  else if negb (authorize w (voucher_signer voucher) community role)
  then Some "forbidden"
  else None.

(** Modelled from the spec: step 2 of [castVote]: the proof must verify,
    and a blocked address may never vote. *)
Definition verify (w : world.t) (addr : string) (proof : Sigs) : option fail :=
  if negb proof then Some InvalidSignature
  else if bool_decide (addr ∈ world.blocklist w) then Some Forbidden
  else None.

(** Modelled from the spec: the read of a proposal by the identifier in the
    route, from the persistence collaborator; a failure returns the zero
    proposal with the error.  The source of [helpers.fetchProposal] is
    missing. *)
Definition fetchProposal (w : world.t) (vars : gmap string string) (query : string)
  : models.Proposal * error :=
  let '(proposalId, err) := strconv.Atoi (var_of vars query) in
  if is_err err then (models.Proposal_zero, Some "Invalid proposalId")
  else match world.proposals w !! proposalId with
       | Some p => (p, None)
       | None => (models.Proposal_zero, Some "Invalid proposalId")
       end.

(** Modelled from the spec: the votes recorded for a proposal, in insertion
    order; the source of [models.GetAllVotesForProposal] is missing. *)
Definition GetAllVotesForProposal (w : world.t) (proposalId : Z) (strategy : string)
  : list models.Vote * error :=
  (filter (λ v, models.Proposal_id v = proposalId) (world.ledger w), None).

Definition ProposalResults_zero : models.ProposalResults :=
  {| models.RProposal_id := 0; models.Results := ∅ |}.

(** Modelled from the spec: the results of a proposal are its [tally]. *)
Definition useStrategyTally (w : world.t) (p : models.Proposal)
    (votes : list models.Vote) : models.ProposalResults * error :=
  match tally (computeWeight w) p votes with
  | Ok m => ({| models.RProposal_id := models.ID p; models.Results := m |}, None)
  | Fail e => (ProposalResults_zero, Some "tally failed")
  end.

Definition Vote_zero : models.Vote :=
  {| models.Proposal_id := 0; models.Addr := ""; models.Choice := "";
     models.Weight := 0 |}.

(** Modelled from the spec: the vote of an address on a proposal, if any;
    the source of [helpers.processVote] is missing. *)
Definition processVote (w : world.t) (addr : string) (p : models.Proposal)
  : models.Vote * error :=
  match votes_of (world.ledger w) (models.ID p) addr with
  | v :: _ => (v, None)
  | [] => (Vote_zero, Some "vote not found")
  end.

(** Modelled from the spec: the user-facing rejection with a stable code
    for an error kind, taken from the singletons of [controllers.go]. *)
Definition response_of (e : fail) : errorResponse :=
  match e with
  | AlreadyVoted => errAlreadyVoted
  | InactiveProposal => errInactiveProposal
  | InsufficientBalance => errInsufficientBalance
  | StrategyNotFound => errStrategyNotFound
  | BalanceFetchError => errFetchingBalance
  | InvalidSignature | ExpiredTimestamp | InsufficientKeyWeight | Forbidden =>
      errForbidden
  | AchievementComputeError => errCreateVote
  end.

(** Modelled from the spec: [castVote] on the decoded request, answering
    with the vote or with the rejection for the error kind. *)
Definition createVote (decode : string → option (CastRequest Sigs))
    (w : world.t) (body : string) (p : models.Proposal)
  : (models.Vote * errorResponse) * world.t :=
  match decode body with
  | None => ((Vote_zero, errCreateVote), w)
  | Some req =>
      match castVote (computeWeight w) active (verify w) (world.ledger w) p req with
      | (Ok v, ledger) => ((v, nilErr), world.set_ledger ledger w)
      | (Fail e, ledger) => ((Vote_zero, response_of e), world.set_ledger ledger w)
      end
  end.

(** Modelled from the spec: the conditional update of the persistence
    layer that flips [achievements_done] of a closed proposal from false
    to true and reports whether it did. *)
Definition flip_achievements_done (w : world.t) (proposalId : Z) : bool * world.t :=
  match world.proposals w !! proposalId with
  | Some p =>
      if bool_decide (models.Computed_status p = Some "closed")
         && negb (models.Achievements_done p)
      then (true, world.set_proposals
                    (insert proposalId (with_Achievements_done p true)) w)
      else (false, w)
  | None => (false, w)
  end.

(** Modelled from the spec: [maybeAwardAchievements] of the Achievement
    Trigger: the award proceeds only if the flip succeeded; losing the
    race is not an error.  The source of
    [models.AddWinningVoteAchievement] is missing. *)
Definition AddWinningVoteAchievement (w : world.t) (votes : list models.Vote)
    (results : models.ProposalResults) : error * world.t :=
  let proposalId := models.RProposal_id results in
  let '(flipped, w) := flip_achievements_done w proposalId in
  if flipped then
    match world.achievement_error w with
    | Some e => (Some e, w)
    | None => (None, world.set_awards (world.awards w ++ [proposalId]) w)
    end
  else (None, w).

(** Modelled from the spec: the pinning service, an external collaborator
    that answers with a content identifier. *)
Definition pinJSONToIpfs (w : world.t) (p : models.Proposal)
  : (option string * error) * world.t :=
  ((Some ("cid-" +:+ strconv.Itoa (models.ID p)), None), w).

(** Modelled from the spec: the update of the persistence collaborator,
    which stores the record it is handed under its identifier; the source
    of [models.Proposal.UpdateProposal] is missing. *)
Definition UpdateProposal (w : world.t) (p : models.Proposal)
  : (models.Proposal * error) * world.t :=
  match world.proposals w !! models.ID p with
  | Some _ => ((p, None), world.set_proposals (insert (models.ID p) p) w)
  | None => ((p, Some "no rows in result set"), w)
  end.

Definition Community_zero : models.Community :=
  {| models.Community_ID := 0; models.Strategies := None |}.

(** Modelled from the spec: community CRUD, an external collaborator: read,
    create under a fresh identifier, update of the strategies. *)
Definition fetchCommunity (w : world.t) (id : Z) : models.Community * error :=
  match world.communities w !! id with
  | Some c => (c, None)
  | None => (Community_zero, Some "community not found")
  end.

Definition createCommunity (w : world.t) (payload : models.CommunityRequestPayload)
  : (models.Community * error) * world.t :=
  let id := Z.of_nat (size (world.communities w)) + 1 in
  let c := {| models.Community_ID := id;
              models.Strategies := models.PStrategies payload |} in
  ((c, None), world.set_communities (<[id := c]> (world.communities w)) w).

Definition updateCommunity (w : world.t) (id : Z)
    (payload : models.CommunityRequestPayload)
  : (models.Community * error) * world.t :=
  match world.communities w !! id with
  | None => ((Community_zero, Some "community not found"), w)
  | Some c =>
      let c' := match models.PStrategies payload with
                | Some s => {| models.Community_ID := id; models.Strategies := Some s |}
                | None => c
                end in
      ((c', None), world.set_communities (<[id := c']> (world.communities w)) w)
  end.

Definition signer_of (fields : gmap string string) : string :=
  default "" (fields !! "signingAddr").

(** Modelled from the spec: list and membership CRUD, an external
    collaborator gated by the Role Authorizer: changes are for admins of
    the community, and a refused signer is answered [StatusForbidden]. *)
Definition createListForCommunity (w : world.t) (lp : models_ext.ListPayload)
  : (payload * Z * error) * world.t :=
  if authorize w (signer_of (models_ext.LFields lp)) (models_ext.LCommunity_id lp) "admin"
  then ((JObject (models_ext.LFields lp), http.StatusCreated, None),
        world.set_lists (world.lists w ++ [lp]) w)
  else ((JString "", http.StatusForbidden, Some "user is not an admin"), w).

Definition updateAddressesInList (w : world.t) (id : Z)
    (up : models_ext.ListUpdatePayload) (action : string) : (Z * error) * world.t :=
  match world.lists w !! Z.to_nat (id - 1) with
  | None => ((http.StatusInternalServerError, Some "list not found"), w)
  | Some lp =>
      if authorize w (signer_of (models_ext.AFields up))
           (models_ext.LCommunity_id lp) "admin"
      then ((http.StatusOK, None), w)
      else ((http.StatusForbidden, Some "user is not an admin"), w)
  end.

Definition createCommunityUser (w : world.t) (up : models_ext.CommunityUserPayload)
  : (Z * error) * world.t :=
  if authorize w (signer_of (models_ext.UFields up))
       (models_ext.UCommunity_id up) "admin"
  then ((http.StatusCreated, None),
        world.set_grants
          (world.grants w ++
             [(models_ext.UCommunity_id up, models_ext.UAddr up,
               models_ext.User_type up)]) w)
  else ((http.StatusForbidden, Some "user is not an admin"), w).

(** What [encoding/json] makes of a request body at each payload type. *)
Record Decoders := {
  as_UpdateProposal : string → option (models.UpdateProposalRequestPayload Voucher Sigs);
  as_Community : string → option models.CommunityRequestPayload;
  as_Fields : string → option (gmap string string);
  as_CommunityUser : string → option (string * string * gmap string string);
  as_Cast : string → option (CastRequest Sigs);
}.

Definition decode_List (dec : Decoders) : Decoder models_ext.ListPayload :=
  λ body data,
    fields ← as_Fields dec body;
    Some {| models_ext.LCommunity_id := models_ext.LCommunity_id data;
            models_ext.LFields := fields |}.

Definition decode_ListUpdate (dec : Decoders) : Decoder models_ext.ListUpdatePayload :=
  λ body data,
    fields ← as_Fields dec body;
    Some {| models_ext.AFields := fields |}.

Definition decode_CommunityUser (dec : Decoders)
  : Decoder models_ext.CommunityUserPayload :=
  λ body data,
    '(addr, user_type, fields) ← as_CommunityUser dec body;
    Some {| models_ext.UCommunity_id := models_ext.UCommunity_id data;
            models_ext.UAddr := addr; models_ext.User_type := user_type;
            models_ext.UFields := fields |}.

Definition impl (dec : Decoders) : helpers.t world.t Voucher Sigs :=
  {| helpers.fetchProposal := fetchProposal;
     helpers.useStrategyTally := useStrategyTally;
     helpers.processVote := processVote;
     helpers.createVote := createVote (as_Cast dec);
     helpers.validateUserWithRoleViaVoucher := validateUserWithRoleViaVoucher;
     helpers.validateUserWithRole := validateUserWithRole;
     helpers.pinJSONToIpfs := pinJSONToIpfs;
     helpers.fetchCommunity := fetchCommunity;
     helpers.createCommunity := createCommunity;
     helpers.updateCommunity := updateCommunity;
     helpers.validateContractThreshold := validateConractThreshold;
     helpers.validateProposalThreshold := λ _ _, None;
     helpers.createListForCommunity := createListForCommunity;
     helpers.updateAddressesInList := updateAddressesInList;
     helpers.createCommunityUser := createCommunityUser;
     helpers.GetAllVotesForProposal := GetAllVotesForProposal;
     helpers.AddWinningVoteAchievement := AddWinningVoteAchievement;
     helpers.UpdateProposal := UpdateProposal;
     helpers.decode_UpdateProposal := λ body _, as_UpdateProposal dec body;
     helpers.decode_Community := λ body _, as_Community dec body;
     helpers.decode_List := decode_List dec;
     helpers.decode_ListUpdate := decode_ListUpdate dec;
     helpers.decode_CommunityUser := decode_CommunityUser dec |}.

End reference.

(** ** Concurrent tally reads

    Every read of the results is handled by a worker of its own.  Workers
    share the package-level variables and the state behind [a.DB]; the
    response writer and the log belong to the request.  A worker takes one
    step per collaborator call of [getResultsForProposal], and between two
    steps of a worker any other worker may run. *)
Section Readers.
Context {DB Voucher Sigs : Type} (h : helpers.t DB Voucher Sigs).

Local Abbreviation H := (H DB).

(** [getResultsForProposal] cut at its collaborator calls: reading the
    votes, the tally, the guarded award, the answer. *)
Definition results_votes (proposal : models.Proposal) : H (list models.Vote) :=
  strategy ← deref (models.Strategy proposal);
  '(votes, err) ←
    query (λ d, helpers.GetAllVotesForProposal h d (models.ID proposal) strategy);
  failIncomplete err "Error getting votes for proposal.";;
  mret votes.

Definition results_tally (proposal : models.Proposal) (votes : list models.Vote)
  : H models.ProposalResults :=
  '(results, err) ← query (λ d, helpers.useStrategyTally h d proposal votes);
  failIncomplete err "Error tallying votes.";;
  mret results.

Definition results_award (proposal : models.Proposal) (votes : list models.Vote)
    (results : models.ProposalResults) : H unit :=
  computed_status ← deref (models.Computed_status proposal);
  when (bool_decide (computed_status = "closed")
        && negb (models.Achievements_done proposal))
    (err ← exec (λ d, helpers.AddWinningVoteAchievement h d votes results);
     when (is_err err)
       (log_Error "Error calculating winning votes";;
        respondIncomplete)).

Definition results_answer (results : models.ProposalResults) : H unit :=
  respondWithJSON http.StatusOK (JResults results).

(** Where a worker stands, with the local variables that are live there. *)
Inductive stage :=
| AtFetch
| AtVotes (proposal : models.Proposal)
| AtTally (proposal : models.Proposal) (votes : list models.Vote)
| AtAward (proposal : models.Proposal) (votes : list models.Vote)
    (results : models.ProposalResults)
| AtAnswer (results : models.ProposalResults).

(** The code from one stage to the next. *)
Definition advance (r : Request) (pc : stage) : H stage :=
  match pc with
  | AtFetch =>
      '(proposal, err) ← query (λ d, helpers.fetchProposal h d (Vars r) "proposalId");
      mret (AtVotes proposal)
  | AtVotes proposal =>
      votes ← results_votes proposal;
      mret (AtTally proposal votes)
  | AtTally proposal votes =>
      results ← results_tally proposal votes;
      mret (AtAward proposal votes results)
  | AtAward proposal votes results =>
      results_award proposal votes results;;
      mret (AtAnswer results)
  | AtAnswer results =>
      results_answer results;;
      return_
  end.

Definition served_of (crashed : bool) (s : St DB) : Served DB :=
  {| response := rw s; panicked := crashed; logged := logs s;
     app_after := {| app_globals := globals s; app_db := db s |} |}.

Inductive reader :=
| Running (pc : stage) (w : ResponseWriter) (log : list string)
| Answered (out : Served DB).

Record Readers := {
  shared_app : App DB;
  readers : list reader;
}.

Definition read_step (r : Request) (st : Readers) (i : nat) : Readers :=
  match readers st !! i with
  | Some (Running pc w log) =>
      let s := {| globals := app_globals (shared_app st);
                  db := app_db (shared_app st); rw := w; logs := log |} in
      match advance r pc s with
      | Next pc' s' =>
          {| shared_app := app_after (served_of false s');
             readers := <[i := Running pc' (rw s') (logs s')]> (readers st) |}
      | Return s' =>
          {| shared_app := app_after (served_of false s');
             readers := <[i := Answered (served_of false s')]> (readers st) |}
      | Panic s' =>
          {| shared_app := app_after (served_of true s');
             readers := <[i := Answered (served_of true s')]> (readers st) |}
      end
  | _ => st
  end.

Definition run_reads (r : Request) (schedule : list nat) (st : Readers) : Readers :=
  foldl (read_step r) st schedule.

Definition readers_init (a : App DB) (n : nat) : Readers :=
  {| shared_app := a;
     readers := replicate n (Running AtFetch ResponseWriter_new []) |}.

(** The steps a worker has behind it. *)
Definition rank (rd : reader) : nat :=
  match rd with
  | Running AtFetch _ _ => 0
  | Running (AtVotes _) _ _ => 1
  | Running (AtTally _ _) _ _ => 2
  | Running (AtAward _ _ _) _ _ => 3
  | Running (AtAnswer _) _ _ => 4
  | Answered _ => 5
  end.

End Readers.

Arguments stage : clear implicits.
Arguments reader : clear implicits.
Arguments Readers : clear implicits.

(** The turns a schedule gives to worker [i]. *)
Definition turns (i : nat) (schedule : list nat) : nat :=
  length (filter (λ j, j = i) schedule).

(** ** Fixtures *)

Module fixture.

Definition low_threshold : list models.Strategy_t :=
  [ {| models.Name := Some "one-address-one-vote"; models.Threshold := None |};
    {| models.Name := Some "balance-threshold"; models.Threshold := Some (1 # 2)%Q |} ].

Definition cancel (addr : string) (voucher : option Voucher)
  : models.UpdateProposalRequestPayload Voucher Sigs :=
  {| models.UStatus := "cancelled"; models.Signing_addr := addr;
     models.Timestamp := "1666000000"; models.Composite_signatures := Some true;
     models.UVoucher := voucher |}.

(** A voucher whose signatures verify and whose signer holds no role. *)
Definition delegate : Voucher :=
  {| voucher_signer := "0xdelegate"; voucher_verifies := true |}.

Definition dec : reference.Decoders :=
  {| reference.as_UpdateProposal := λ body,
       if bool_decide (body = "cancel") then Some (cancel "0xauthor" None)
       else if bool_decide (body = "cancel as stranger") then
         Some (cancel "0xstranger" None)
       else if bool_decide (body = "cancel by voucher") then
         Some (cancel "0xauthor" (Some delegate))
       else if bool_decide (body = "publish") then
         Some {| models.UStatus := "published"; models.Signing_addr := "0xauthor";
                 models.Timestamp := "1666000000";
                 models.Composite_signatures := Some true;
                 models.UVoucher := None |}
       else None;
     reference.as_Community := λ body,
       if bool_decide (body = "low threshold") then
         Some {| models.PStrategies := Some low_threshold;
                 models.Proposal_threshold := None;
                 models.Only_authors_to_submit := None |}
       else None;
     reference.as_Fields := λ body,
       if bool_decide (body = "") then None
       else Some {[ "signingAddr" := body ]};
     reference.as_CommunityUser := λ body,
       if bool_decide (body = "") then None
       else Some ("0xnew", "member", {[ "signingAddr" := body ]});
     reference.as_Cast := λ body,
       if bool_decide (body = "") then None
       else Some {| cast_addr := body; cast_choice := "yes"; cast_proof := true |} |}.

Definition h : helpers.t world.t Voucher Sigs := reference.impl dec.

Definition proposal (id : Z) (computed : string) : models.Proposal :=
  {| models.ID := id; models.Community_id := 1;
     models.Strategy := Some "one-address-one-vote";
     models.Status := Some "published";
     models.Computed_status := Some computed;
     models.Achievements_done := false;
     models.Cid := None |}.

Definition vote (id : Z) (addr choice : string) : models.Vote :=
  {| models.Proposal_id := id; models.Addr := addr; models.Choice := choice;
     models.Weight := 1 |}.

(** Proposal 1 has expired with two votes and no achievements awarded
    yet; proposal 2 is open. *)
Definition w0 : world.t :=
  {| world.proposals := {[ 1 := proposal 1 "closed"; 2 := proposal 2 "published" ]};
     world.ledger := [vote 1 "0xa" "yes"; vote 1 "0xb" "no"];
     world.balances := ∅;
     world.min_balance := 0;
     world.grants := [(1, "0xauthor", "author"); (1, "0xadmin", "admin")];
     world.blocklist := [];
     world.admin_allowlist := [];
     world.communities := {[ 1 := {| models.Community_ID := 1;
                                    models.Strategies := None |} ]};
     world.lists := [];
     world.awards := [];
     world.achievement_error := None |}.

Definition app0 : App world.t :=
  {| app_globals := globals_init; app_db := w0 |}.

(** The same with an achievement computation that fails. *)
Definition app_faulty : App world.t :=
  {| app_globals := globals_init;
     app_db := world.set_achievement_error (Some "achievements unavailable") w0 |}.

(** A cast on the open proposal by an address that has not voted. *)
Definition cast : CastRequest Sigs :=
  {| cast_addr := "0xc"; cast_choice := "yes"; cast_proof := true |}.

Definition results1 : models.ProposalResults :=
  {| models.RProposal_id := 1;
     models.Results := {[ "yes" := 1; "no" := 1 ]} |}.

End fixture.

(** ** Outcomes of a request *)

Definition sub_one (st : models.Strategy_t) : Prop :=
  ∃ t, models.Threshold st = Some t ∧ (t < 1)%Q.

Section Outcomes.
Context {DB Voucher Sigs : Type} (h : helpers.t DB Voucher Sigs).

(** The request was answered with [errIncompleteRequest] as it stood and
    nothing was stored. *)
Definition rejected_untouched (a : App DB) (out : Served DB) : Prop :=
  app_db (app_after out) = app_db a
  ∧ panicked out = false
  ∧ status (response out) = Some (StatusCode (errIncompleteRequest (app_globals a)))
  ∧ body (response out)
    = [JObject (error_fields (errIncompleteRequest (app_globals a)))].

(** The role check [updateProposal] runs for a payload: through the
    voucher when there is one, on the composite signatures otherwise. *)
Definition authorization (d : DB) (p : models.Proposal)
    (payload : models.UpdateProposalRequestPayload Voucher Sigs) : error :=
  match models.UVoucher payload with
  | Some voucher =>
      helpers.validateUserWithRoleViaVoucher h d (models.Signing_addr payload)
        voucher (models.Community_id p) "author"
  | None =>
      helpers.validateUserWithRole h d (models.Signing_addr payload)
        (models.Timestamp payload) (models.Composite_signatures payload)
        (models.Community_id p) "author"
  end.

Definition forbidden_untouched (a : App DB) (out : Served DB) : Prop :=
  app_after out = a
  ∧ panicked out = false
  ∧ status (response out) = Some (StatusCode errForbidden)
  ∧ body (response out) = [JObject (error_fields errForbidden)].

(** A proposal that has reached a terminal state: cancelled or closed,
    by its stored status or by its computed status. *)
Definition terminal (p : models.Proposal) : Prop :=
  models.Status p = Some "cancelled" ∨ models.Status p = Some "closed"
  ∨ models.Computed_status p = Some "cancelled"
  ∨ models.Computed_status p = Some "closed".

(** The transitions of the status as the claim has them: an update of a
    terminal proposal is refused and leaves the stored status as it
    was. *)
Definition status_monotonic : Prop :=
  ∀ (r : Request) (a : App DB) (p : models.Proposal),
    helpers.fetchProposal h (app_db a) (Vars r) "id" = (p, None) →
    terminal p →
    let out := serve (updateProposal h r) a in
    status (response out) ≠ Some http.StatusOK
    ∧ models.Status (fst (helpers.fetchProposal h (app_db (app_after out)) (Vars r) "id"))
      = models.Status p.

End Outcomes.

(** ** Achievements in the reference world *)

(** How often the award ran for a proposal. *)
Definition awarded (w : world.t) (pid : Z) : nat :=
  length (filter (λ k, k = pid) (world.awards w)).

Definition achievements_done (w : world.t) (pid : Z) : bool :=
  from_option models.Achievements_done false (world.proposals w !! pid).

(** A proposal that has reached the closed state and whose achievements
    have not been awarded. *)
Definition newly_closed (p : models.Proposal) : Prop :=
  models.Computed_status p = Some "closed" ∧ models.Achievements_done p = false.

(** The world once the flag of a newly closed proposal has been flipped and
    the award has run, or failed to compute. *)
Definition after_award (w : world.t) (pid : Z) (p : models.Proposal) : world.t :=
  let flipped :=
    world.set_proposals (insert pid (with_Achievements_done p true)) w in
  match world.achievement_error w with
  | Some _ => flipped
  | None => world.set_awards (world.awards w ++ [pid]) flipped
  end.

(** What every interleaving of reads of a newly closed proposal [p0],
    stored under [pid] in the world [w0], maintains.  The world is [w0] or
    the world after the award.  A worker holds the proposal as it was, or
    as it is after the flip if the flip has happened; the results it holds
    are results for [pid].  A worker that is past the award has seen the
    flip happen.  [reach] says that a read gets as far as the award (the
    strategy is set and the tally of the votes [votes0] succeeds); then the
    flip has happened as soon as a worker has answered. *)
Definition reader_inv (w0 : world.t) (pid : Z) (p0 : models.Proposal)
    (votes0 : list models.Vote) (reach : bool) (w : world.t)
    (rd : reader world.t) : Prop :=
  let held p :=
    p = p0 ∨ (p = with_Achievements_done p0 true ∧ w = after_award w0 pid p0) in
  match rd with
  | Running AtFetch _ _ => True
  | Running (AtVotes p) _ _ => held p
  | Running (AtTally p votes) _ _ => held p ∧ (reach = true → votes = votes0)
  | Running (AtAward p votes results) _ _ =>
      held p ∧ models.RProposal_id results = pid
  | Running (AtAnswer _) _ _ => w = after_award w0 pid p0
  | Answered _ => reach = true → w = after_award w0 pid p0
  end.

Definition readers_inv (w0 : world.t) (pid : Z) (p0 : models.Proposal)
    (votes0 : list models.Vote) (reach : bool) (st : Readers world.t) : Prop :=
  let w := app_db (shared_app st) in
  (w = w0 ∨ w = after_award w0 pid p0)
  ∧ Forall (reader_inv w0 pid p0 votes0 reach w) (readers st).

(** The same for a proposal that is not newly closed: nothing is stored. *)
Definition reader_idle (p0 : models.Proposal) (rd : reader world.t) : Prop :=
  match rd with
  | Running (AtVotes p) _ _ | Running (AtTally p _) _ _
  | Running (AtAward p _ _) _ _ => p = p0
  | _ => True
  end.

Definition readers_idle (w0 : world.t) (p0 : models.Proposal)
    (st : Readers world.t) : Prop :=
  app_db (shared_app st) = w0 ∧ Forall (reader_idle p0) (readers st).

(** ** More handlers

    The handlers of [controllers.go] beside the ones above, over the
    collaborators they call.  Values that only travel from one collaborator
    to the next are of an opaque type [V]; a value that is marshalled is a
    [payload]. *)

Definition with_TotalRecords (p : shared.PageParams) (n : Z) : shared.PageParams :=
  {| shared.Start := shared.Start p; shared.Count := shared.Count p;
     shared.Order := shared.Order p; shared.TotalRecords := n |}.

Module more.
Record t {DB V : Type} := {
  getPaginatedVotes : DB → Request → models.Proposal → V * shared.PageParams * error;
  useStrategyGetVotes : DB → models.Proposal → V → payload * error;
  createProposal : DB → models.Proposal → (models.Proposal * errorResponse) * DB;
  searchCommunities : DB → string → string → shared.PageParams → V * Z * V * error;
  appendFiltersToResponse : DB → V → shared.PageParams → V → payload * error;
  removeUserRole : DB → models_ext.CommunityUserPayload → (Z * error) * DB;
  (** package [shared] *)
  GetPaginatedResponseWithPayload : payload → shared.PageParams → payload;
  (** package [models] *)
  MatchStrategyByProposal : list models.Strategy_t → string → models.Strategy_t * error;
  GetCommunityTypes : DB → payload * error;
  GetActiveStrategiesForCommunity : DB → Z → payload * error;
  GetListsForCommunity : DB → Z → payload * error;
  GetListById : DB → Z → payload * error;
  GetCommunities : DB → shared.PageParams → payload * Z * error;
  GetProposalsForCommunity : DB → Z → string → shared.PageParams → payload * Z * error;
  GetDefaultCommunities :
    DB → shared.PageParams → list string → bool → payload * Z * error;
  GetUsersForCommunity : DB → Z → shared.PageParams → payload * Z * error;
  EnsureValidRole : string → bool;
  GetUsersForCommunityByType :
    DB → Z → string → shared.PageParams → payload * Z * error;
  GetCommunitiesForUser : DB → string → shared.PageParams → payload * Z * error;
  (** [helpers], continued *)
  processVotes :
    DB → string → list Z → shared.PageParams → payload * shared.PageParams * error;
  (** [encoding/json] at the payload type *)
  decode_Proposal : Decoder models.Proposal;
  (** [json.Unmarshal] into a [[]int] *)
  Unmarshal_proposalIds : string → list Z * error;
}.
Arguments t : clear implicits.
End more.

Definition with_Community_id (p : models.Proposal) (id : Z) : models.Proposal :=
  {| models.ID := models.ID p; models.Community_id := id;
     models.Strategy := models.Strategy p; models.Status := models.Status p;
     models.Computed_status := models.Computed_status p;
     models.Achievements_done := models.Achievements_done p;
     models.Cid := models.Cid p |}.

Section MoreControllers.
Context {DB Voucher Sigs V : Type}.
Context (h : helpers.t DB Voucher Sigs) (m : more.t DB V).

Local Abbreviation H := (H DB).

Definition health (r : Request) : H unit :=
  respondWithJSON http.StatusOK (JString "OK!!").

Definition getVotesForProposal (r : Request) : H unit :=
  let vars := Vars r in
  '(proposal, err) ← query (λ d, helpers.fetchProposal h d vars "proposalId");
  failIncomplete err "Invalid Proposal ID.";;
  '(votes, order, err) ← query (λ d, more.getPaginatedVotes m d r proposal);
  failIncomplete err "error getting paginated votes";;
  '(votesWithWeights, err) ← query (λ d, more.useStrategyGetVotes m d proposal votes);
  failIncomplete err "error calling useStrategyGetVotes";;
  let response := more.GetPaginatedResponseWithPayload m votesWithWeights order in
  respondWithJSON http.StatusOK response.

Definition getProposalsForCommunity (r : Request) : H unit :=
  let vars := Vars r in
  let '(communityId, err) := strconv.Atoi (var_of vars "communityId") in
  failIncomplete err "Invalid Community ID";;
  let pageParams := getPageParams r 25 in
  let status := FormValue r "status" in
  '(proposals, totalRecords, err) ←
    query (λ d, more.GetProposalsForCommunity m d communityId status pageParams);
  failIncomplete err "Error getting proposals for community.";;
  let pageParams := with_TotalRecords pageParams totalRecords in
  let response := more.GetPaginatedResponseWithPayload m proposals pageParams in
  respondWithJSON http.StatusOK response.

Definition getProposal (r : Request) : H unit :=
  let vars := Vars r in
  '(p, err) ← query (λ d, helpers.fetchProposal h d vars "id");
  failIncomplete err "Invalid Proposal ID.";;
  '(c, err) ← query (λ d, helpers.fetchCommunity h d (models.Community_id p));
  failIncomplete err "error fetching community";;
  strategies ← deref (models.Strategies c);
  strategy ← deref (models.Strategy p);
  let '(_, err) := more.MatchStrategyByProposal m strategies strategy in
  failIncomplete err "error getting strategy by proposal";;
  respondWithJSON http.StatusOK (JProposal p).

Definition createProposal (r : Request) : H unit :=
  let vars := Vars r in
  let '(communityId, err) := strconv.Atoi (var_of vars "communityId") in
  failIncomplete err "Invalid Community ID";;
  let p := with_Community_id models.Proposal_zero communityId in
  '(p, err) ← validatePayload (more.decode_Proposal m) (Body r) p;
  failIncomplete err "Error validating payload";;
  '(proposal, errResponse) ← exec (λ d, more.createProposal m d p);
  when (bool_decide (errResponse ≠ nilErr))
    (log_Error "Error creating proposal";;
     respondWithError errResponse;;
     return_);;
  respondWithJSON http.StatusCreated (JProposal proposal).

Definition getCommunities (r : Request) : H unit :=
  let pageParams := getPageParams r 25 in
  '(communities, totalRecords, err) ←
    query (λ d, more.GetCommunities m d pageParams);
  failIncomplete err "Error fetching communities";;
  let pageParams := with_TotalRecords pageParams totalRecords in
  let response := more.GetPaginatedResponseWithPayload m communities pageParams in
  respondWithJSON http.StatusOK response.

(** Neither error branch returns. *)
Definition searchCommunities (r : Request) : H unit :=
  let pageParams := getPageParams r 25 in
  let filters := FormValue r "filters" in
  let searchText := FormValue r "text" in
  '(results, totalRecords, categories, err) ←
    query (λ d, more.searchCommunities m d searchText filters pageParams);
  when (is_err err)
    (log_Error "Error searching communities";;
     respondIncomplete);;
  let pageParams := with_TotalRecords pageParams totalRecords in
  '(paginatedResults, err) ←
    query (λ d, more.appendFiltersToResponse m d results pageParams categories);
  when (is_err err)
    (log_Error "Error appending filters to response";;
     respondIncomplete);;
  respondWithJSON http.StatusOK paginatedResults.

Definition getCommunityCategories (r : Request) : H unit :=
  '(vs, err) ← query (λ d, more.GetCommunityTypes m d);
  failIncomplete err "Error fetching community categories";;
  respondWithJSON http.StatusOK vs.

Definition getActiveStrategiesForCommunity (r : Request) : H unit :=
  let vars := Vars r in
  let '(communityId, err) := strconv.Atoi (var_of vars "communityId") in
  failIncomplete err "Invalid Community ID";;
  '(strategies, err) ←
    query (λ d, more.GetActiveStrategiesForCommunity m d communityId);
  failIncomplete err "Error fetching active strategies for community";;
  respondWithJSON http.StatusOK strategies.

Definition getListsForCommunity (r : Request) : H unit :=
  let vars := Vars r in
  let '(communityId, err) := strconv.Atoi (var_of vars "communityId") in
  failIncomplete err "Invalid Community ID";;
  '(lists, err) ← query (λ d, more.GetListsForCommunity m d communityId);
  failIncomplete err "Error getting lists for community";;
  respondWithJSON http.StatusOK lists.

Definition getList (r : Request) : H unit :=
  let vars := Vars r in
  let '(id, err) := strconv.Atoi (var_of vars "id") in
  failIncomplete err "Invalid List ID";;
  '(list, err) ← query (λ d, more.GetListById m d id);
  failIncomplete err "Error getting list";;
  respondWithJSON http.StatusOK list.

Definition removeUserRole (r : Request) : H unit :=
  let vars := Vars r in
  let addr := var_of vars "addr" in
  let userType := var_of vars "userType" in
  let '(communityId, err) := strconv.Atoi (var_of vars "communityId") in
  failIncomplete err "Invalid Community ID";;
  let payload :=
    {| models_ext.UCommunity_id := communityId; models_ext.UAddr := addr;
       models_ext.User_type := userType; models_ext.UFields := ∅ |} in
  '(payload, err) ← validatePayload (helpers.decode_CommunityUser h) (Body r) payload;
  failIncomplete err "Error validating payload";;
  '(_, err) ← exec (λ d, more.removeUserRole m d payload);
  failIncomplete err "Error removing user role";;
  respondWithJSON http.StatusOK (JString "OK").

Definition getVotesForAddress (r : Request) : H unit :=
  let vars := Vars r in
  let addr := var_of vars "addr" in
  let '(proposalIds, err) := more.Unmarshal_proposalIds m (FormValue r "proposalIds") in
  failIncomplete err "Error unmarshalling proposalIds";;
  let pageParams := getPageParams r 25 in
  '(votes, pageParams, err) ←
    query (λ d, more.processVotes m d addr proposalIds pageParams);
  failIncomplete err "Error processing votes.";;
  let response := more.GetPaginatedResponseWithPayload m votes pageParams in
  respondWithJSON http.StatusOK response.

Definition getCommunitiesForHomePage (r : Request) : H unit :=
  let pageParams := getPageParams r 25 in
  let isSearch := false in
  '(communities, totalRecords, err) ←
    query (λ d, more.GetDefaultCommunities m d pageParams [] isSearch);
  failIncomplete err "Error fetching communities for home page";;
  let pageParams := with_TotalRecords pageParams totalRecords in
  let response := more.GetPaginatedResponseWithPayload m communities pageParams in
  respondWithJSON http.StatusOK response.

Definition getCommunityUsers (r : Request) : H unit :=
  let vars := Vars r in
  let '(communityId, err) := strconv.Atoi (var_of vars "communityId") in
  failIncomplete err "Invalid Community ID";;
  let pageParams := getPageParams r 100 in
  '(users, totalRecords, err) ←
    query (λ d, more.GetUsersForCommunity m d communityId pageParams);
  failIncomplete err "Error getting community users";;
  let pageParams := with_TotalRecords pageParams totalRecords in
  let response := more.GetPaginatedResponseWithPayload m users pageParams in
  respondWithJSON http.StatusOK response.

Definition getCommunityUsersByType (r : Request) : H unit :=
  let vars := Vars r in
  let '(communityId, err) := strconv.Atoi (var_of vars "communityId") in
  failIncomplete err "Invalid Community ID";;
  let userType := var_of vars "userType" in
  when (negb (more.EnsureValidRole m userType))
    (log_Error "Invalid User Type";;
     respondIncomplete;;
     return_);;
  let pageParams := getPageParams r 100 in
  '(users, totalRecords, err) ←
    query (λ d, more.GetUsersForCommunityByType m d communityId userType pageParams);
  failIncomplete err "Error getting community users";;
  let pageParams := with_TotalRecords pageParams totalRecords in
  let response := more.GetPaginatedResponseWithPayload m users pageParams in
  respondWithJSON http.StatusOK response.

Definition getUserCommunities (r : Request) : H unit :=
  let vars := Vars r in
  let addr := var_of vars "addr" in
  let pageParams := getPageParams r 100 in
  '(communities, totalRecords, err) ←
    query (λ d, more.GetCommunitiesForUser m d addr pageParams);
  failIncomplete err "Error getting user communities";;
  let pageParams := with_TotalRecords pageParams totalRecords in
  let response := more.GetPaginatedResponseWithPayload m communities pageParams in
  respondWithJSON http.StatusOK response.

End MoreControllers.

(** ** [net/http] on every status code

    [response.WriteHeader] and [response.Write] of [net/http] with
    the cases that [WriteHeader] and [Write] above leave out: a code
    outside 100..999 panics ([checkWriteHeaderCode]), a 1xx code other
    than 101 is sent as an informational response and leaves the response
    without a status line, and a body is dropped under a 1xx, 204 or 304
    status ([bodyAllowedForStatus]). *)

Module net_http.

Definition informational (code : Z) : bool :=
  (100 <=? code) && (code <=? 199) && negb (code =? 101).

Definition bodyAllowedForStatus (status : Z) : bool :=
  negb ((100 <=? status) && (status <=? 199))
  && negb (status =? 204) && negb (status =? 304).

(** [None] is the panic.  A call after the status line was sent returns
    before the code is looked at. *)
Definition WriteHeader (code : Z) (w : ResponseWriter) : option ResponseWriter :=
  match status w with
  | Some _ => Some w
  | None =>
      if (code <? 100) || (999 <? code) then None
      else if informational code then Some w
      else Some {| header := header w; status := Some code;
                   sent_header := header w; body := body w |}
  end.

Definition Write (p : payload) (w : ResponseWriter) : ResponseWriter :=
  let w := match status w with
           | Some _ => w
           | None =>
               {| header := header w; status := Some http.StatusOK;
                  sent_header := header w; body := body w |}
           end in
  if bodyAllowedForStatus (default http.StatusOK (status w))
  then {| header := header w; status := status w;
          sent_header := sent_header w; body := body w ++ [p] |}
  else w.

(** The three calls of [respondWithJSON]. *)
Definition respondWithJSON (code : Z) (p : payload) (w : ResponseWriter)
  : option ResponseWriter :=
  Write p <$> WriteHeader code (Header_Set "Content-Type" "application/json" w).

End net_http.

(** A status that [net/http] sends as the final status line and that admits
    a body. *)
Definition sendable (code : Z) : Prop :=
  200 ≤ code ≤ 999 ∧ code ≠ 204 ∧ code ≠ 304.

Definition sendable_globals (g : Globals) : Prop :=
  sendable (StatusCode (errIncompleteRequest g))
  ∧ sendable (StatusCode (errCreateCommunity g)).

(** ** What a handler does to the state it runs in *)

Section Effects.
Context {DB : Type}.

Definition final_state {A} (r : res DB A) : St DB :=
  match r with
  | Next _ s => s
  | Return s => s
  | Panic s => s
  end.

(** Every run of [m] ends in a state related by [R] to the one it started
    in, however it ends. *)
Definition keeps {A} (R : St DB → St DB → Prop) (m : H DB A) : Prop :=
  ∀ s, R s (final_state (m s)).

Definition same_globals (s s' : St DB) : Prop := globals s' = globals s.

(** Two values of an error variable that differ in the status at most. *)
Definition same_code (e e' : errorResponse) : Prop :=
  ErrorCode e' = ErrorCode e ∧ Message e' = Message e ∧ Details e' = Details e.

Definition same_codes (g g' : Globals) : Prop :=
  same_code (errIncompleteRequest g) (errIncompleteRequest g')
  ∧ same_code (errCreateCommunity g) (errCreateCommunity g').

Definition same_codes_in (s s' : St DB) : Prop :=
  same_codes (globals s) (globals s').

(** The writer after exactly one [respondWithJSON], with a status that is
    sent as it is. *)
Definition one_response (w w' : ResponseWriter) : Prop :=
  ∃ code p,
    sendable code
    ∧ w' = Write p (WriteHeader code (Header_Set "Content-Type" "application/json" w)).

(** Started with error variables of a sendable status, [m] has written
    nothing when it falls through and one response when it returns, it does
    not panic, and it leaves the error variables with a sendable status. *)
Definition pending {A} (m : H DB A) : Prop :=
  ∀ s, sendable_globals (globals s) →
       match m s with
       | Next _ s' => rw s' = rw s ∧ sendable_globals (globals s')
       | Return s' => one_response (rw s) (rw s') ∧ sendable_globals (globals s')
       | Panic _ => False
       end.

(** The same, where [m] writes one response on every path. *)
Definition answers {A} (m : H DB A) : Prop :=
  ∀ s, sendable_globals (globals s) →
       match m s with
       | Next _ s' => one_response (rw s) (rw s') ∧ sendable_globals (globals s')
       | Return s' => one_response (rw s) (rw s') ∧ sendable_globals (globals s')
       | Panic _ => False
       end.

(** The same, of a handler served from any server state. *)
Definition leaves_globals (handler : H DB unit) : Prop :=
  ∀ a, app_globals (app_after (serve handler a)) = app_globals a.

Definition leaves_codes (handler : H DB unit) : Prop :=
  ∀ a, same_codes (app_globals a) (app_globals (app_after (serve handler a))).

(** Served from [a], the handler does not panic, the response is what
    [net/http] makes of one [respondWithJSON] on a fresh connection, and the
    error variables are left with a sendable status. *)
Definition responds_once (handler : H DB unit) (a : App DB) : Prop :=
  let out := serve handler a in
  panicked out = false
  ∧ (∃ code p,
       sendable code
       ∧ net_http.respondWithJSON code p ResponseWriter_new = Some (response out))
  ∧ sendable_globals (app_globals (app_after out)).

End Effects.

(** The collaborators report statuses that [net/http] sends as they are:
    the error responses that [createVote] and [createProposal] hand back,
    and the status that comes with an error of the list and user helpers. *)
Record sendable_helpers {DB Voucher Sigs V : Type}
    (h : helpers.t DB Voucher Sigs) (m : more.t DB V) : Prop := {
  sendable_createVote :
    ∀ d body p v e d',
      helpers.createVote h d body p = ((v, e), d') → e ≠ nilErr →
      sendable (StatusCode e);
  sendable_createProposal :
    ∀ d p p' e d',
      more.createProposal m d p = ((p', e), d') → e ≠ nilErr →
      sendable (StatusCode e);
  sendable_createListForCommunity :
    ∀ d lp l code e d',
      helpers.createListForCommunity h d lp = ((l, code, Some e), d') →
      sendable code;
  sendable_updateAddressesInList :
    ∀ d id up action code e d',
      helpers.updateAddressesInList h d id up action = ((code, Some e), d') →
      sendable code;
  sendable_createCommunityUser :
    ∀ d up code e d',
      helpers.createCommunityUser h d up = ((code, Some e), d') →
      sendable code;
}.

(** The interface with three of its members replaced. *)
Definition helpers_with {DB Voucher Sigs : Type}
    (validateProposalThreshold : string → bool → error)
    (pinJSONToIpfs : DB → models.Proposal → (option string * error) * DB)
    (decode_Community : Decoder models.CommunityRequestPayload)
    (h : helpers.t DB Voucher Sigs) : helpers.t DB Voucher Sigs :=
  {| helpers.fetchProposal := helpers.fetchProposal h;
     helpers.useStrategyTally := helpers.useStrategyTally h;
     helpers.processVote := helpers.processVote h;
     helpers.createVote := helpers.createVote h;
     helpers.validateUserWithRoleViaVoucher := helpers.validateUserWithRoleViaVoucher h;
     helpers.validateUserWithRole := helpers.validateUserWithRole h;
     helpers.pinJSONToIpfs := pinJSONToIpfs;
     helpers.fetchCommunity := helpers.fetchCommunity h;
     helpers.createCommunity := helpers.createCommunity h;
     helpers.updateCommunity := helpers.updateCommunity h;
     helpers.validateContractThreshold := helpers.validateContractThreshold h;
     helpers.validateProposalThreshold := validateProposalThreshold;
     helpers.createListForCommunity := helpers.createListForCommunity h;
     helpers.updateAddressesInList := helpers.updateAddressesInList h;
     helpers.createCommunityUser := helpers.createCommunityUser h;
     helpers.GetAllVotesForProposal := helpers.GetAllVotesForProposal h;
     helpers.AddWinningVoteAchievement := helpers.AddWinningVoteAchievement h;
     helpers.UpdateProposal := helpers.UpdateProposal h;
     helpers.decode_UpdateProposal := helpers.decode_UpdateProposal h;
     helpers.decode_Community := decode_Community;
     helpers.decode_List := helpers.decode_List h;
     helpers.decode_ListUpdate := helpers.decode_ListUpdate h;
     helpers.decode_CommunityUser := helpers.decode_CommunityUser h |}.

(** ** More fixtures *)

Module scenario.

(** Modelled from the spec: stand-ins for the external collaborators of
    which the spec gives the interface only (paginated listings, community
    search, list and category reads, proposal creation, role removal),
    over the reference world; their sources are missing. *)
Definition m : more.t world.t unit :=
  {| more.getPaginatedVotes := λ w r p, (tt, getPageParams r 25, None);
     more.useStrategyGetVotes := λ w p _, (JString "votes", None);
     more.createProposal := λ w p,
       if reference.authorize w "0xauthor" (models.Community_id p) "author"
       then ((p, nilErr), w)
       else ((models.Proposal_zero, errForbidden), w);
     more.searchCommunities := λ w text filters pp,
       if bool_decide (text = "") then (tt, 0, tt, Some "empty search")
       else (tt, 1, tt, None);
     more.appendFiltersToResponse := λ w _ pp _, (JString "results", None);
     more.removeUserRole := λ w up, ((http.StatusOK, None), w);
     more.GetPaginatedResponseWithPayload := λ p pp, p;
     more.MatchStrategyByProposal := λ strategies name,
       match filter (λ s, models.Name s = Some name) strategies with
       | s :: _ => (s, None)
       | [] => ({| models.Name := None; models.Threshold := None |},
                Some "strategy not found")
       end;
     more.GetCommunityTypes := λ w, (JString "categories", None);
     more.GetActiveStrategiesForCommunity := λ w id, (JString "strategies", None);
     more.GetListsForCommunity := λ w id, (JString "lists", None);
     more.GetListById := λ w id, (JString "list", None);
     more.GetCommunities := λ w pp, (JString "communities", 1, None);
     more.GetProposalsForCommunity := λ w id status pp, (JString "proposals", 2, None);
     more.GetDefaultCommunities := λ w pp _ _, (JString "communities", 1, None);
     more.GetUsersForCommunity := λ w id pp, (JString "users", 2, None);
     more.EnsureValidRole := λ role,
       bool_decide (role ∈ ["admin"; "author"; "member"]);
     more.GetUsersForCommunityByType := λ w id role pp, (JString "users", 1, None);
     more.GetCommunitiesForUser := λ w addr pp, (JString "communities", 1, None);
     more.processVotes := λ w addr ids pp, (JString "votes", pp, None);
     more.decode_Proposal := λ body data,
       if bool_decide (body = "") then None else Some data;
     more.Unmarshal_proposalIds := λ text,
       if bool_decide (text = "[1]") then ([1], None)
       else ([], Some "invalid character") |}.

(** A community payload with a proposal threshold, which the threshold
    check of this scenario refuses, and a pinning service that is down. *)
Definition with_threshold : models.CommunityRequestPayload :=
  {| models.PStrategies := None; models.Proposal_threshold := Some "0";
     models.Only_authors_to_submit := Some false |}.

Definition h : helpers.t world.t Voucher Sigs :=
  helpers_with
    (λ threshold only_authors,
       if bool_decide (threshold = "0") && negb only_authors
       then Some "proposal threshold must be positive" else None)
    (λ w p, ((None, Some "pinning service unavailable"), w))
    (λ body _, if bool_decide (body = "with threshold") then Some with_threshold
               else None)
    fixture.h.

End scenario.

(** ** Decimal numerals *)

(** The value of a decimal numeral read from the left onto [acc], as the
    digit loop of [strconv] computes it. *)
Fixpoint horner (d : Decimal.uint) (acc : Z) : Z :=
  match d with
  | Decimal.Nil => acc
  | Decimal.D0 d => horner d (acc * 10 + 0)
  | Decimal.D1 d => horner d (acc * 10 + 1)
  | Decimal.D2 d => horner d (acc * 10 + 2)
  | Decimal.D3 d => horner d (acc * 10 + 3)
  | Decimal.D4 d => horner d (acc * 10 + 4)
  | Decimal.D5 d => horner d (acc * 10 + 5)
  | Decimal.D6 d => horner d (acc * 10 + 6)
  | Decimal.D7 d => horner d (acc * 10 + 7)
  | Decimal.D8 d => horner d (acc * 10 + 8)
  | Decimal.D9 d => horner d (acc * 10 + 9)
  end.

(** * Properties *)

Ltac run_handler :=
  unfold serve, mbind, mret, H_bind, H_ret, bind, ret, failIncomplete,
    respondIncomplete, validatePayload, when, query, exec, read_global,
    log_Error, return_, deref, panic; cbn.

(** ** Conversions and pagination *)

Example Itoa_400 : strconv.Itoa 400 = "400".
Proof. reflexivity. Qed.

Example Atoi_plain : strconv.Atoi "42" = (42, None).
Proof. reflexivity. Qed.
Example Atoi_neg : strconv.Atoi "-7" = (-7, None).
Proof. reflexivity. Qed.
Example Atoi_junk : strconv.Atoi "12a" = (0, Some strconv.ErrSyntax).
Proof. reflexivity. Qed.
Example Atoi_huge :
  strconv.Atoi "99999999999999999999" = (MaxInt64, Some strconv.ErrRange).
Proof. vm_compute. reflexivity. Qed.
Example page_default :
  getPageParams (request_of [] [("count", "1000"); ("start", "-3")] "") 25
  = {| shared.Start := 0; shared.Count := 25; shared.Order := "desc";
       shared.TotalRecords := 0 |}.
Proof. vm_compute. reflexivity. Qed.


(** C7. The page parameters derived from a request: a count above the
    configured maximum or below 1 becomes the maximum, a negative start
    becomes 0 and a missing order becomes "desc"; the returned count lies
    between 1 and the maximum and the start is not negative. *)
Theorem getPageParams_clamped (r : Request) (defaultCount : Z) :
  1 ≤ defaultCount →
  let p := getPageParams r defaultCount in
  let s := fst (strconv.Atoi (FormValue r "start")) in
  let c := fst (strconv.Atoi (FormValue r "count")) in
  1 ≤ shared.Count p ≤ defaultCount
  ∧ 0 ≤ shared.Start p
  ∧ (c > defaultCount ∨ c < 1 → shared.Count p = defaultCount)
  ∧ (1 ≤ c ≤ defaultCount → shared.Count p = c)
  ∧ (s < 0 → shared.Start p = 0)
  ∧ (0 ≤ s → shared.Start p = s)
  ∧ (FormValue r "order" = "" → shared.Order p = "desc")
  ∧ (FormValue r "order" ≠ "" → shared.Order p = FormValue r "order").
Proof.
  intros Hmax p s c. subst p. unfold getPageParams. cbn [shared.Count shared.Start shared.Order].
  fold s c.
  destruct (Z.gtb_spec c defaultCount), (Z.ltb_spec c 1), (Z.ltb_spec s 0);
    cbn [orb]; repeat split; intros; try lia;
    try (rewrite bool_decide_eq_true_2 by assumption; reflexivity);
    try (rewrite bool_decide_eq_false_2 by assumption; reflexivity).
Qed.

Lemma getPageParams_clamped_witness :
  let p := getPageParams (request_of [] [("count", "1000"); ("start", "-3")] "") 25 in
  1 ≤ shared.Count p ≤ 25 ∧ 0 ≤ shared.Start p.
Proof.
  pose proof (getPageParams_clamped
                (request_of [] [("count", "1000"); ("start", "-3")] "") 25
                ltac:(lia)) as Hc.
  cbv zeta in Hc. destruct Hc as (Hcount & Hstart & _). split; assumption.
Defined.

(** ** Contract thresholds *)

Lemma Qltb_lt (x y : Q) : Qltb x y = true ↔ (x < y)%Q.
Proof. unfold Qltb, Qlt. apply Z.ltb_lt. Qed.

Lemma Qltb_ge (x y : Q) : Qltb x y = false ↔ (y <= x)%Q.
Proof. unfold Qltb, Qle. apply Z.ltb_ge. Qed.


Lemma validateConractThreshold_error (s : list models.Strategy_t) :
  validateConractThreshold s ≠ None ↔ ∃ st, st ∈ s ∧ sub_one st.
Proof.
  induction s as [|s0 rest IH]; cbn [validateConractThreshold].
  - split; [congruence|]. intros (st & Hin & _). by apply not_elem_of_nil in Hin.
  - destruct (models.Threshold s0) as [t|] eqn:Ht.
    + destruct (Qltb t 1) eqn:Hlt.
      * split; [|discriminate]. intros _. exists s0. split; [left|].
        exists t. split; [done|]. by apply Qltb_lt.
      * rewrite IH. split.
        -- intros (st & Hin & Hsub). exists st. split; [by right|done].
        -- intros (st & Hin & Hsub). apply elem_of_cons in Hin as [->|Hin].
           ++ destruct Hsub as (t' & Ht' & Hlt'). rewrite Ht in Ht'.
              injection Ht' as <-. apply Qltb_lt in Hlt'. congruence.
           ++ by exists st.
    + rewrite IH. split.
      * intros (st & Hin & Hsub). exists st. split; [by right|done].
      * intros (st & Hin & Hsub). apply elem_of_cons in Hin as [->|Hin].
        -- destruct Hsub as (t' & Ht' & _). congruence.
        -- by exists st.
Qed.



Section ThresholdGuard.
Context {DB Voucher Sigs : Type} (h : helpers.t DB Voucher Sigs).


Lemma validateThresholds_rejects (payload : models.CommunityRequestPayload)
    (strategies : list models.Strategy_t) (s : St DB) :
  (∀ l, helpers.validateContractThreshold h l = validateConractThreshold l) →
  models.PStrategies payload = Some strategies →
  (∃ st, st ∈ strategies ∧ sub_one st) →
  validateThresholds h payload s
  = (log_Error "Error validating contract threshold";; respondIncomplete;; return_) s.
Proof.
  intros Hv Hs Hbad. apply validateConractThreshold_error in Hbad.
  unfold validateThresholds. rewrite Hs.
  unfold mbind, H_bind, bind, failIncomplete. rewrite Hv.
  unfold is_err. rewrite bool_decide_eq_true_2 by done. reflexivity.
Qed.

Lemma createCommunity_guarded (r : Request) (a : App DB)
    (payload : models.CommunityRequestPayload) (strategies : list models.Strategy_t) :
  (∀ l, helpers.validateContractThreshold h l = validateConractThreshold l) →
  helpers.decode_Community h (Body r) CommunityRequestPayload_zero = Some payload →
  models.PStrategies payload = Some strategies →
  (∃ st, st ∈ strategies ∧ sub_one st) →
  rejected_untouched a (serve (createCommunity h r) a).
Proof.
  intros Hv Hdec Hs Hbad.
  unfold rejected_untouched, createCommunity.
  unfold serve, mbind, H_bind, bind, validatePayload. rewrite Hdec. cbn.
  rewrite (validateThresholds_rejects payload strategies) by done.
  cbn. done.
Qed.

Lemma updateCommunity_guarded (r : Request) (a : App DB)
    (payload : models.CommunityRequestPayload) (strategies : list models.Strategy_t) :
  (∀ l, helpers.validateContractThreshold h l = validateConractThreshold l) →
  helpers.decode_Community h (Body r) CommunityRequestPayload_zero = Some payload →
  models.PStrategies payload = Some strategies →
  (∃ st, st ∈ strategies ∧ sub_one st) →
  rejected_untouched a (serve (updateCommunity h r) a).
Proof.
  intros Hv Hdec Hs Hbad.
  unfold rejected_untouched, updateCommunity.
  destruct (strconv.Atoi (var_of (Vars r) "id")) as [id [e|]].
  - cbn. done.
  - unfold serve, mbind, H_bind, bind, validatePayload. cbn. rewrite Hdec. cbn.
    rewrite (validateThresholds_rejects payload strategies) by done.
    cbn. done.
Qed.
End ThresholdGuard.

(** C9. [validateConractThreshold] reports an error exactly when some
    strategy of the list carries a threshold below 1; a list whose
    thresholds are all absent or at least 1, the empty list included, is
    accepted.  With this function as the check they call, [createCommunity]
    and [updateCommunity] reject a payload holding such a strategy before
    any collaborator could store it. *)
Theorem validateConractThreshold_spec :
  (∀ s, validateConractThreshold s ≠ None
        ↔ ∃ st t, st ∈ s ∧ models.Threshold st = Some t ∧ (t < 1)%Q)
  ∧ (∀ s, (∀ st, st ∈ s →
             models.Threshold st = None
             ∨ ∃ t, models.Threshold st = Some t ∧ (1 <= t)%Q) →
          validateConractThreshold s = None)
  ∧ validateConractThreshold [] = None
  ∧ (∀ (DB Voucher Sigs : Type) (h : helpers.t DB Voucher Sigs)
       (r : Request) (a : App DB) payload strategies,
       (∀ l, helpers.validateContractThreshold h l = validateConractThreshold l) →
       helpers.decode_Community h (Body r) CommunityRequestPayload_zero = Some payload →
       models.PStrategies payload = Some strategies →
       (∃ st t, st ∈ strategies ∧ models.Threshold st = Some t ∧ (t < 1)%Q) →
       rejected_untouched a (serve (createCommunity h r) a)
       ∧ rejected_untouched a (serve (updateCommunity h r) a)).
Proof.
  split; [|split; [|split]].
  - intros s. rewrite validateConractThreshold_error. unfold sub_one. split.
    + intros (st & Hin & t & Ht & Hlt). by exists st, t.
    + intros (st & t & Hin & Ht & Hlt). exists st. split; [done|by exists t].
  - intros s Hall. destruct (validateConractThreshold s) eqn:Hv; [|done].
    assert (validateConractThreshold s ≠ None) as Hne by congruence.
    apply validateConractThreshold_error in Hne as (st & Hin & t & Ht & Hlt).
    destruct (Hall st Hin) as [Hnone|(t' & Ht' & Hle)]; [congruence|].
    rewrite Ht in Ht'. injection Ht' as <-.
    exfalso. by apply (Qlt_not_le t 1).
  - reflexivity.
  - intros DB V S h r a payload strategies Hv Hdec Hs (st & t & Hin & Ht & Hlt).
    assert (∃ st, st ∈ strategies ∧ sub_one st) as Hbad
        by (exists st; split; [done|by exists t]).
    split; [by eapply createCommunity_guarded|by eapply updateCommunity_guarded].
Qed.

Lemma validateConractThreshold_spec_witness :
  rejected_untouched fixture.app0
    (serve (createCommunity fixture.h (request_of [] [] "low threshold")) fixture.app0).
Proof.
  refine (proj1 (proj2 (proj2 (proj2 validateConractThreshold_spec))
                   world.t Voucher Sigs fixture.h
                   (request_of [] [] "low threshold") fixture.app0
                   _ fixture.low_threshold _ _ _ _)).
  - intros l. reflexivity.
  - reflexivity.
  - reflexivity.
  - exists {| models.Name := Some "balance-threshold";
              models.Threshold := Some (1 # 2)%Q |}, (1 # 2)%Q.
    split; [|split; [reflexivity|reflexivity]].
    apply list_elem_of_lookup. exists 1%nat. reflexivity.
Defined.

(** ** Reading the results of a proposal *)

Section Results.
Context {DB Voucher Sigs : Type} (h : helpers.t DB Voucher Sigs).

(** The handler is the rest of its body run on whatever the fetch
    returned, with or without an error. *)
Lemma getResultsForProposal_split (r : Request) (a : App DB) :
  serve (getResultsForProposal h r) a
  = serve (getResultsForProposal_fetched h
             (fst (helpers.fetchProposal h (app_db a) (Vars r) "proposalId"))) a.
Proof.
  unfold getResultsForProposal, serve, mbind, H_bind, bind, query. cbn.
  by destruct (helpers.fetchProposal h (app_db a) (Vars r) "proposalId").
Qed.

(** C3. A tally read on a closed proposal whose achievement step fails:
    the handler answers with [errIncompleteRequest] and, not returning,
    goes on to write the results: the status line is the error's and the
    body is the error object followed by the results. *)
Theorem getResultsForProposal_award_failure
    (proposal : models.Proposal) (a : App DB) (strategy : string)
    (votes : list models.Vote) (results : models.ProposalResults)
    (e : string) (d' : DB) :
  models.Strategy proposal = Some strategy →
  helpers.GetAllVotesForProposal h (app_db a) (models.ID proposal) strategy
    = (votes, None) →
  helpers.useStrategyTally h (app_db a) proposal votes = (results, None) →
  models.Computed_status proposal = Some "closed" →
  models.Achievements_done proposal = false →
  helpers.AddWinningVoteAchievement h (app_db a) votes results = (Some e, d') →
  let out := serve (getResultsForProposal_fetched h proposal) a in
  let err := errIncompleteRequest (app_globals a) in
  panicked out = false
  ∧ status (response out) = Some (StatusCode err)
  ∧ body (response out) = [JObject (error_fields err); JResults results]
  ∧ logged out = ["Error calculating winning votes"].
Proof.
  intros Hs Hvotes Htally Hclosed Hdone Haward.
  unfold getResultsForProposal_fetched. rewrite Hs, Hclosed, Hdone.
  run_handler. rewrite Hvotes. cbn. rewrite Htally. cbn.
  rewrite bool_decide_eq_true_2 by done. cbn. rewrite Haward.
  run_handler. done.
Qed.

(** C4. A tally read whose proposal cannot be fetched: the error of the
    fetch is dropped, the handler dereferences the strategy of the
    proposal it got and panics before anything is written.  The sibling
    [getVoteForAddress] answers the same fetch with
    [errIncompleteRequest]. *)
Theorem getResultsForProposal_missing_proposal
    (r : Request) (a : App DB) (proposal : models.Proposal) (e : string) :
  helpers.fetchProposal h (app_db a) (Vars r) "proposalId" = (proposal, Some e) →
  models.Strategy proposal = None →
  let out := serve (getResultsForProposal h r) a in
  let sibling := serve (getVoteForAddress h r) a in
  panicked out = true
  ∧ response out = ResponseWriter_new
  ∧ panicked sibling = false
  ∧ status (response sibling) = Some (StatusCode (errIncompleteRequest (app_globals a)))
  ∧ body (response sibling)
    = [JObject (error_fields (errIncompleteRequest (app_globals a)))].
Proof.
  intros Hfetch Hnil.
  unfold getResultsForProposal, getVoteForAddress, getResultsForProposal_fetched.
  run_handler. rewrite Hfetch. cbn. rewrite Hnil. cbn. done.
Qed.

End Results.

Lemma getResultsForProposal_award_failure_witness :
  let out := serve (getResultsForProposal_fetched fixture.h (fixture.proposal 1 "closed"))
               fixture.app_faulty in
  panicked out = false
  ∧ status (response out) = Some 400
  ∧ body (response out)
    = [JObject (error_fields errIncompleteRequest_init); JResults fixture.results1]
  ∧ logged out = ["Error calculating winning votes"].
Proof.
  eapply (getResultsForProposal_award_failure fixture.h
            (fixture.proposal 1 "closed") fixture.app_faulty
            "one-address-one-vote"
            [fixture.vote 1 "0xa" "yes"; fixture.vote 1 "0xb" "no"]
            fixture.results1 "achievements unavailable").
  - reflexivity.
  - vm_compute. reflexivity.
  - vm_compute. reflexivity.
  - reflexivity.
  - reflexivity.
  - vm_compute. reflexivity.
Defined.

Lemma getResultsForProposal_missing_proposal_witness :
  let r := request_of [("proposalId", "abc")] [] "" in
  panicked (serve (getResultsForProposal fixture.h r) fixture.app0) = true
  ∧ response (serve (getResultsForProposal fixture.h r) fixture.app0) = ResponseWriter_new
  ∧ panicked (serve (getVoteForAddress fixture.h r) fixture.app0) = false
  ∧ status (response (serve (getVoteForAddress fixture.h r) fixture.app0)) = Some 400
  ∧ body (response (serve (getVoteForAddress fixture.h r) fixture.app0))
    = [JObject (error_fields errIncompleteRequest_init)].
Proof.
  apply (getResultsForProposal_missing_proposal fixture.h
           (request_of [("proposalId", "abc")] [] "") fixture.app0
           models.Proposal_zero "Invalid proposalId").
  - vm_compute. reflexivity.
  - reflexivity.
Defined.

(** ** The shared error singletons *)

Section SharedErrors.
Context {DB Voucher Sigs : Type} (h : helpers.t DB Voucher Sigs).

Lemma createListForCommunity_failure (r : Request) (a : App DB)
    (communityId : Z) (lp : models_ext.ListPayload) (l : payload) (code : Z)
    (e : string) (d' : DB) :
  strconv.Atoi (var_of (Vars r) "communityId") = (communityId, None) →
  helpers.decode_List h (Body r)
    {| models_ext.LCommunity_id := communityId; models_ext.LFields := ∅ |} = Some lp →
  helpers.createListForCommunity h (app_db a) lp = ((l, code, Some e), d') →
  let out := serve (createListForCommunity h r) a in
  errIncompleteRequest (app_globals (app_after out))
    = with_StatusCode (errIncompleteRequest (app_globals a)) code
  ∧ errCreateCommunity (app_globals (app_after out)) = errCreateCommunity (app_globals a)
  ∧ status (response out) = Some code.
Proof.
  intros Hid Hdec Hfail. unfold createListForCommunity. rewrite Hid.
  run_handler. rewrite Hdec. cbn. rewrite Hfail. cbn. done.
Qed.

(** X13. A failed [addAddressesToList] stores the status its helper
    reported in [errIncompleteRequest] and answers with
    [errCreateCommunity]: the client is sent the status and the body of the
    latter, not the status that was reported. *)
Lemma addAddressesToList_failure (r : Request) (a : App DB)
    (id : Z) (up : models_ext.ListUpdatePayload) (code : Z) (e : string) (d' : DB) :
  strconv.Atoi (var_of (Vars r) "id") = (id, None) →
  helpers.decode_ListUpdate h (Body r) {| models_ext.AFields := ∅ |} = Some up →
  helpers.updateAddressesInList h (app_db a) id up "add" = ((code, Some e), d') →
  let out := serve (addAddressesToList h r) a in
  errIncompleteRequest (app_globals (app_after out))
    = with_StatusCode (errIncompleteRequest (app_globals a)) code
  ∧ status (response out) = Some (StatusCode (errCreateCommunity (app_globals a)))
  ∧ body (response out) = [JObject (error_fields (errCreateCommunity (app_globals a)))].
Proof.
  intros Hid Hdec Hfail. unfold addAddressesToList. rewrite Hid.
  run_handler. rewrite Hdec. cbn. rewrite Hfail. cbn. done.
Qed.

(** X14. A failed [removeAddressesFromList] stores the status its helper
    reported in [errIncompleteRequest] and answers with that status. *)
Lemma removeAddressesFromList_failure (r : Request) (a : App DB)
    (id : Z) (up : models_ext.ListUpdatePayload) (code : Z) (e : string) (d' : DB) :
  strconv.Atoi (var_of (Vars r) "id") = (id, None) →
  helpers.decode_ListUpdate h (Body r) {| models_ext.AFields := ∅ |} = Some up →
  helpers.updateAddressesInList h (app_db a) id up "remove" = ((code, Some e), d') →
  let out := serve (removeAddressesFromList h r) a in
  errIncompleteRequest (app_globals (app_after out))
    = with_StatusCode (errIncompleteRequest (app_globals a)) code
  ∧ status (response out) = Some code.
Proof.
  intros Hid Hdec Hfail. unfold removeAddressesFromList. rewrite Hid.
  run_handler. rewrite Hdec. cbn. rewrite Hfail. cbn. done.
Qed.

(** X15. A failed [createCommunityUser] stores the status its helper
    reported in [errCreateCommunity], the variable [addAddressesToList]
    answers with, and answers with that status. *)
Lemma createCommunityUser_failure (r : Request) (a : App DB)
    (communityId : Z) (up : models_ext.CommunityUserPayload) (code : Z)
    (e : string) (d' : DB) :
  strconv.Atoi (var_of (Vars r) "communityId") = (communityId, None) →
  helpers.decode_CommunityUser h (Body r)
    {| models_ext.UCommunity_id := communityId; models_ext.UAddr := "";
       models_ext.User_type := ""; models_ext.UFields := ∅ |} = Some up →
  helpers.createCommunityUser h (app_db a) up = ((code, Some e), d') →
  let out := serve (createCommunityUser h r) a in
  errCreateCommunity (app_globals (app_after out))
    = with_StatusCode (errCreateCommunity (app_globals a)) code
  ∧ status (response out) = Some code.
Proof.
  intros Hid Hdec Hfail. unfold createCommunityUser. rewrite Hid.
  run_handler. rewrite Hdec. cbn. rewrite Hfail. cbn. done.
Qed.

(** A request for a community under an id that is not a number is
    answered with whatever [errIncompleteRequest] holds at that time. *)
Lemma getCommunity_invalid_id (r : Request) (a : App DB) (id : Z) (e : string) :
  strconv.Atoi (var_of (Vars r) "id") = (id, Some e) →
  let out := serve (getCommunity h r) a in
  status (response out) = Some (StatusCode (errIncompleteRequest (app_globals a)))
  ∧ app_after out = a.
Proof.
  intros Hid. unfold getCommunity. rewrite Hid. run_handler.
  destruct a; done.
Qed.

(** C10. The status of an error response depends on earlier requests: a
    failing [createListForCommunity] stores the status its helper
    reported in the package-level [errIncompleteRequest], and a later
    request that has nothing to do with lists and fails with
    [errIncompleteRequest] is answered with that status, while the same
    request against the same stored data was answered with the
    previous one. *)
Theorem error_status_depends_on_history (r1 r2 : Request) (a : App DB)
    (communityId : Z) (lp : models_ext.ListPayload) (l : payload) (code : Z)
    (e : string) (id : Z) (e2 : string) :
  strconv.Atoi (var_of (Vars r1) "communityId") = (communityId, None) →
  helpers.decode_List h (Body r1)
    {| models_ext.LCommunity_id := communityId; models_ext.LFields := ∅ |} = Some lp →
  helpers.createListForCommunity h (app_db a) lp = ((l, code, Some e), app_db a) →
  strconv.Atoi (var_of (Vars r2) "id") = (id, Some e2) →
  let a1 := app_after (serve (createListForCommunity h r1) a) in
  app_db a1 = app_db a
  ∧ status (response (serve (getCommunity h r2) a))
    = Some (StatusCode (errIncompleteRequest (app_globals a)))
  ∧ status (response (serve (getCommunity h r2) a1)) = Some code.
Proof.
  intros Hid Hdec Hfail Hid2 a1.
  destruct (createListForCommunity_failure r1 a _ _ _ _ _ _ Hid Hdec Hfail)
    as (Hglobal & _ & _).
  destruct (getCommunity_invalid_id r2 a _ _ Hid2) as (Hbefore & _).
  destruct (getCommunity_invalid_id r2 a1 _ _ Hid2) as (Hafter & _).
  split; [|split].
  - subst a1. unfold createListForCommunity. rewrite Hid.
    run_handler. rewrite Hdec. cbn. rewrite Hfail. cbn. done.
  - exact Hbefore.
  - rewrite Hafter. subst a1. rewrite Hglobal. reflexivity.
Qed.

End SharedErrors.

Lemma error_status_depends_on_history_witness :
  let r1 := request_of [("communityId", "1")] [] "0xstranger" in
  let r2 := request_of [("id", "abc")] [] "" in
  let a1 := app_after (serve (createListForCommunity fixture.h r1) fixture.app0) in
  app_db a1 = app_db fixture.app0
  ∧ status (response (serve (getCommunity fixture.h r2) fixture.app0)) = Some 400
  ∧ status (response (serve (getCommunity fixture.h r2) a1)) = Some 403.
Proof.
  eapply (error_status_depends_on_history fixture.h
            (request_of [("communityId", "1")] [] "0xstranger")
            (request_of [("id", "abc")] [] "") fixture.app0
            1 _ (JString "") 403 "user is not an admin" 0 strconv.ErrSyntax).
  - vm_compute. reflexivity.
  - vm_compute. reflexivity.
  - vm_compute. reflexivity.
  - vm_compute. reflexivity.
Defined.

(** ** Updating a proposal *)

Section UpdateProposal.
Context {DB Voucher Sigs : Type} (h : helpers.t DB Voucher Sigs).


Lemma updateProposal_other_status (r : Request) (a : App DB) :
  (∀ payload,
     helpers.decode_UpdateProposal h (Body r) UpdateProposalRequestPayload_zero
       = Some payload →
     models.UStatus payload ≠ "cancelled") →
  rejected_untouched a (serve (updateProposal h r) a).
Proof.
  intros Hother. unfold rejected_untouched, updateProposal. run_handler.
  destruct (helpers.fetchProposal h (app_db a) (Vars r) "id") as [p [e|]]; cbn;
    [done|].
  destruct (helpers.decode_UpdateProposal h (Body r) UpdateProposalRequestPayload_zero)
    as [payload|] eqn:Hdec; cbn; [|done].
  rewrite bool_decide_eq_true_2 by (by apply Hother). cbn. done.
Qed.

Lemma updateProposal_forbidden (r : Request) (a : App DB) (p : models.Proposal)
    (payload : models.UpdateProposalRequestPayload Voucher Sigs) (e : string) :
  helpers.fetchProposal h (app_db a) (Vars r) "id" = (p, None) →
  helpers.decode_UpdateProposal h (Body r) UpdateProposalRequestPayload_zero
    = Some payload →
  models.UStatus payload = "cancelled" →
  authorization h (app_db a) p payload = Some e →
  forbidden_untouched a (serve (updateProposal h r) a).
Proof.
  intros Hfetch Hdec Hstatus Hauth.
  unfold forbidden_untouched, updateProposal. run_handler.
  rewrite Hfetch. cbn. rewrite Hdec. cbn.
  rewrite bool_decide_eq_false_2 by (intros Hne; by apply Hne). cbn.
  unfold authorization in Hauth.
  destruct (models.UVoucher payload) as [voucher|]; cbn; rewrite Hauth; cbn;
    destruct a; done.
Qed.

Lemma updateProposal_cancel (r : Request) (a : App DB) (p p' : models.Proposal)
    (payload : models.UpdateProposalRequestPayload Voucher Sigs)
    (cid : option string) (d1 d2 : DB) :
  helpers.fetchProposal h (app_db a) (Vars r) "id" = (p, None) →
  helpers.decode_UpdateProposal h (Body r) UpdateProposalRequestPayload_zero
    = Some payload →
  models.UStatus payload = "cancelled" →
  authorization h (app_db a) p payload = None →
  helpers.pinJSONToIpfs h (app_db a) (with_Status p (Some "cancelled"))
    = ((cid, None), d1) →
  helpers.UpdateProposal h d1 (with_Cid (with_Status p (Some "cancelled")) cid)
    = ((p', None), d2) →
  let out := serve (updateProposal h r) a in
  panicked out = false
  ∧ status (response out) = Some http.StatusOK
  ∧ body (response out) = [JProposal p']
  ∧ app_db (app_after out) = d2.
Proof.
  intros Hfetch Hdec Hstatus Hauth Hpin Hupdate.
  unfold updateProposal. run_handler.
  rewrite Hfetch. cbn. rewrite Hdec. cbn.
  rewrite bool_decide_eq_false_2 by (intros Hne; by apply Hne). cbn.
  unfold authorization in Hauth.
  destruct (models.UVoucher payload) as [voucher|]; cbn; rewrite Hauth; cbn;
    rewrite Hstatus, Hpin; cbn; rewrite Hupdate; cbn; done.
Qed.

End UpdateProposal.

(** C5, the claim as stated, fails: proposal 1 of the fixture has expired
    (its computed status is "closed"), and its author's request to cancel
    it is answered 200 and stores the status "cancelled". *)
Lemma status_monotonic_counterexample : ¬ status_monotonic fixture.h.
Proof.
  intros Hmono.
  destruct (Hmono (request_of [("id", "1")] [] "cancel") fixture.app0
              (fixture.proposal 1 "closed")) as [Hrejected _].
  - vm_compute. reflexivity.
  - right. right. right. reflexivity.
  - apply Hrejected. vm_compute. reflexivity.
Qed.

(** C5, as amended. [updateProposal] accepts no requested status but
    "cancelled": any other is rejected with [errIncompleteRequest] and
    nothing is stored.  It does not look at the status the proposal has: an
    authorized request for "cancelled" whose pin and store succeed is
    answered 200 with the proposal as stored, status "cancelled", whatever
    the stored and computed status were. *)
Theorem updateProposal_transitions {DB Voucher Sigs : Type}
    (h : helpers.t DB Voucher Sigs) (r : Request) (a : App DB) :
  ((∀ payload,
      helpers.decode_UpdateProposal h (Body r) UpdateProposalRequestPayload_zero
        = Some payload →
      models.UStatus payload ≠ "cancelled") →
   rejected_untouched a (serve (updateProposal h r) a))
  ∧ (∀ (p p' : models.Proposal) payload (cid : option string) (d1 d2 : DB),
       helpers.fetchProposal h (app_db a) (Vars r) "id" = (p, None) →
       helpers.decode_UpdateProposal h (Body r) UpdateProposalRequestPayload_zero
         = Some payload →
       models.UStatus payload = "cancelled" →
       authorization h (app_db a) p payload = None →
       helpers.pinJSONToIpfs h (app_db a) (with_Status p (Some "cancelled"))
         = ((cid, None), d1) →
       helpers.UpdateProposal h d1 (with_Cid (with_Status p (Some "cancelled")) cid)
         = ((p', None), d2) →
       let out := serve (updateProposal h r) a in
       panicked out = false
       ∧ status (response out) = Some http.StatusOK
       ∧ body (response out) = [JProposal p']
       ∧ app_db (app_after out) = d2).
Proof.
  split.
  - apply updateProposal_other_status.
  - intros p p' payload cid d1 d2. apply updateProposal_cancel.
Qed.

Lemma updateProposal_transitions_witness :
  rejected_untouched fixture.app0
    (serve (updateProposal fixture.h (request_of [("id", "1")] [] "publish"))
       fixture.app0)
  ∧ status (response
              (serve (updateProposal fixture.h (request_of [("id", "1")] [] "cancel"))
                 fixture.app0)) = Some 200.
Proof.
  split.
  - apply (proj1 (updateProposal_transitions fixture.h
                    (request_of [("id", "1")] [] "publish") fixture.app0)).
    intros payload Hdec. vm_compute in Hdec. injection Hdec as <-.
    vm_compute. discriminate.
  - eapply (proj2 (updateProposal_transitions fixture.h
                     (request_of [("id", "1")] [] "cancel") fixture.app0)
              (fixture.proposal 1 "closed") _ (fixture.cancel "0xauthor" None)).
    + vm_compute. reflexivity.
    + vm_compute. reflexivity.
    + reflexivity.
    + vm_compute. reflexivity.
    + vm_compute. reflexivity.
    + vm_compute. reflexivity.
Defined.

(** C6. A request to update a proposal that reaches the role check and
    fails it is answered [errForbidden] and changes nothing, on the voucher
    path as on the composite-signature path: the response is the same
    [errForbidden] whichever helper reported the failure and whatever its
    reason. *)
Theorem updateProposal_unauthorized {DB Voucher Sigs : Type}
    (h : helpers.t DB Voucher Sigs) (r : Request) (a : App DB)
    (p : models.Proposal)
    (payload : models.UpdateProposalRequestPayload Voucher Sigs) :
  helpers.fetchProposal h (app_db a) (Vars r) "id" = (p, None) →
  helpers.decode_UpdateProposal h (Body r) UpdateProposalRequestPayload_zero
    = Some payload →
  models.UStatus payload = "cancelled" →
  (∀ voucher e,
     models.UVoucher payload = Some voucher →
     helpers.validateUserWithRoleViaVoucher h (app_db a)
       (models.Signing_addr payload) voucher (models.Community_id p) "author"
       = Some e →
     forbidden_untouched a (serve (updateProposal h r) a))
  ∧ (∀ e,
       models.UVoucher payload = None →
       helpers.validateUserWithRole h (app_db a) (models.Signing_addr payload)
         (models.Timestamp payload) (models.Composite_signatures payload)
         (models.Community_id p) "author" = Some e →
       forbidden_untouched a (serve (updateProposal h r) a)).
Proof.
  intros Hfetch Hdec Hstatus. split.
  - intros voucher e Hv Hfail.
    apply (updateProposal_forbidden h r a p payload e); try done.
    unfold authorization. by rewrite Hv.
  - intros e Hv Hfail.
    apply (updateProposal_forbidden h r a p payload e); try done.
    unfold authorization. by rewrite Hv.
Qed.

Lemma updateProposal_unauthorized_witness :
  forbidden_untouched fixture.app0
    (serve (updateProposal fixture.h (request_of [("id", "2")] [] "cancel by voucher"))
       fixture.app0)
  ∧ forbidden_untouched fixture.app0
      (serve (updateProposal fixture.h (request_of [("id", "2")] [] "cancel as stranger"))
         fixture.app0).
Proof.
  split.
  - refine (proj1 (updateProposal_unauthorized fixture.h
                     (request_of [("id", "2")] [] "cancel by voucher") fixture.app0
                     (fixture.proposal 2 "published")
                     (fixture.cancel "0xauthor" (Some fixture.delegate)) _ _ _)
              fixture.delegate "forbidden" _ _);
      vm_compute; reflexivity.
  - refine (proj2 (updateProposal_unauthorized fixture.h
                     (request_of [("id", "2")] [] "cancel as stranger") fixture.app0
                     (fixture.proposal 2 "published")
                     (fixture.cancel "0xstranger" None) _ _ _)
              "forbidden" _ _);
      vm_compute; reflexivity.
Defined.

(** ** The tally *)

Section TallyProps.
Variable computeWeight : string → string → models.Proposal → result Z.

Lemma add_weight_comm (c1 c2 : string) (w1 w2 : Z) (m : gmap string Z) :
  add_weight c1 w1 (add_weight c2 w2 m) = add_weight c2 w2 (add_weight c1 w1 m).
Proof.
  unfold add_weight. apply map_eq. intros k.
  destruct (decide (c1 = c2)) as [->|Hne].
  - rewrite !lookup_insert_eq. cbn.
    destruct (decide (k = c2)) as [->|Hk].
    + rewrite !lookup_insert_eq. f_equal. lia.
    + by rewrite !lookup_insert_ne.
  - rewrite (lookup_insert_ne _ c2 c1) by done.
    rewrite (lookup_insert_ne _ c1 c2) by done.
    destruct (decide (k = c1)) as [->|Hk1].
    + rewrite lookup_insert_eq, lookup_insert_ne, lookup_insert_eq by done. done.
    + destruct (decide (k = c2)) as [->|Hk2].
      * rewrite lookup_insert_ne, !lookup_insert_eq by done. done.
      * by rewrite !lookup_insert_ne.
Qed.

Lemma total_weight_add (c : string) (w : Z) (m : gmap string Z) :
  total_weight (add_weight c w m) = total_weight m + w.
Proof.
  unfold total_weight, add_weight.
  assert (∀ z1 z2 y : Z, z1 + (z2 + y) = z2 + (z1 + y)) as Hcomm
      by (intros; lia).
  destruct (m !! c) as [x|] eqn:Hc; cbn.
  - rewrite (map_fold_delete_L _ _ c (x + w) (<[c := x + w]> m));
      [|intros; apply Hcomm|by rewrite lookup_insert_eq].
    rewrite delete_insert_eq.
    rewrite (map_fold_delete_L _ _ c x m); [|intros; apply Hcomm|done].
    lia.
  - rewrite map_fold_insert_L; [|intros; apply Hcomm|done]. lia.
Qed.

Lemma tally_votes_perm (p : models.Proposal) (votes votes' : list models.Vote) :
  votes ≡ₚ votes' →
  ∀ acc m, tally_votes computeWeight p votes acc = Ok m →
           tally_votes computeWeight p votes' acc = Ok m.
Proof.
  induction 1 as [|v l l' Hperm IH|v1 v2 l|l1 l2 l3 H12 IH12 H23 IH23];
    intros acc m; cbn [tally_votes].
  - done.
  - destruct (computeWeight _ (models.Addr v) p); [apply IH|done].
  - destruct (computeWeight _ (models.Addr v1) p) as [w1|]; [|by destruct (computeWeight _ _ p)].
    destruct (computeWeight _ (models.Addr v2) p) as [w2|]; [|done].
    by rewrite add_weight_comm.
  - intros Hm. by apply IH23, IH12.
Qed.

Lemma sum_weights_perm (p : models.Proposal) (l l' : list string) :
  l ≡ₚ l' →
  ∀ t, sum_weights computeWeight p l = Ok t → sum_weights computeWeight p l' = Ok t.
Proof.
  induction 1 as [|a l l' Hperm IH|a b l|l1 l2 l3 H12 IH12 H23 IH23];
    intros t; cbn [sum_weights].
  - done.
  - destruct (computeWeight _ a p) as [w|]; [|done].
    destruct (sum_weights computeWeight p l) as [t0|] eqn:Hl; [|done].
    intros Ht. by rewrite (IH t0 eq_refl).
  - destruct (computeWeight _ a p) as [wa|], (computeWeight _ b p) as [wb|];
      try done.
    destruct (sum_weights computeWeight p l) as [t0|]; [|done].
    intros [= <-]. f_equal. lia.
  - intros Ht. by apply IH23, IH12.
Qed.

Lemma tally_votes_total (p : models.Proposal) (votes : list models.Vote) :
  ∀ acc m, tally_votes computeWeight p votes acc = Ok m →
    ∃ t, sum_weights computeWeight p (models.Addr <$> votes) = Ok t
         ∧ total_weight m = total_weight acc + t.
Proof.
  induction votes as [|v rest IH]; intros acc m; cbn [tally_votes sum_weights fmap list_fmap].
  - intros [= <-]. exists 0. split; [done|lia].
  - destruct (computeWeight _ (models.Addr v) p) as [w|]; [|done].
    intros Hm. destruct (IH _ _ Hm) as (t & Ht & Htotal).
    exists (w + t). rewrite Ht. split; [done|].
    rewrite Htotal, total_weight_add. lia.
Qed.

(** C8. The tally does not depend on the order in which the votes are
    listed: the votes of a proposal in any other order tally to the same
    mapping; and, the votes being of distinct voters, the weights of the
    mapping add up to the sum of [computeWeight] over the voters. *)
Theorem tally_order_independent (p : models.Proposal)
    (votes votes' : list models.Vote) (m : gmap string Z) :
  (votes ≡ₚ votes' →
   (tally computeWeight p votes = Ok m ↔ tally computeWeight p votes' = Ok m))
  ∧ (NoDup (models.Addr <$> votes) →
     tally computeWeight p votes = Ok m →
     sum_weights computeWeight p (elements (voters votes)) = Ok (total_weight m)).
Proof.
  split.
  - intros Hperm. unfold tally. split; apply tally_votes_perm; [done|by symmetry].
  - intros Hnodup Hm. unfold tally in Hm.
    destruct (tally_votes_total p votes ∅ m Hm) as (t & Ht & Htotal).
    unfold total_weight in Htotal at 2. rewrite map_fold_empty in Htotal.
    rewrite Htotal, Z.add_0_l.
    apply (sum_weights_perm p (models.Addr <$> votes)); [|done].
    symmetry. unfold voters. by apply elements_list_to_set.
Qed.

End TallyProps.

Lemma tally_order_independent_witness :
  let votes := [fixture.vote 1 "0xa" "yes"; fixture.vote 1 "0xb" "no"] in
  let votes' := [fixture.vote 1 "0xb" "no"; fixture.vote 1 "0xa" "yes"] in
  let m : gmap string Z := {[ "yes" := 1; "no" := 1 ]} in
  tally (reference.computeWeight fixture.w0) (fixture.proposal 1 "closed") votes' = Ok m
  ∧ sum_weights (reference.computeWeight fixture.w0) (fixture.proposal 1 "closed")
      (elements (voters votes)) = Ok (total_weight m).
Proof.
  cbv zeta.
  pose proof (tally_order_independent (reference.computeWeight fixture.w0)
                (fixture.proposal 1 "closed")
                [fixture.vote 1 "0xa" "yes"; fixture.vote 1 "0xb" "no"]
                [fixture.vote 1 "0xb" "no"; fixture.vote 1 "0xa" "yes"]
                {[ "yes" := 1; "no" := 1 ]}) as [Hperm Hsum].
  split.
  - apply Hperm; [apply perm_swap|vm_compute; reflexivity].
  - apply Hsum; [|vm_compute; reflexivity].
    apply NoDup_cons. split; [|apply NoDup_singleton].
    intros Hin. apply list_elem_of_singleton in Hin. discriminate Hin.
Defined.

(** ** The vote ledger *)

Section LedgerProps.
Context {AuthProof : Type}.
Variable computeWeight : string → string → models.Proposal → result Z.
Variable active : models.Proposal → bool.
Variable verify : string → AuthProof → option fail.

Local Abbreviation precheck := (precheck computeWeight active verify).
Local Abbreviation castVote := (castVote computeWeight active verify).
Local Abbreviation cast_step := (cast_step computeWeight active verify).
Local Abbreviation run_casts := (run_casts computeWeight active verify).

Lemma has_voted_true (ledger : list models.Vote) (pid : Z) (addr : string) :
  has_voted ledger pid addr = true ↔ (1 ≤ length (votes_of ledger pid addr))%nat.
Proof.
  unfold has_voted. rewrite bool_decide_eq_true.
  destruct (votes_of ledger pid addr); cbn; split; try done; lia.
Qed.

Lemma has_voted_false (ledger : list models.Vote) (pid : Z) (addr : string) :
  has_voted ledger pid addr = false ↔ votes_of ledger pid addr = [].
Proof.
  unfold has_voted. rewrite bool_decide_eq_false. split.
  - intros Hnn. by destruct (votes_of ledger pid addr); [|exfalso; apply Hnn].
  - intros ->. by intros Hnn.
Qed.

Lemma votes_of_snoc (ledger : list models.Vote) (v : models.Vote) :
  votes_of (ledger ++ [v]) (models.Proposal_id v) (models.Addr v)
  = votes_of ledger (models.Proposal_id v) (models.Addr v) ++ [v].
Proof.
  unfold votes_of. rewrite filter_app. f_equal.
  rewrite filter_cons_True by done. done.
Qed.

Lemma insert_vote_fresh (ledger : list models.Vote) (v : models.Vote) :
  votes_of ledger (models.Proposal_id v) (models.Addr v) = [] →
  insert_vote ledger v = (Ok v, ledger ++ [v]).
Proof. intros Hnone. unfold insert_vote. by rewrite (proj2 (has_voted_false _ _ _)). Qed.

Lemma insert_vote_duplicate (ledger : list models.Vote) (v : models.Vote) :
  (1 ≤ length (votes_of ledger (models.Proposal_id v) (models.Addr v)))%nat →
  insert_vote ledger v = (Fail AlreadyVoted, ledger).
Proof. intros Hsome. unfold insert_vote. by rewrite (proj2 (has_voted_true _ _ _)). Qed.

(** A successful cast stores exactly the vote it returns; from then on no
    cast by the same address on the proposal succeeds or changes the
    ledger, and one that passes the checks fails with [AlreadyVoted]. *)
Lemma castVote_once (ledger ledger' : list models.Vote) (p : models.Proposal)
    (req : CastRequest AuthProof) (v : models.Vote) :
  castVote ledger p req = (Ok v, ledger') →
  votes_of ledger' (models.ID p) (cast_addr req) = [v]
  ∧ ledger' = ledger ++ [v]
  ∧ ∀ req', cast_addr req' = cast_addr req →
      ∃ e, castVote ledger' p req' = (Fail e, ledger')
           ∧ (∀ w, precheck p req' = Ok w → e = AlreadyVoted).
Proof.
  unfold castVote.
  destruct (precheck p req) as [w|e] eqn:Hpre; [|done].
  unfold insert_vote.
  destruct (has_voted ledger _ _) eqn:Hv; [done|].
  intros [= <- <-]. apply has_voted_false in Hv.
  pose proof (votes_of_snoc ledger (vote_of p req w)) as Hsnoc.
  rewrite Hv in Hsnoc. cbn in Hsnoc, Hv.
  split; [done|]. split; [done|].
  intros req' Haddr.
  destruct (precheck p req') as [w'|e'] eqn:Hpre'.
  - exists AlreadyVoted. split; [|done].
    apply insert_vote_duplicate. cbn. rewrite Haddr, Hsnoc. cbn. lia.
  - exists e'. split; [done|]. intros w'. done.
Qed.

(** *** Interleavings *)

Lemma count_insert (f : caster → bool) (cs : list caster) (i : nat) (c c' : caster) :
  cs !! i = Some c →
  (count f (<[i := c']> cs) + (if f c then 1 else 0)
   = count f cs + (if f c' then 1 else 0))%nat.
Proof.
  unfold count. revert i. induction cs as [|c0 cs IH]; intros [|i] Hi; try done.
  - injection Hi as ->. cbn. destruct (f c), (f c'); lia.
  - cbn in Hi. specialize (IH i Hi).
    change (<[S i := c']> (c0 :: cs)) with (c0 :: <[i := c']> cs).
    cbn [sum_list_with]. revert IH.
    destruct (f c0), (f c), (f c'); lia.
Qed.

Lemma count_le_length (f : caster → bool) (cs : list caster) :
  (count f cs ≤ length cs)%nat.
Proof. unfold count. induction cs as [|c cs IH]; cbn; [lia|destruct (f c); lia]. Qed.

Lemma count_all (f : caster → bool) (cs : list caster) :
  (∀ i c, cs !! i = Some c → f c = true) → count f cs = length cs.
Proof.
  unfold count. induction cs as [|c cs IH]; intros Hall; [done|].
  cbn. rewrite (Hall 0%nat c eq_refl). rewrite IH; [done|].
  intros i c' Hi. by apply (Hall (S i)).
Qed.

Lemma cast_step_phase (p : models.Proposal) (req : CastRequest AuthProof)
    (st : Pool) (i j : nat) (c : caster) :
  casters st !! j = Some c →
  ∃ c', casters (cast_step p req st i) !! j = Some c'
        ∧ (if decide (i = j) then (Nat.min 2 (phase c + 1) ≤ phase c')%nat
           else c' = c).
Proof.
  intros Hj. unfold cast_step.
  destruct (decide (i = j)) as [->|Hne].
  - rewrite Hj. destruct c as [|w|r].
    + eexists. cbn. rewrite list_lookup_insert_eq by (by eapply lookup_lt_Some).
      split; [done|]. destruct (precheck p req); cbn; lia.
    + destruct (insert_vote _ _) as [r l]. eexists. cbn.
      rewrite list_lookup_insert_eq by (by eapply lookup_lt_Some).
      split; [done|]. cbn. lia.
    + exists (Finished r). split; [done|]. cbn. lia.
  - destruct (casters st !! i) as [[|w|r]|] eqn:Hi.
    + exists c. cbn. by rewrite list_lookup_insert_ne.
    + destruct (insert_vote _ _) as [r l]. exists c. cbn.
      by rewrite list_lookup_insert_ne.
    + by exists c.
    + by exists c.
Qed.

Lemma run_casts_phase (p : models.Proposal) (req : CastRequest AuthProof)
    (schedule : list nat) (j : nat) :
  ∀ (st : Pool) (c : caster),
    casters st !! j = Some c →
    ∃ c', casters (run_casts p req schedule st) !! j = Some c'
          ∧ (Nat.min 2 (phase c + length (filter (λ k, k = j) schedule)) ≤ phase c')%nat.
Proof.
  induction schedule as [|i rest IH]; intros st c Hj.
  - exists c. split; [done|]. cbn. destruct c; cbn; lia.
  - destruct (cast_step_phase p req st i j c Hj) as (c1 & Hc1 & Hphase).
    destruct (IH _ _ Hc1) as (c' & Hc' & Hrest).
    exists c'. split; [done|].
    destruct (decide (i = j)) as [->|Hne].
    + rewrite filter_cons_True by done. cbn [length]. lia.
    + subst c1. rewrite filter_cons_False by done. done.
Qed.

Lemma run_casts_length (p : models.Proposal) (req : CastRequest AuthProof)
    (schedule : list nat) :
  ∀ st, length (casters (run_casts p req schedule st)) = length (casters st).
Proof.
  induction schedule as [|i rest IH]; intros st; [done|].
  change (run_casts p req (i :: rest) st)
    with (run_casts p req rest (cast_step p req st i)).
  rewrite IH. unfold cast_step.
  destruct (casters st !! i) as [[|w|r]|]; try done.
  - cbn. by rewrite length_insert.
  - destruct (insert_vote _ _). cbn. by rewrite length_insert.
Qed.

Lemma count_replicate_pending (f : caster → bool) (n : nat) :
  f Pending = false → count f (replicate n Pending) = 0%nat.
Proof.
  intros Hf. unfold count. induction n as [|n IH]; [done|].
  cbn. by rewrite Hf, IH.
Qed.

Lemma cast_step_inv (p : models.Proposal) (req : CastRequest AuthProof) (w : Z)
    (st : Pool) (i : nat) :
  precheck p req = Ok w →
  pool_inv (models.ID p) (cast_addr req) st →
  pool_inv (models.ID p) (cast_addr req) (cast_step p req st i).
Proof.
  intros Hpre (Hk & Hfin & Hone & Hle). unfold cast_step.
  destruct (casters st !! i) as [[|w'|r]|] eqn:Hi; [| |done|done].
  - rewrite Hpre.
    pose proof (count_insert is_success _ i _ (Checked w) Hi) as Hs.
    pose proof (count_insert is_duplicate _ i _ (Checked w) Hi) as Hd.
    pose proof (count_insert is_finished _ i _ (Checked w) Hi) as Hf.
    cbn [is_success is_duplicate is_finished] in Hs, Hd, Hf.
    unfold pool_inv. cbn [pool_ledger casters]. cbv zeta.
    repeat split; lia.
  - pose proof (votes_of_snoc (pool_ledger st) (vote_of p req w')) as Hsnoc.
    cbn in Hsnoc.
    destruct (votes_of (pool_ledger st) (models.ID p) (cast_addr req))
      as [|v0 vs] eqn:Hvotes.
    + rewrite insert_vote_fresh by done.
      pose proof (count_insert is_success _ i _
                    (Finished (Ok (vote_of p req w'))) Hi) as Hs.
      pose proof (count_insert is_duplicate _ i _
                    (Finished (Ok (vote_of p req w'))) Hi) as Hd.
      pose proof (count_insert is_finished _ i _
                    (Finished (Ok (vote_of p req w'))) Hi) as Hf.
      cbn [is_success is_duplicate is_finished] in Hs, Hd, Hf.
      cbn [length] in Hk, Hone, Hle.
      unfold pool_inv. cbn [pool_ledger casters]. cbv zeta.
      rewrite Hsnoc. cbn [length app]. repeat split; lia.
    + rewrite insert_vote_duplicate by (cbn; rewrite Hvotes; cbn; lia).
      pose proof (count_insert is_success _ i _
                    (Finished (Fail AlreadyVoted)) Hi) as Hs.
      pose proof (count_insert is_duplicate _ i _
                    (Finished (Fail AlreadyVoted)) Hi) as Hd.
      pose proof (count_insert is_finished _ i _
                    (Finished (Fail AlreadyVoted)) Hi) as Hf.
      cbn [is_success is_duplicate is_finished] in Hs, Hd, Hf.
      cbn [length] in Hk, Hone, Hle.
      unfold pool_inv. cbn [pool_ledger casters]. cbv zeta.
      rewrite Hvotes. cbn [length]. repeat split; lia.
Qed.

Lemma run_casts_inv (p : models.Proposal) (req : CastRequest AuthProof) (w : Z)
    (schedule : list nat) :
  precheck p req = Ok w →
  ∀ st, pool_inv (models.ID p) (cast_addr req) st →
        pool_inv (models.ID p) (cast_addr req) (run_casts p req schedule st).
Proof.
  intros Hpre. induction schedule as [|i rest IH]; intros st Hinv; [done|].
  apply IH. by apply (cast_step_inv p req w).
Qed.

Lemma pool_init_inv (ledger : list models.Vote) (n : nat) (pid : Z) (addr : string) :
  votes_of ledger pid addr = [] → pool_inv pid addr (pool_init ledger n).
Proof.
  intros Hnone. unfold pool_inv, pool_init. cbn [pool_ledger casters]. cbv zeta.
  rewrite Hnone, !count_replicate_pending by done. cbn [length].
  repeat split; lia.
Qed.

Lemma run_casts_complete (p : models.Proposal) (req : CastRequest AuthProof)
    (ledger : list models.Vote) (n : nat) (schedule : list nat) :
  completes n schedule →
  count is_finished (casters (run_casts p req schedule (pool_init ledger n))) = n.
Proof.
  intros Hall.
  rewrite count_all.
  - rewrite run_casts_length. cbn. apply length_replicate.
  - intros j c Hj.
    assert (j < n)%nat as Hlt.
    { apply lookup_lt_Some in Hj. rewrite run_casts_length in Hj.
      cbn in Hj. by rewrite length_replicate in Hj. }
    destruct (run_casts_phase p req schedule j (pool_init ledger n) Pending)
      as (c' & Hc' & Hphase).
    { cbn. by apply lookup_replicate_2. }
    rewrite Hj in Hc'. injection Hc' as <-.
    specialize (Hall j Hlt). cbn [phase] in Hphase.
    destruct c; cbn [phase is_finished] in Hphase |- *; [lia|lia|done].
Qed.

(** C1. At most one vote per address and proposal.  A successful cast
    stores the one vote it returns; a further cast by the same address on
    the proposal never succeeds and leaves the ledger as it is, failing
    with [AlreadyVoted] whenever it passes the checks that come before the
    insert, as a repetition of the same request does.  When [n] workers
    cast the same request concurrently on a ledger without a vote for the
    pair, no interleaving stores a second vote, and once every worker has
    run both of its steps exactly one has succeeded and the [n - 1] others
    have failed with [AlreadyVoted]. *)
Theorem cast_at_most_once (ledger : list models.Vote) (p : models.Proposal)
    (req : CastRequest AuthProof) :
  (∀ v ledger',
     castVote ledger p req = (Ok v, ledger') →
     votes_of ledger' (models.ID p) (cast_addr req) = [v]
     ∧ ledger' = ledger ++ [v]
     ∧ castVote ledger' p req = (Fail AlreadyVoted, ledger')
     ∧ ∀ req', cast_addr req' = cast_addr req →
         ∃ e, castVote ledger' p req' = (Fail e, ledger')
              ∧ (∀ w, precheck p req' = Ok w → e = AlreadyVoted))
  ∧ (∀ w n schedule,
       precheck p req = Ok w →
       votes_of ledger (models.ID p) (cast_addr req) = [] →
       let st := run_casts p req schedule (pool_init ledger n) in
       (length (votes_of (pool_ledger st) (models.ID p) (cast_addr req)) ≤ 1)%nat
       ∧ (count is_success (casters st) ≤ 1)%nat
       ∧ ((1 ≤ n)%nat → completes n schedule →
          count is_finished (casters st) = n
          ∧ count is_success (casters st) = 1%nat
          ∧ count is_duplicate (casters st) = (n - 1)%nat
          ∧ length (votes_of (pool_ledger st) (models.ID p) (cast_addr req)) = 1%nat)).
Proof.
  split.
  - intros v ledger' Hcast.
    destruct (castVote_once ledger ledger' p req v Hcast) as (Hstored & Hledger & Hagain).
    split; [done|]. split; [done|]. split; [|done].
    destruct (Hagain req eq_refl) as (e & Hfail & Hkind).
    unfold castVote in Hcast.
    destruct (precheck p req) as [w|e0] eqn:Hpre; [|done].
    by rewrite (Hkind w eq_refl) in Hfail.
  - intros w n schedule Hpre Hnone st.
    pose proof (run_casts_inv p req w schedule Hpre _
                  (pool_init_inv ledger n _ _ Hnone)) as (Hk & Hfin & Hone & Hle).
    fold st in Hk, Hfin, Hone, Hle. cbn zeta in Hk, Hone, Hle.
    split; [done|]. split; [lia|].
    intros Hn Hall.
    pose proof (run_casts_complete p req ledger n schedule Hall) as Hdone.
    fold st in Hdone. rewrite Hdone in Hfin, Hone.
    specialize (Hone Hn). repeat split; lia.
Qed.

End LedgerProps.

Lemma cast_at_most_once_witness :
  let st := run_casts (reference.computeWeight fixture.w0) reference.active
              (reference.verify fixture.w0) (fixture.proposal 2 "published")
              fixture.cast [0; 1; 2; 2; 1; 0]%nat
              (pool_init (world.ledger fixture.w0) 3) in
  count is_finished (casters st) = 3%nat
  ∧ count is_success (casters st) = 1%nat
  ∧ count is_duplicate (casters st) = 2%nat
  ∧ length (votes_of (pool_ledger st) 2 "0xc") = 1%nat.
Proof.
  destruct (proj2 (cast_at_most_once (reference.computeWeight fixture.w0)
                     reference.active (reference.verify fixture.w0)
                     (world.ledger fixture.w0) (fixture.proposal 2 "published")
                     fixture.cast)
              1 3%nat [0; 1; 2; 2; 1; 0]%nat) as (_ & _ & Hall).
  - vm_compute. reflexivity.
  - vm_compute. reflexivity.
  - apply Hall; [lia|].
    intros i Hi. destruct i as [|[|[|i]]]; [vm_compute; lia ..|lia].
Defined.

(** ** Casting a vote through the handler *)

Section CastHandler.
Context {DB Voucher Sigs : Type} (h : helpers.t DB Voucher Sigs).

(** X12. [createVoteForProposal] answers with the error response its
    helper returned, as it is, and with the vote and 201 when there is
    none; what the helper stored is kept in both cases. *)
Lemma createVoteForProposal_relays (r : Request) (a : App DB)
    (p : models.Proposal) (v : models.Vote) (errResponse : errorResponse) (d' : DB) :
  helpers.fetchProposal h (app_db a) (Vars r) "proposalId" = (p, None) →
  helpers.createVote h (app_db a) (Body r) p = ((v, errResponse), d') →
  let out := serve (createVoteForProposal h r) a in
  app_db (app_after out) = d'
  ∧ panicked out = false
  ∧ (errResponse ≠ nilErr →
     status (response out) = Some (StatusCode errResponse)
     ∧ body (response out) = [JObject (error_fields errResponse)])
  ∧ (errResponse = nilErr →
     status (response out) = Some http.StatusCreated
     ∧ body (response out) = [JVote v]).
Proof.
  intros Hfetch Hcast. unfold createVoteForProposal. run_handler.
  rewrite Hfetch. cbn. rewrite Hcast. cbn.
  destruct (decide (errResponse = nilErr)) as [->|Hne].
  - done.
  - rewrite bool_decide_eq_true_2 by done. cbn. done.
Qed.

End CastHandler.

(** ** The achievement trigger *)

(** *** The workers and the handler *)

Section ReaderSteps.
Context {DB Voucher Sigs : Type} (h : helpers.t DB Voucher Sigs).

(** The stages in sequence are the handler. *)
Lemma getResultsForProposal_stages (r : Request) (a : App DB) :
  serve (getResultsForProposal h r) a
  = serve (pc ← advance h r AtFetch; pc ← advance h r pc; pc ← advance h r pc;
           pc ← advance h r pc; _ ← advance h r pc; mret tt) a.
Proof.
  unfold getResultsForProposal, getResultsForProposal_fetched, advance,
    results_votes, results_tally, results_award, results_answer.
  run_handler.
  destruct (helpers.fetchProposal h (app_db a) (Vars r) "proposalId") as [p err0];
    cbn.
  destruct (models.Strategy p) as [strategy|]; cbn; [|done].
  destruct (helpers.GetAllVotesForProposal h (app_db a) (models.ID p) strategy)
    as [votes [e|]]; cbn; [done|].
  destruct (helpers.useStrategyTally h (app_db a) p votes) as [results [e|]]; cbn;
    [done|].
  destruct (models.Computed_status p) as [cs|]; cbn; [|done].
  destruct (bool_decide (cs = "closed") && negb (models.Achievements_done p));
    cbn; [|done].
  destruct (helpers.AddWinningVoteAchievement h (app_db a) votes results)
    as [[e|] d']; cbn; done.
Qed.

Lemma read_step_length (r : Request) (st : Readers DB) (i : nat) :
  length (readers (read_step h r st i)) = length (readers st).
Proof.
  unfold read_step. destruct (readers st !! i) as [[pc w log|out]|]; [|done|done].
  destruct (advance h r pc _); cbn [readers]; apply length_insert.
Qed.

Lemma advance_rank (r : Request) (pc pc' : stage) (w : ResponseWriter)
    (log : list string) (s s' : St DB) :
  advance h r pc s = Next pc' s' →
  rank (Running (DB := DB) pc' (rw s') (logs s')) = S (rank (Running (DB := DB) pc w log)).
Proof.
  destruct pc as [|p|p votes|p votes results|results];
    unfold advance, results_votes, results_tally, results_award, results_answer;
    run_handler.
  - destruct (helpers.fetchProposal h (db s) (Vars r) "proposalId").
    by intros [= <- <-].
  - destruct (models.Strategy p) as [strategy|]; cbn; [|done].
    destruct (helpers.GetAllVotesForProposal h (db s) (models.ID p) strategy)
      as [votes [e|]]; cbn; [done|]. by intros [= <- <-].
  - destruct (helpers.useStrategyTally h (db s) p votes) as [results [e|]]; cbn;
      [done|]. by intros [= <- <-].
  - destruct (models.Computed_status p) as [cs|]; cbn; [|done].
    destruct (bool_decide (cs = "closed") && negb (models.Achievements_done p));
      cbn; [|by intros [= <- <-]].
    destruct (helpers.AddWinningVoteAchievement h (db s) votes results)
      as [[e|] d']; cbn; by intros [= <- <-].
  - done.
Qed.

(** A step of worker [i] moves it on, unless it has answered, and leaves
    the other workers where they are. *)
Lemma read_step_rank (r : Request) (st : Readers DB) (i j : nat) (rd : reader DB) :
  readers st !! j = Some rd →
  ∃ rd', readers (read_step h r st i) !! j = Some rd'
         ∧ (rank rd ≤ rank rd')%nat
         ∧ (j = i → (Nat.min 5 (S (rank rd)) ≤ rank rd')%nat).
Proof.
  intros Hj. unfold read_step.
  destruct (readers st !! i) as [[pc w log|out]|] eqn:Hi.
  - destruct (decide (j = i)) as [->|Hne].
    + rewrite Hi in Hj. injection Hj as <-.
      pose proof (lookup_lt_Some _ _ _ Hi) as Hlt.
      destruct (advance h r pc _) as [pc' s'|s'|s'] eqn:Hadv; cbn [readers];
        rewrite list_lookup_insert_eq by done; eexists; (split; [reflexivity|]).
      * rewrite (advance_rank r pc pc' w log _ _ Hadv). split; [lia|intros _; lia].
      * destruct pc; cbn; split; (lia || (intros _; lia)).
      * destruct pc; cbn; split; (lia || (intros _; lia)).
    + destruct (advance h r pc _); cbn [readers];
        rewrite list_lookup_insert_ne by done;
        exists rd; (split; [done|split; [lia|done]]).
  - exists rd. split; [done|]. split; [lia|]. intros ->.
    rewrite Hi in Hj. injection Hj as <-. cbn. lia.
  - exists rd. split; [done|]. split; [lia|]. intros ->. congruence.
Qed.

Lemma run_reads_rank (r : Request) (schedule : list nat) (st : Readers DB)
    (j : nat) (rd : reader DB) :
  readers st !! j = Some rd →
  ∃ rd', readers (run_reads h r schedule st) !! j = Some rd'
         ∧ (Nat.min 5 (rank rd + turns j schedule) ≤ rank rd')%nat.
Proof.
  revert st rd. induction schedule as [|i rest IH]; intros st rd Hj.
  - exists rd. split; [done|]. unfold turns. rewrite filter_nil. cbn [length]. lia.
  - destruct (read_step_rank r st i j rd Hj) as (rd1 & H1 & Hle & Hstep).
    destruct (IH _ _ H1) as (rd' & H' & Hrest).
    exists rd'. split; [exact H'|].
    unfold turns in *.
    destruct (decide (i = j)) as [->|Hne].
    + rewrite filter_cons_True by done. cbn [length].
      specialize (Hstep eq_refl). lia.
    + rewrite filter_cons_False by done. lia.
Qed.

(** A worker that has had five turns has answered. *)
Lemma run_reads_answered (r : Request) (schedule : list nat) (a : App DB)
    (n i : nat) :
  (i < n)%nat → (5 ≤ turns i schedule)%nat →
  ∃ out, readers (run_reads h r schedule (readers_init a n)) !! i
         = Some (Answered out).
Proof.
  intros Hi Hturns.
  destruct (run_reads_rank r schedule (readers_init a n) i
              (Running AtFetch ResponseWriter_new []))
    as (rd & Hrd & Hrank).
  { cbn. by apply lookup_replicate_2. }
  cbn [rank] in Hrank.
  destruct rd as [pc w log|out]; [|by exists out].
  destruct pc; cbn [rank] in Hrank; lia.
Qed.

Lemma read_step_single (r : Request) (a : App DB) (pc : stage)
    (w : ResponseWriter) (log : list string) :
  read_step h r {| shared_app := a; readers := [Running pc w log] |} 0
  = match advance h r pc {| globals := app_globals a; db := app_db a;
                            rw := w; logs := log |} with
    | Next pc' s' =>
        {| shared_app := app_after (served_of false s');
           readers := [Running pc' (rw s') (logs s')] |}
    | Return s' =>
        {| shared_app := app_after (served_of false s');
           readers := [Answered (served_of false s')] |}
    | Panic s' =>
        {| shared_app := app_after (served_of true s');
           readers := [Answered (served_of true s')] |}
    end.
Proof.
  unfold read_step. cbn [readers shared_app lookup list_lookup].
  by destruct (advance h r pc _).
Qed.

Lemma read_step_done (r : Request) (a : App DB) (out : Served DB) :
  read_step h r {| shared_app := a; readers := [Answered out] |} 0
  = {| shared_app := a; readers := [Answered out] |}.
Proof. reflexivity. Qed.

(** A worker that runs alone is the handler serving the request. *)
Lemma run_reads_alone (r : Request) (a : App DB) :
  run_reads h r [0; 0; 0; 0; 0]%nat (readers_init a 1)
  = {| shared_app := app_after (serve (getResultsForProposal h r) a);
       readers := [Answered (serve (getResultsForProposal h r) a)] |}.
Proof.
  rewrite getResultsForProposal_stages. unfold serve, run_reads, readers_init.
  cbn [foldl replicate]. unfold mbind, mret, H_bind, H_ret, bind, ret.
  rewrite read_step_single.
  destruct (advance h r AtFetch _) as [pc1 [g1 d1 w1 l1]|s1|s1] eqn:H1;
    [|by rewrite !read_step_done..].
  rewrite read_step_single. cbn [served_of app_after
    app_globals app_db rw logs globals db].
  destruct (advance h r pc1 _) as [pc2 [g2 d2 w2 l2]|s2|s2] eqn:H2;
    [|by rewrite !read_step_done..].
  rewrite read_step_single. cbn [served_of app_after
    app_globals app_db rw logs globals db].
  destruct (advance h r pc2 _) as [pc3 [g3 d3 w3 l3]|s3|s3] eqn:H3;
    [|by rewrite !read_step_done..].
  rewrite read_step_single. cbn [served_of app_after
    app_globals app_db rw logs globals db].
  destruct (advance h r pc3 _) as [pc4 [g4 d4 w4 l4]|s4|s4] eqn:H4;
    [|by rewrite !read_step_done..].
  rewrite read_step_single. cbn [served_of app_after
    app_globals app_db rw logs globals db].
  destruct (advance h r pc4 _) as [pc5 s5|s5|s5] eqn:H5; [|done..].
  exfalso.
  pose proof (advance_rank r pc4 pc5 ResponseWriter_new [] _ _ H5) as Hr5.
  pose proof (advance_rank r pc3 pc4 ResponseWriter_new [] _ _ H4) as Hr4.
  pose proof (advance_rank r pc2 pc3 ResponseWriter_new [] _ _ H3) as Hr3.
  pose proof (advance_rank r pc1 pc2 ResponseWriter_new [] _ _ H2) as Hr2.
  pose proof (advance_rank r AtFetch pc1 ResponseWriter_new [] _ _ H1) as Hr1.
  assert (∀ pc w l, (rank (Running (DB := DB) pc w l) ≤ 4)%nat) as Hmax
    by (intros [] ? ?; cbn; lia).
  pose proof (Hmax pc5 (rw s5) (logs s5)).
  cbn [rw logs] in *.
  assert (∀ pc w l w' l', rank (Running (DB := DB) pc w l)
                          = rank (Running (DB := DB) pc w' l'))
    as Hsame by (by intros []).
  rewrite (Hsame pc4 _ _ w4 l4) in Hr5. rewrite (Hsame pc3 _ _ w3 l3) in Hr4.
  rewrite (Hsame pc2 _ _ w2 l2) in Hr3. rewrite (Hsame pc1 _ _ w1 l1) in Hr2.
  change (rank (Running (DB := DB) AtFetch ResponseWriter_new [])) with 0%nat in Hr1.
  lia.
Qed.

End ReaderSteps.

(** *** The award in the reference world *)

Section AchievementProps.
Variable dec : reference.Decoders.

Local Abbreviation h := (reference.impl dec).

Lemma award_first (w : world.t) (pid : Z) (p : models.Proposal)
    (votes : list models.Vote) (results : models.ProposalResults) :
  world.proposals w !! pid = Some p →
  newly_closed p →
  models.RProposal_id results = pid →
  snd (reference.AddWinningVoteAchievement w votes results) = after_award w pid p.
Proof.
  intros Hp [Hclosed Hdone] Hid.
  unfold reference.AddWinningVoteAchievement, reference.flip_achievements_done, after_award.
  rewrite Hid, Hp, Hclosed, Hdone.
  rewrite bool_decide_eq_true_2 by done. cbn.
  by destruct (world.achievement_error w).
Qed.

Lemma award_again (w : world.t) (pid : Z) (p : models.Proposal)
    (votes : list models.Vote) (results : models.ProposalResults) :
  world.proposals w !! pid = Some p →
  models.Achievements_done p = true →
  models.RProposal_id results = pid →
  reference.AddWinningVoteAchievement w votes results = (None, w).
Proof.
  intros Hp Hdone Hid.
  unfold reference.AddWinningVoteAchievement, reference.flip_achievements_done.
  rewrite Hid, Hp, Hdone. by rewrite andb_false_r.
Qed.

Lemma after_award_lookup (w : world.t) (pid : Z) (p : models.Proposal) :
  world.proposals (after_award w pid p) !! pid = Some (with_Achievements_done p true).
Proof.
  unfold after_award. destruct (world.achievement_error w); cbn;
    apply lookup_insert_eq.
Qed.

Lemma run_reads_ind (I : Readers world.t → Prop) (r : Request) :
  (∀ st i, I st → I (read_step h r st i)) →
  ∀ schedule st, I st → I (run_reads h r schedule st).
Proof.
  intros Hstep. induction schedule as [|i rest IH]; intros st Hst; [done|].
  apply IH, Hstep, Hst.
Qed.

Variable r : Request.
Variable w0 : world.t.
Variable pid : Z.
Variable p0 : models.Proposal.
Hypothesis Hid : strconv.Atoi (var_of (Vars r) "proposalId") = (pid, None).
Hypothesis Hp0 : world.proposals w0 !! pid = Some p0.
Hypothesis HID : models.ID p0 = pid.

Local Abbreviation p1 := (with_Achievements_done p0 true).
Local Abbreviation w1 := (after_award w0 pid p0).

Lemma fetch_stored (w : world.t) (p : models.Proposal) :
  world.proposals w !! pid = Some p →
  fst (helpers.fetchProposal h w (Vars r) "proposalId") = p.
Proof.
  intros Hp. cbn. unfold reference.fetchProposal. rewrite Hid. cbn. by rewrite Hp.
Qed.

(** The award leaves the ledger and the weights as they are. *)
Lemma ledger_after_award : world.ledger w1 = world.ledger w0.
Proof. unfold after_award. by destruct (world.achievement_error w0). Qed.

Lemma computeWeight_after_award :
  reference.computeWeight w1 = reference.computeWeight w0.
Proof.
  unfold reference.computeWeight, after_award.
  by destruct (world.achievement_error w0).
Qed.

Lemma reader_inv_mono (votes0 : list models.Vote) (reach : bool)
    (w w' : world.t) (rd : reader world.t) :
  w' = w ∨ w' = w1 →
  reader_inv w0 pid p0 votes0 reach w rd → reader_inv w0 pid p0 votes0 reach w' rd.
Proof.
  intros [->| ->]; [done|].
  destruct rd as [[|p|p votes|p votes results|results] wr log|out]; cbn; try done.
  - intros [?|[? _]]; [by left|by right].
  - intros [[?|[? _]] ?]; (split; [|done]); [by left|by right].
  - intros [[?|[? _]] ?]; (split; [|done]); [by left|by right].
Qed.

Local Abbreviation readers_inv := (readers_inv w0 pid p0).

Lemma readers_inv_step (votes0 : list models.Vote) (reach : bool)
    (st : Readers world.t) (i : nat) (a' : App world.t) (rd' : reader world.t) :
  readers_inv votes0 reach st →
  app_db a' = app_db (shared_app st) ∨ app_db a' = w1 →
  reader_inv w0 pid p0 votes0 reach (app_db a') rd' →
  readers_inv votes0 reach
    {| shared_app := a'; readers := <[i := rd']> (readers st) |}.
Proof.
  intros [Hw Hall] Hw' Hrd. split; cbn [shared_app readers].
  - destruct Hw' as [->| ->]; [done|by right].
  - apply Forall_insert; [|done].
    eapply Forall_impl; [exact Hall|]. intros rd. by apply reader_inv_mono.
Qed.

Lemma read_step_inv (st : Readers world.t) (i : nat) (s : string) (m : gmap string Z)
    (reach : bool) :
  let votes0 := fst (reference.GetAllVotesForProposal w0 (models.ID p0) s) in
  newly_closed p0 →
  (reach = true → models.Strategy p0 = Some s
           ∧ tally (reference.computeWeight w0) p0 votes0 = Ok m) →
  readers_inv votes0 reach st → readers_inv votes0 reach (read_step h r st i).
Proof.
  intros votes0 [Hclosed Hdone] Hreach Hinv. pose proof Hinv as [Hw Hall].
  unfold read_step.
  destruct (readers st !! i) as [[pc wr log|out]|] eqn:Hi; [|done|done].
  pose proof (proj1 (Forall_lookup _ _) Hall i _ Hi) as Hrd.
  set (w := app_db (shared_app st)) in *.
  assert (∀ p, p = p0 ∨ (p = p1 ∧ w = w1) →
               models.ID p = pid ∧ models.Strategy p = models.Strategy p0
               ∧ models.Computed_status p = Some "closed"
               ∧ world.proposals w !! pid = Some p
                 ∨ (p = p0 ∧ w = w1)) as Hheld.
  { intros p [->|[-> Hw1]]; [|by left; rewrite Hw1, after_award_lookup].
    destruct Hw as [Hw|Hw]; [left; by rewrite Hw|by right]. }
  destruct pc as [|p|p votes|p votes results|results]; cbn in Hrd.
  - (* the fetch *)
    unfold advance. run_handler.
    destruct (reference.fetchProposal w (Vars r) "proposalId") as [p err] eqn:Hf.
    cbn. apply readers_inv_step; [done|by left|]. cbn.
    assert (p = fst (helpers.fetchProposal h w (Vars r) "proposalId")) as ->
      by (cbn; by rewrite Hf).
    destruct Hw as [Hw|Hw].
    + left. apply fetch_stored. by rewrite Hw.
    + right. split; [|done]. apply fetch_stored. rewrite Hw.
      apply after_award_lookup.
  - (* the votes *)
    assert (models.ID p = models.ID p0 ∧ models.Strategy p = models.Strategy p0)
      as [HIDp Hsp] by (by destruct Hrd as [->|[-> _]]).
    unfold advance, results_votes. run_handler.
    destruct (models.Strategy p) as [s'|] eqn:Hs'; cbn.
    + apply readers_inv_step; [done|by left|]. cbn. split; [done|].
      intros Hr. destruct (Hreach Hr) as [Hs _].
      rewrite Hs in Hsp. injection Hsp as ->. rewrite HIDp. subst votes0.
      destruct Hw as [Hw|Hw]; fold w; rewrite Hw; [done|].
      by rewrite ledger_after_award.
    + apply readers_inv_step; [done|by left|]. cbn.
      intros Hr. destruct (Hreach Hr) as [Hs _]. congruence.
  - (* the tally *)
    destruct Hrd as [Hp Hvotes].
    assert (models.ID p = pid) as HIDp by (by destruct Hp as [->|[-> _]]).
    unfold advance, results_tally. run_handler.
    unfold reference.useStrategyTally.
    destruct (tally (reference.computeWeight w) p votes) as [m'|e] eqn:Ht; cbn.
    + apply readers_inv_step; [done|by left|]. cbn. done.
    + apply readers_inv_step; [done|by left|]. cbn.
      intros Hr. destruct Hp as [->|[_ Hw1]]; [|done]. exfalso.
      destruct (Hreach Hr) as [_ Htally]. rewrite (Hvotes Hr) in Ht.
      unfold votes0, reference.GetAllVotesForProposal in Htally.
      cbn [fst] in Htally.
      destruct Hw as [Hw|Hw]; fold w in Hw; rewrite Hw in Ht;
        [|rewrite computeWeight_after_award in Ht]; congruence.
  - (* the award *)
    destruct Hrd as [Hp Hres].
    unfold advance, results_award. run_handler.
    destruct Hp as [->|[-> Hw1]].
    + rewrite Hclosed, Hdone. cbn.
      rewrite bool_decide_eq_true_2 by done. cbn.
      assert (snd (reference.AddWinningVoteAchievement w votes results) = w1)
        as Haward.
      { destruct Hw as [Hw|Hw]; fold w in Hw; rewrite Hw.
        - by apply award_first.
        - erewrite award_again; [done|apply after_award_lookup|done|done]. }
      destruct (reference.AddWinningVoteAchievement w votes results)
        as [[e|] w'] eqn:Hadd; cbn in Haward; subst w'; cbn;
        (apply readers_inv_step; [done|by right|done]).
    + cbn. rewrite Hclosed. cbn. rewrite andb_false_r. cbn.
      apply readers_inv_step; [done|by left|done].
  - (* the answer *)
    unfold advance, results_answer. run_handler.
    apply readers_inv_step; [done|by left|]. cbn. by intros _.
Qed.

Lemma read_step_idle (st : Readers world.t) (i : nat) :
  ¬ newly_closed p0 →
  readers_idle w0 p0 st → readers_idle w0 p0 (read_step h r st i).
Proof.
  intros Hold [Hw Hall]. unfold read_step.
  destruct (readers st !! i) as [[pc wr log|out]|] eqn:Hi; [|done|done].
  pose proof (proj1 (Forall_lookup _ _) Hall i _ Hi) as Hrd.
  rewrite Hw.
  destruct pc as [|p|p votes|p votes results|results]; cbn in Hrd.
  - unfold advance. run_handler.
    destruct (reference.fetchProposal w0 (Vars r) "proposalId") as [p err] eqn:Hf.
    cbn. split; [done|]. apply Forall_insert; [done|]. cbn.
    assert (p = fst (helpers.fetchProposal h w0 (Vars r) "proposalId")) as ->
      by (cbn; by rewrite Hf).
    by apply fetch_stored.
  - unfold advance, results_votes. run_handler.
    destruct (models.Strategy p); cbn; (split; [done|]);
      apply Forall_insert; done.
  - unfold advance, results_tally. run_handler.
    destruct (reference.useStrategyTally w0 p votes) as [results [e|]]; cbn;
      (split; [done|]); by apply Forall_insert.
  - subst p. unfold advance, results_award. run_handler.
    destruct (models.Computed_status p0) as [cs|] eqn:Hcs; cbn;
      [|split; [done|by apply Forall_insert]].
    destruct (bool_decide (cs = "closed") && negb (models.Achievements_done p0))
      eqn:Hguard; cbn; [|split; [done|by apply Forall_insert]].
    exfalso. apply Hold. apply andb_true_iff in Hguard as [Hc Hd].
    apply bool_decide_eq_true in Hc as ->. apply negb_true_iff in Hd. done.
  - unfold advance, results_answer. run_handler.
    split; [done|]. by apply Forall_insert.
Qed.

Lemma readers_init_inv (g : Globals) (n : nat) (votes0 : list models.Vote)
    (reach : bool) :
  readers_inv votes0 reach (readers_init {| app_globals := g; app_db := w0 |} n).
Proof.
  split; cbn [readers_init shared_app readers app_db]; [by left|].
  by apply Forall_replicate.
Qed.

Lemma readers_init_idle (g : Globals) (n : nat) :
  readers_idle w0 p0 (readers_init {| app_globals := g; app_db := w0 |} n).
Proof. split; [done|]. by apply Forall_replicate. Qed.

Lemma awarded_after_award :
  (awarded w1 pid ≤ awarded w0 pid + 1)%nat
  ∧ (world.achievement_error w0 = None → awarded w1 pid = (awarded w0 pid + 1)%nat).
Proof.
  unfold awarded, after_award.
  destruct (world.achievement_error w0); cbn [world.awards world.set_awards world.set_proposals].
  - split; [lia|done].
  - rewrite filter_app, length_app, filter_cons_True, filter_nil by done.
    cbn [length]. split; [lia|intros _; lia].
Qed.

(** C2. Concurrent reads of the results of one proposal, every collaborator
    call of [getResultsForProposal] a step of its own and the steps of the
    workers interleaved in any order.  The award runs at most once for the
    proposal.  The stored state changes only if the proposal is closed with
    its achievements not yet awarded, and then to the state after one flip
    of [achievements_done].  A worker that has had five turns has answered.
    When the proposal is newly closed and a read gets as far as the award,
    then as soon as one worker has had four turns the flip has happened:
    [achievements_done] is true, and the award has run exactly once unless
    computing it failed. *)
Theorem award_at_most_once (g : Globals) (n : nat) (schedule : list nat) :
  let st := run_reads h r schedule
              (readers_init {| app_globals := g; app_db := w0 |} n) in
  let w := app_db (shared_app st) in
  (awarded w pid ≤ awarded w0 pid + 1)%nat
  ∧ (w = w0 ∨ (newly_closed p0 ∧ w = after_award w0 pid p0))
  ∧ (∀ i, (i < n)%nat → (5 ≤ turns i schedule)%nat →
          ∃ out, readers st !! i = Some (Answered out))
  ∧ (newly_closed p0 →
     ∀ s m,
       models.Strategy p0 = Some s →
       tally (reference.computeWeight w0) p0
         (fst (reference.GetAllVotesForProposal w0 (models.ID p0) s)) = Ok m →
       ∀ i, (i < n)%nat → (4 ≤ turns i schedule)%nat →
         w = after_award w0 pid p0
         ∧ achievements_done w pid = true
         ∧ (world.achievement_error w0 = None →
            awarded w pid = (awarded w0 pid + 1)%nat)).
Proof.
  intros st w.
  assert (w = w0 ∨ (newly_closed p0 ∧ w = w1)) as Hw.
  { destruct (decide (models.Computed_status p0 = Some "closed")) as [Hclosed|Hopen].
    - destruct (models.Achievements_done p0) eqn:Hdone.
      + left. apply (run_reads_ind (readers_idle w0 p0) r).
        * intros st' i. apply read_step_idle. intros [_ Hnd]. congruence.
        * apply readers_init_idle.
      + assert (newly_closed p0) as Hnew by done.
        destruct (run_reads_ind
                    (readers_inv
                       (fst (reference.GetAllVotesForProposal w0 (models.ID p0) ""))
                       false) r
                    (λ st' i Hst,
                       read_step_inv st' i "" ∅ false Hnew
                         (λ Hr, False_ind _ (Bool.diff_false_true Hr)) Hst)
                    schedule _ (readers_init_inv g n _ false)) as [[Hw|Hw] _].
        * by left.
        * right. by split.
    - left. apply (run_reads_ind (readers_idle w0 p0) r).
      + intros st' i. apply read_step_idle. by intros [Hc _].
      + apply readers_init_idle. }
  split; [|split; [done|split]].
  - destruct Hw as [->|[_ ->]]; [lia|apply awarded_after_award].
  - intros i Hi Hturns. by apply run_reads_answered.
  - intros Hnew s m Hs Htally i Hi Hturns.
    destruct (run_reads_ind
                (readers_inv
                   (fst (reference.GetAllVotesForProposal w0 (models.ID p0) s))
                   true) r
                (λ st' i Hst,
                   read_step_inv st' i s m true Hnew (λ _, conj Hs Htally) Hst)
                schedule _ (readers_init_inv g n _ true)) as [_ Hall].
    destruct (run_reads_rank h r schedule
                (readers_init {| app_globals := g; app_db := w0 |} n) i
                (Running AtFetch ResponseWriter_new []))
      as (rd & Hrd & Hrank).
    { cbn. by apply lookup_replicate_2. }
    pose proof (proj1 (Forall_lookup _ _) Hall i _ Hrd) as Hok.
    fold st in Hok. fold w in Hok.
    assert (w = w1) as Hw1.
    { change (rank (Running (DB := world.t) AtFetch ResponseWriter_new []))
        with 0%nat in Hrank.
      destruct rd as [pc wr log|out]; [|by apply Hok].
      destruct pc; cbn [rank] in Hrank; try lia. exact Hok. }
    rewrite Hw1. split; [done|]. split.
    + unfold achievements_done. by rewrite after_award_lookup.
    + apply awarded_after_award.
Qed.

End AchievementProps.

Lemma award_at_most_once_witness :
  let st := run_reads (reference.impl fixture.dec)
              (request_of [("proposalId", "1")] [] "")
              [0; 1; 2; 0; 1; 2; 0; 1; 2; 0; 1; 2; 0; 1; 2]%nat
              (readers_init fixture.app0 3) in
  let w := app_db (shared_app st) in
  w = after_award fixture.w0 1 (fixture.proposal 1 "closed")
  ∧ achievements_done w 1 = true
  ∧ awarded w 1 = 1%nat
  ∧ ∃ out, readers st !! 2%nat = Some (Answered out).
Proof.
  pose proof (award_at_most_once fixture.dec
                (request_of [("proposalId", "1")] [] "") fixture.w0 1
                (fixture.proposal 1 "closed")
                ltac:(vm_compute; reflexivity) ltac:(vm_compute; reflexivity)
                ltac:(reflexivity)
                globals_init 3
                [0; 1; 2; 0; 1; 2; 0; 1; 2; 0; 1; 2; 0; 1; 2]%nat) as Hc.
  cbv zeta in Hc. destruct Hc as (_ & _ & Hanswered & Hflip).
  destruct (Hflip ltac:(split; reflexivity) "one-address-one-vote"
              {[ "yes" := 1; "no" := 1 ]} ltac:(reflexivity)
              ltac:(vm_compute; reflexivity) 0%nat ltac:(lia)
              ltac:(vm_compute; lia))
    as (Hw & Hdone & Hawarded).
  split; [exact Hw|]. split; [exact Hdone|]. split.
  - exact (Hawarded eq_refl).
  - apply Hanswered; [lia|vm_compute; lia].
Defined.

(** ** What the handlers do to the shared state *)

Section KeepsRules.
Context {DB : Type} (R : St DB → St DB → Prop).
Context `{!Reflexive R, !Transitive R}.

Lemma keeps_ret {A} (a : A) : keeps R (ret a).
Proof. intros s. cbn. reflexivity. Qed.

Lemma keeps_bind {A B} (m : H DB A) (k : A → H DB B) :
  keeps R m → (∀ a, keeps R (k a)) → keeps R (bind m k).
Proof.
  intros Hm Hk s. unfold bind. specialize (Hm s).
  destruct (m s) as [a s'|s'|s']; cbn in *; [|done|done].
  etrans; [exact Hm|apply Hk].
Qed.

Lemma keeps_when (b : bool) (m : H DB unit) : keeps R m → keeps R (when b m).
Proof. intros Hm. destruct b; [done|apply keeps_ret]. Qed.

Lemma keeps_return {A} : keeps R (return_ (A := A)).
Proof. intros s. cbn. reflexivity. Qed.

Lemma keeps_deref {A} (p : option A) : keeps R (deref p).
Proof. destruct p; intros s; cbn; reflexivity. Qed.

End KeepsRules.

Lemma keeps_weaken {DB A} (R R' : St DB → St DB → Prop) (m : H DB A) :
  (∀ s s', R s s' → R' s s') → keeps R m → keeps R' m.
Proof. intros Himpl Hm s. apply Himpl, Hm. Qed.

#[global] Instance same_globals_refl {DB} : Reflexive (@same_globals DB).
Proof. by intros s. Qed.
#[global] Instance same_globals_trans {DB} : Transitive (@same_globals DB).
Proof. intros s1 s2 s3 H12 H23. unfold same_globals in *. congruence. Qed.

Lemma same_code_refl (e : errorResponse) : same_code e e.
Proof. done. Qed.

Lemma same_code_trans (e1 e2 e3 : errorResponse) :
  same_code e1 e2 → same_code e2 e3 → same_code e1 e3.
Proof. intros (?&?&?) (?&?&?). repeat split; congruence. Qed.

#[global] Instance same_codes_in_refl {DB} : Reflexive (@same_codes_in DB).
Proof. intros s. split; apply same_code_refl. Qed.
#[global] Instance same_codes_in_trans {DB} : Transitive (@same_codes_in DB).
Proof.
  intros s1 s2 s3 [Ha Hb] [Hc Hd]. split; eapply same_code_trans; eassumption.
Qed.

Lemma same_globals_codes {DB} (s s' : St DB) : same_globals s s' → same_codes_in s s'.
Proof. unfold same_globals, same_codes_in. intros ->. split; apply same_code_refl. Qed.

Section GlobalsRules.
Context {DB : Type}.

Lemma globals_query {A} (f : DB → A) : keeps same_globals (query f).
Proof. by intros s. Qed.
Lemma globals_exec {A} (f : DB → A * DB) : keeps same_globals (exec f).
Proof. intros s. unfold exec. by destruct (f (db s)). Qed.
Lemma globals_log (msg : string) : keeps (@same_globals DB) (log_Error msg).
Proof. by intros s. Qed.
Lemma globals_read {A} (f : Globals → A) : keeps (@same_globals DB) (read_global f).
Proof. by intros s. Qed.
Lemma globals_respondWithJSON (code : Z) (p : payload) :
  keeps (@same_globals DB) (respondWithJSON code p).
Proof. by intros s. Qed.
Lemma globals_respondWithError (e : errorResponse) :
  keeps (@same_globals DB) (respondWithError e).
Proof. by intros s. Qed.
Lemma globals_validatePayload {T} (decode : Decoder T) (body : string) (data : T) :
  keeps (@same_globals DB) (validatePayload decode body data).
Proof. intros s. unfold validatePayload. by destruct (decode body data). Qed.

(** The two assignments of the file change a status and nothing else. *)
Lemma codes_assign_errIncompleteRequest (code : Z) :
  keeps (@same_codes_in DB) (assign_errIncompleteRequest_StatusCode code).
Proof. intros s. split; done. Qed.
Lemma codes_assign_errCreateCommunity (code : Z) :
  keeps (@same_codes_in DB) (assign_errCreateCommunity_StatusCode code).
Proof. intros s. split; done. Qed.

End GlobalsRules.

Ltac keeps_step :=
  lazymatch goal with
  | |- keeps _ (bind _ _) => apply keeps_bind; [typeclasses eauto | | intros ?]
  | |- keeps _ (when _ _) => apply keeps_when; [typeclasses eauto |]
  | |- keeps _ (ret _) => apply keeps_ret; typeclasses eauto
  | |- keeps _ return_ => apply keeps_return; typeclasses eauto
  | |- keeps _ (deref _) => apply keeps_deref; typeclasses eauto
  | |- keeps _ (failIncomplete _ _) => unfold failIncomplete
  | |- keeps _ respondIncomplete => unfold respondIncomplete
  | |- keeps _ (validateThresholds _ _) => unfold validateThresholds
  | |- keeps _ (mbind _ _) => unfold mbind, H_bind
  | |- keeps _ (mret _) => unfold mret, H_ret
  | |- keeps _ (let (_, _) := ?x in _) => destruct x
  | |- keeps _ (let _ := _ in _) => cbv zeta
  | |- keeps _ (match ?x with _ => _ end) => destruct x
  end.

Ltac globals_rule :=
  lazymatch goal with
  | |- keeps _ (query _) => apply globals_query
  | |- keeps _ (exec _) => apply globals_exec
  | |- keeps _ (log_Error _) => apply globals_log
  | |- keeps _ (read_global _) => apply globals_read
  | |- keeps _ (respondWithJSON _ _) => apply globals_respondWithJSON
  | |- keeps _ (respondWithError _) => apply globals_respondWithError
  | |- keeps _ (validatePayload _ _ _) => apply globals_validatePayload
  end.

Ltac codes_rule :=
  lazymatch goal with
  | |- keeps _ (assign_errIncompleteRequest_StatusCode _) =>
      apply codes_assign_errIncompleteRequest
  | |- keeps _ (assign_errCreateCommunity_StatusCode _) =>
      apply codes_assign_errCreateCommunity
  | |- _ => apply (keeps_weaken same_globals); [apply same_globals_codes | globals_rule]
  end.

Ltac keeps_globals := repeat first [keeps_step | globals_rule].
Ltac keeps_codes := repeat first [keeps_step | codes_rule].

Lemma keeps_leaves_globals {DB} (handler : H DB unit) :
  keeps same_globals handler → leaves_globals handler.
Proof.
  intros Hk a. unfold serve.
  specialize (Hk {| globals := app_globals a; db := app_db a;
                    rw := ResponseWriter_new; logs := [] |}).
  by destruct (handler _).
Qed.

Lemma keeps_leaves_codes {DB} (handler : H DB unit) :
  keeps same_codes_in handler → leaves_codes handler.
Proof.
  intros Hk a. unfold serve.
  specialize (Hk {| globals := app_globals a; db := app_db a;
                    rw := ResponseWriter_new; logs := [] |}).
  by destruct (handler _).
Qed.

Section Frame.
Context {DB Voucher Sigs V : Type}.
Context (h : helpers.t DB Voucher Sigs) (m : more.t DB V).

(** X1. None of these handlers changes the package-level error variables,
    whatever the request, whatever its collaborators answer and however it
    ends, a panic included: they read [errIncompleteRequest] and never
    assign to it. *)
Theorem handlers_leave_globals (r : Request) :
  leaves_globals (@health DB r)
  ∧ leaves_globals (getResultsForProposal h r)
  ∧ leaves_globals (getVotesForProposal h m r)
  ∧ leaves_globals (getVoteForAddress h r)
  ∧ leaves_globals (createVoteForProposal h r)
  ∧ leaves_globals (getProposalsForCommunity m r)
  ∧ leaves_globals (getProposal h m r)
  ∧ leaves_globals (createProposal m r)
  ∧ leaves_globals (updateProposal h r)
  ∧ leaves_globals (getCommunities m r)
  ∧ leaves_globals (searchCommunities m r)
  ∧ leaves_globals (getCommunity h r)
  ∧ leaves_globals (createCommunity h r)
  ∧ leaves_globals (updateCommunity h r)
  ∧ leaves_globals (getCommunityCategories m r)
  ∧ leaves_globals (getActiveStrategiesForCommunity m r)
  ∧ leaves_globals (getListsForCommunity m r)
  ∧ leaves_globals (getList m r)
  ∧ leaves_globals (removeUserRole h m r)
  ∧ leaves_globals (getVotesForAddress m r)
  ∧ leaves_globals (getCommunitiesForHomePage m r)
  ∧ leaves_globals (getCommunityUsers m r)
  ∧ leaves_globals (getCommunityUsersByType m r)
  ∧ leaves_globals (getUserCommunities m r).
Proof.
  repeat apply conj; apply keeps_leaves_globals.
  - unfold health. keeps_globals.
  - unfold getResultsForProposal, getResultsForProposal_fetched. keeps_globals.
  - unfold getVotesForProposal. keeps_globals.
  - unfold getVoteForAddress. keeps_globals.
  - unfold createVoteForProposal. keeps_globals.
  - unfold getProposalsForCommunity. keeps_globals.
  - unfold getProposal. keeps_globals.
  - unfold createProposal. keeps_globals.
  - unfold updateProposal. keeps_globals.
  - unfold getCommunities. keeps_globals.
  - unfold searchCommunities. keeps_globals.
  - unfold getCommunity. keeps_globals.
  - unfold createCommunity. keeps_globals.
  - unfold updateCommunity. keeps_globals.
  - unfold getCommunityCategories. keeps_globals.
  - unfold getActiveStrategiesForCommunity. keeps_globals.
  - unfold getListsForCommunity. keeps_globals.
  - unfold getList. keeps_globals.
  - unfold removeUserRole. keeps_globals.
  - unfold getVotesForAddress. keeps_globals.
  - unfold getCommunitiesForHomePage. keeps_globals.
  - unfold getCommunityUsers. keeps_globals.
  - unfold getCommunityUsersByType. keeps_globals.
  - unfold getUserCommunities. keeps_globals.
Qed.

(** X2. The four handlers that assign to an error variable change its
    status only: the error code, the message and the details of both
    variables are the same after any request. *)
Theorem assigning_handlers_leave_codes (r : Request) :
  leaves_codes (createListForCommunity h r)
  ∧ leaves_codes (addAddressesToList h r)
  ∧ leaves_codes (removeAddressesFromList h r)
  ∧ leaves_codes (createCommunityUser h r).
Proof.
  repeat apply conj; apply keeps_leaves_codes.
  - unfold createListForCommunity. keeps_codes.
  - unfold addAddressesToList. keeps_codes.
  - unfold removeAddressesFromList. keeps_codes.
  - unfold createCommunityUser. keeps_codes.
Qed.

End Frame.

(** ** One response per request *)

(** With a sendable status, [net/http] does what [WriteHeader] and [Write]
    say. *)
Lemma WriteHeader_sendable (code : Z) (w : ResponseWriter) :
  sendable code → net_http.WriteHeader code w = Some (WriteHeader code w).
Proof.
  intros (Hrange & _). unfold net_http.WriteHeader, WriteHeader.
  destruct (status w); [done|]. unfold net_http.informational.
  destruct (Z.ltb_spec code 100); [lia|]. destruct (Z.ltb_spec 999 code); [lia|].
  destruct (Z.leb_spec code 199); [lia|]. by rewrite andb_false_r.
Qed.

Lemma Write_sendable (code : Z) (p : payload) (w : ResponseWriter) :
  sendable code → status w = Some code → net_http.Write p w = Write p w.
Proof.
  intros (Hrange & H204 & H304) Hstatus.
  unfold net_http.Write, Write, WriteHeader. rewrite Hstatus. cbv zeta iota beta.
  rewrite ?Hstatus. cbn [default]. unfold net_http.bodyAllowedForStatus, id.
  destruct (Z.leb_spec code 199); [lia|]. rewrite andb_false_r.
  destruct (Z.eqb_spec code 204); [lia|]. destruct (Z.eqb_spec code 304); [lia|].
  reflexivity.
Qed.

Lemma respondWithJSON_sendable (code : Z) (p : payload) (w : ResponseWriter) :
  sendable code → status w = None →
  net_http.respondWithJSON code p w
  = Some (Write p (WriteHeader code (Header_Set "Content-Type" "application/json" w))).
Proof.
  intros Hcode Hfresh. unfold net_http.respondWithJSON.
  rewrite WriteHeader_sendable by done. cbn [fmap option_fmap option_map].
  f_equal. apply (Write_sendable code); [done|].
  unfold WriteHeader, Header_Set. cbn [status]. by rewrite Hfresh.
Qed.

Lemma sendable_init : sendable_globals globals_init.
Proof. repeat split; by vm_compute. Qed.

Section AnswerRules.
Context {DB : Type}.

Lemma pending_ret {A} (a : A) : pending (DB := DB) (ret a).
Proof. by intros s Hs. Qed.

Lemma pending_bind {A B} (m : H DB A) (k : A → H DB B) :
  pending m → (∀ a, pending (k a)) → pending (bind m k).
Proof.
  intros Hm Hk s Hs. unfold bind. specialize (Hm s Hs).
  destruct (m s) as [a s'|s'|s']; [|done|done].
  destruct Hm as [Hrw Hs']. specialize (Hk a s' Hs'). rewrite <- Hrw. exact Hk.
Qed.

Lemma answers_bind {A B} (m : H DB A) (k : A → H DB B) :
  pending m → (∀ a, answers (k a)) → answers (bind m k).
Proof.
  intros Hm Hk s Hs. unfold bind. specialize (Hm s Hs).
  destruct (m s) as [a s'|s'|s']; [|done|done].
  destruct Hm as [Hrw Hs']. specialize (Hk a s' Hs'). rewrite <- Hrw. exact Hk.
Qed.

(** A collaborator that may write: what follows knows the call it follows. *)
Lemma pending_bind_exec {A B} (f : DB → A * DB) (k : A → H DB B) :
  (∀ d a d', f d = (a, d') → pending (k a)) → pending (bind (exec f) k).
Proof.
  intros Hk s Hs. unfold bind, exec.
  destruct (f (db s)) as [a d'] eqn:Hf.
  exact (Hk _ _ _ Hf {| globals := globals s; db := d'; rw := rw s; logs := logs s |}
           Hs).
Qed.

Lemma answers_bind_exec {A B} (f : DB → A * DB) (k : A → H DB B) :
  (∀ d a d', f d = (a, d') → answers (k a)) → answers (bind (exec f) k).
Proof.
  intros Hk s Hs. unfold bind, exec.
  destruct (f (db s)) as [a d'] eqn:Hf.
  exact (Hk _ _ _ Hf {| globals := globals s; db := d'; rw := rw s; logs := logs s |}
           Hs).
Qed.

(** A read of an error variable: what follows knows that its status is
    sendable. *)
Lemma pending_bind_read {B} (f : Globals → errorResponse) (k : errorResponse → H DB B) :
  (∀ g, sendable_globals g → sendable (StatusCode (f g))) →
  (∀ e, sendable (StatusCode e) → pending (k e)) →
  pending (bind (read_global f) k).
Proof. intros Hf Hk s Hs. unfold bind, read_global. apply (Hk _ (Hf _ Hs) s Hs). Qed.

Lemma answers_bind_read {B} (f : Globals → errorResponse) (k : errorResponse → H DB B) :
  (∀ g, sendable_globals g → sendable (StatusCode (f g))) →
  (∀ e, sendable (StatusCode e) → answers (k e)) →
  answers (bind (read_global f) k).
Proof. intros Hf Hk s Hs. unfold bind, read_global. apply (Hk _ (Hf _ Hs) s Hs). Qed.

(** A branch that answers and returns. *)
Lemma pending_answer_return {A B} (m : H DB A) :
  answers m → pending (bind m (λ _, return_ (A := B))).
Proof.
  intros Hm s Hs. unfold bind. specialize (Hm s Hs).
  destruct (m s) as [a s'|s'|s']; done.
Qed.

Lemma pending_when (b : bool) (m : H DB unit) : pending m → pending (when b m).
Proof. intros Hm. destruct b; [done|apply pending_ret]. Qed.

Lemma pending_when_err (err : error) (m : H DB unit) :
  (∀ e, err = Some e → pending m) → pending (when (is_err err) m).
Proof. intros Hm. destruct err as [e|]; [by apply (Hm e)|apply pending_ret]. Qed.

Lemma pending_when_response (e : errorResponse) (m : H DB unit) :
  (e ≠ nilErr → pending m) → pending (when (bool_decide (e ≠ nilErr)) m).
Proof. intros Hm. unfold when. case_bool_decide; [by apply Hm|apply pending_ret]. Qed.

Lemma pending_query {A} (f : DB → A) : pending (query f).
Proof. by intros s Hs. Qed.
Lemma pending_log (msg : string) : pending (DB := DB) (log_Error msg).
Proof. by intros s Hs. Qed.
Lemma pending_validatePayload {T} (decode : Decoder T) (body : string) (data : T) :
  pending (DB := DB) (validatePayload decode body data).
Proof. intros s Hs. unfold validatePayload. by destruct (decode body data). Qed.

Lemma pending_assign_errIncompleteRequest (code : Z) :
  sendable code → pending (DB := DB) (assign_errIncompleteRequest_StatusCode code).
Proof. intros Hcode s [_ Hs]. by split. Qed.

Lemma pending_assign_errCreateCommunity (code : Z) :
  sendable code → pending (DB := DB) (assign_errCreateCommunity_StatusCode code).
Proof. intros Hcode s [Hs _]. by split. Qed.

Lemma answers_respondWithJSON (code : Z) (p : payload) :
  sendable code → answers (DB := DB) (respondWithJSON code p).
Proof. intros Hcode s Hs. cbn. split; [by exists code, p|done]. Qed.

Lemma answers_respondWithError (e : errorResponse) :
  sendable (StatusCode e) → answers (DB := DB) (respondWithError e).
Proof. apply answers_respondWithJSON. Qed.

Lemma answers_responds_once (handler : H DB unit) (a : App DB) :
  sendable_globals (app_globals a) → answers handler → responds_once handler a.
Proof.
  intros Ha Hk. unfold responds_once, serve.
  specialize (Hk {| globals := app_globals a; db := app_db a;
                    rw := ResponseWriter_new; logs := [] |} Ha).
  cbn [rw] in Hk.
  destruct (handler _) as [[] s|s|s]; [| |done];
    destruct Hk as [(code & p & Hcode & Hrw) Hs];
    cbn [panicked response app_after app_globals];
    (split; [done|]); (split; [|done]);
    exists code, p; (split; [done|]);
    rewrite Hrw; by apply respondWithJSON_sendable.
Qed.

End AnswerRules.

Ltac sendable_status :=
  lazymatch goal with
  | |- sendable (StatusCode (errIncompleteRequest _)) => by intros; apply proj1
  | |- sendable (StatusCode (errCreateCommunity _)) => by intros; apply proj2
  | |- sendable _ =>
      first [ assumption
            | solve [repeat split; by vm_compute]
            | by eapply sendable_createVote
            | by eapply sendable_createProposal
            | by eapply sendable_createListForCommunity
            | by eapply sendable_updateAddressesInList
            | by eapply sendable_createCommunityUser ]
  end.

Ltac answer_step :=
  lazymatch goal with
  | |- pending (bind _ (λ _, return_)) => apply pending_answer_return
  | |- pending (bind (read_global _) _) =>
      apply pending_bind_read; [by intros ? []|intros ? ?]
  | |- answers (bind (read_global _) _) =>
      apply answers_bind_read; [by intros ? []|intros ? ?]
  | |- pending (bind (exec _) _) => apply pending_bind_exec; intros ? ? ? ?
  | |- answers (bind (exec _) _) => apply answers_bind_exec; intros ? ? ? ?
  | |- pending (bind _ _) => apply pending_bind; [|intros ?]
  | |- answers (bind _ _) => apply answers_bind; [|intros ?]
  | |- pending (when (is_err _) _) => apply pending_when_err; intros ? ->
  | |- pending (when (bool_decide (_ ≠ nilErr)) _) =>
      apply pending_when_response; intros ?
  | |- pending (when _ _) => apply pending_when
  | |- pending (ret _) => apply pending_ret
  | |- pending (query _) => apply pending_query
  | |- pending (log_Error _) => apply pending_log
  | |- pending (assign_errIncompleteRequest_StatusCode _) =>
      apply pending_assign_errIncompleteRequest; sendable_status
  | |- pending (assign_errCreateCommunity_StatusCode _) =>
      apply pending_assign_errCreateCommunity; sendable_status
  | |- pending (validatePayload _ _ _) => apply pending_validatePayload
  | |- answers (respondWithJSON _ _) => apply answers_respondWithJSON; sendable_status
  | |- answers (respondWithError _) => apply answers_respondWithError; sendable_status
  | |- context [failIncomplete] => unfold failIncomplete
  | |- context [respondIncomplete] => unfold respondIncomplete
  | |- context [@mbind] => unfold mbind, H_bind
  | |- context [@mret] => unfold mret, H_ret
  | |- pending (let (_, _) := ?x in _) => destruct x
  | |- answers (let (_, _) := ?x in _) => destruct x
  | |- pending (let _ := _ in _) => cbv zeta
  | |- answers (let _ := _ in _) => cbv zeta
  | |- pending (match ?x with _ => _ end) => destruct x
  | |- answers (match ?x with _ => _ end) => destruct x
  end.

Ltac answers_once := apply answers_responds_once; [assumption|]; repeat answer_step.

Section Once.
Context {DB Voucher Sigs V : Type}.
Context (h : helpers.t DB Voucher Sigs) (m : more.t DB V).

(** X3. Served from a state whose error variables hold a status that
    [net/http] sends as it is, and over collaborators that report such
    statuses, each of these handlers writes exactly one response to every
    request and does not panic: no path returns without answering, none
    answers twice, and the status it writes is one that is sent as it is.
    The error variables are left with such a status, so the same holds of
    the next request. *)
Theorem handlers_respond_once (r : Request) (a : App DB) :
  sendable_globals (app_globals a) →
  sendable_helpers h m →
  responds_once (@health DB r) a
  ∧ responds_once (getVotesForProposal h m r) a
  ∧ responds_once (getVoteForAddress h r) a
  ∧ responds_once (createVoteForProposal h r) a
  ∧ responds_once (getProposalsForCommunity m r) a
  ∧ responds_once (createProposal m r) a
  ∧ responds_once (updateProposal h r) a
  ∧ responds_once (getCommunities m r) a
  ∧ responds_once (getCommunity h r) a
  ∧ responds_once (getCommunityCategories m r) a
  ∧ responds_once (getActiveStrategiesForCommunity m r) a
  ∧ responds_once (getListsForCommunity m r) a
  ∧ responds_once (getList m r) a
  ∧ responds_once (createListForCommunity h r) a
  ∧ responds_once (addAddressesToList h r) a
  ∧ responds_once (removeAddressesFromList h r) a
  ∧ responds_once (createCommunityUser h r) a
  ∧ responds_once (removeUserRole h m r) a
  ∧ responds_once (getVotesForAddress m r) a
  ∧ responds_once (getCommunitiesForHomePage m r) a
  ∧ responds_once (getCommunityUsers m r) a
  ∧ responds_once (getCommunityUsersByType m r) a
  ∧ responds_once (getUserCommunities m r) a.
Proof.
  intros Hglobals Hhelpers.
  repeat lazymatch goal with |- _ ∧ _ => split end.
  - unfold health. answers_once.
  - unfold getVotesForProposal. answers_once.
  - unfold getVoteForAddress. answers_once.
  - unfold createVoteForProposal. answers_once.
  - unfold getProposalsForCommunity. answers_once.
  - unfold createProposal. answers_once.
  - unfold updateProposal. answers_once.
  - unfold getCommunities. answers_once.
  - unfold getCommunity. answers_once.
  - unfold getCommunityCategories. answers_once.
  - unfold getActiveStrategiesForCommunity. answers_once.
  - unfold getListsForCommunity. answers_once.
  - unfold getList. answers_once.
  - unfold createListForCommunity. answers_once.
  - unfold addAddressesToList. answers_once.
  - unfold removeAddressesFromList. answers_once.
  - unfold createCommunityUser. answers_once.
  - unfold removeUserRole. answers_once.
  - unfold getVotesForAddress. answers_once.
  - unfold getCommunitiesForHomePage. answers_once.
  - unfold getCommunityUsers. answers_once.
  - unfold getCommunityUsersByType. answers_once.
  - unfold getUserCommunities. answers_once.
Qed.

End Once.

(** ** Single handlers *)

Section Handlers.
Context {DB Voucher Sigs V : Type}.
Context (h : helpers.t DB Voucher Sigs) (m : more.t DB V).

(** X4. Reading the results of a proposal that is not newly closed (its
    computed status is not "closed", or its achievements are done) leaves
    the stored data as it was, whatever the request is answered with and
    also when the handler panics: the award is the only write of
    [getResultsForProposal]. *)
Theorem getResultsForProposal_reads_only (r : Request) (a : App DB) :
  let proposal := fst (helpers.fetchProposal h (app_db a) (Vars r) "proposalId") in
  models.Computed_status proposal ≠ Some "closed"
    ∨ models.Achievements_done proposal = true →
  app_db (app_after (serve (getResultsForProposal h r) a)) = app_db a.
Proof.
  intros proposal Hold. subst proposal.
  unfold getResultsForProposal, getResultsForProposal_fetched. run_handler.
  destruct (helpers.fetchProposal h (app_db a) (Vars r) "proposalId")
    as [p err0]; cbn in *.
  destruct (models.Strategy p) as [strategy|]; cbn; [|done].
  destruct (helpers.GetAllVotesForProposal h (app_db a) (models.ID p) strategy)
    as [votes [e|]]; cbn; [done|].
  destruct (helpers.useStrategyTally h (app_db a) p votes)
    as [results [e|]]; cbn; [done|].
  destruct (models.Computed_status p) as [cs|] eqn:Hcs; cbn; [|done].
  destruct Hold as [Hne|Hdone].
  - rewrite bool_decide_eq_false_2 by congruence. cbn. done.
  - rewrite Hdone, andb_false_r. cbn. done.
Qed.

(** X5. [createCommunity] with a proposal threshold that fails its check
    answers with the error and goes on: the community is created all the
    same, and the answer to that is written to the same response, after the
    error and under the status of the error. *)
Theorem createCommunity_threshold_falls_through (r : Request) (a : App DB)
    (payload : models.CommunityRequestPayload) (threshold : string)
    (only_authors : bool) (e : string) (c : models.Community) (err : error)
    (d' : DB) :
  helpers.decode_Community h (Body r) CommunityRequestPayload_zero = Some payload →
  from_option (λ l, helpers.validateContractThreshold h l) None
    (models.PStrategies payload) = None →
  models.Proposal_threshold payload = Some threshold →
  models.Only_authors_to_submit payload = Some only_authors →
  helpers.validateProposalThreshold h threshold only_authors = Some e →
  helpers.createCommunity h (app_db a) payload = ((c, err), d') →
  let out := serve (createCommunity h r) a in
  let failed := JObject (error_fields (errIncompleteRequest (app_globals a))) in
  app_db (app_after out) = d'
  ∧ status (response out) = Some (StatusCode (errIncompleteRequest (app_globals a)))
  ∧ body (response out) = [failed; if is_err err then failed else JCommunity c].
Proof.
  intros Hdec Hcontract Hthreshold Hauthors Hcheck Hcreate.
  unfold createCommunity, validateThresholds. run_handler.
  rewrite Hdec. cbn. rewrite Hthreshold, Hauthors.
  destruct (models.PStrategies payload) as [strategies|]; cbn in *.
  - rewrite Hcontract. cbn. rewrite Hcheck. run_handler. rewrite Hcreate.
    destruct err; run_handler; done.
  - rewrite Hcheck. run_handler. rewrite Hcreate.
    destruct err; run_handler; done.
Qed.

(** X6. [updateCommunity] with a proposal threshold that fails its check
    answers with the error and goes on: the update is applied all the same,
    and the answer to that is written to the same response, after the error
    and under the status of the error. *)
Theorem updateCommunity_threshold_falls_through (r : Request) (a : App DB)
    (id : Z) (payload : models.CommunityRequestPayload) (threshold : string)
    (only_authors : bool) (e : string) (c : models.Community) (err : error)
    (d' : DB) :
  strconv.Atoi (var_of (Vars r) "id") = (id, None) →
  helpers.decode_Community h (Body r) CommunityRequestPayload_zero = Some payload →
  from_option (λ l, helpers.validateContractThreshold h l) None
    (models.PStrategies payload) = None →
  models.Proposal_threshold payload = Some threshold →
  models.Only_authors_to_submit payload = Some only_authors →
  helpers.validateProposalThreshold h threshold only_authors = Some e →
  helpers.updateCommunity h (app_db a) id payload = ((c, err), d') →
  let out := serve (updateCommunity h r) a in
  let failed := JObject (error_fields (errIncompleteRequest (app_globals a))) in
  app_db (app_after out) = d'
  ∧ status (response out) = Some (StatusCode (errIncompleteRequest (app_globals a)))
  ∧ body (response out) = [failed; if is_err err then failed else JCommunity c].
Proof.
  intros Hid Hdec Hcontract Hthreshold Hauthors Hcheck Hupdate.
  unfold updateCommunity, validateThresholds. rewrite Hid. run_handler.
  rewrite Hdec. cbn. rewrite Hthreshold, Hauthors.
  destruct (models.PStrategies payload) as [strategies|]; cbn in *.
  - rewrite Hcontract. cbn. rewrite Hcheck. run_handler. rewrite Hupdate.
    destruct err; run_handler; done.
  - rewrite Hcheck. run_handler. rewrite Hupdate.
    destruct err; run_handler; done.
Qed.

(** X7. [searchCommunities] has no early return: whatever the search and the
    filters report, the filtered results are written last; each failure
    before that writes an error of its own to the same response, and the
    status is that of the first thing written. *)
Theorem searchCommunities_writes_all (r : Request) (a : App DB) :
  let pageParams := getPageParams r 25 in
  let '(results, totalRecords, categories, err1) :=
    more.searchCommunities m (app_db a) (FormValue r "text") (FormValue r "filters")
      pageParams in
  let '(paginatedResults, err2) :=
    more.appendFiltersToResponse m (app_db a) results
      (with_TotalRecords pageParams totalRecords) categories in
  let out := serve (searchCommunities m r) a in
  let failed := JObject (error_fields (errIncompleteRequest (app_globals a))) in
  panicked out = false
  ∧ body (response out)
    = (if is_err err1 then [failed] else [])
      ++ (if is_err err2 then [failed] else []) ++ [paginatedResults]
  ∧ status (response out)
    = Some (if is_err err1 || is_err err2
            then StatusCode (errIncompleteRequest (app_globals a))
            else http.StatusOK).
Proof.
  intros pageParams. subst pageParams.
  unfold searchCommunities. run_handler.
  destruct (more.searchCommunities m (app_db a) (FormValue r "text")
              (FormValue r "filters") (getPageParams r 25))
    as [[[results totalRecords] categories] err1]; cbn.
  destruct err1 as [e1|]; run_handler;
    destruct (more.appendFiltersToResponse m (app_db a) results
                (with_TotalRecords (getPageParams r 25) totalRecords) categories)
      as [paginatedResults [e2|]]; run_handler; done.
Qed.

(** X8. [getProposal] dereferences the strategies of the community and the
    strategy of the proposal: when either is nil the handler panics before
    anything is written. *)
Theorem getProposal_nil_panics (r : Request) (a : App DB)
    (p : models.Proposal) (c : models.Community) :
  helpers.fetchProposal h (app_db a) (Vars r) "id" = (p, None) →
  helpers.fetchCommunity h (app_db a) (models.Community_id p) = (c, None) →
  models.Strategies c = None ∨ models.Strategy p = None →
  let out := serve (getProposal h m r) a in
  panicked out = true
  ∧ response out = ResponseWriter_new
  ∧ app_after out = a.
Proof.
  intros Hp Hc Hnil. unfold getProposal. run_handler.
  rewrite Hp. cbn. rewrite Hc. cbn.
  destruct (models.Strategies c) as [strategies|]; cbn;
    [|by destruct a].
  destruct Hnil as [Hnil|Hnil]; [done|]. rewrite Hnil. cbn. by destruct a.
Qed.

(** X9. [getProposal] answers 200 with the proposal as fetched once its
    strategy is matched among those of its community, and reads only. *)
Theorem getProposal_found (r : Request) (a : App DB)
    (p : models.Proposal) (c : models.Community)
    (strategies : list models.Strategy_t) (strategy : string)
    (s : models.Strategy_t) :
  helpers.fetchProposal h (app_db a) (Vars r) "id" = (p, None) →
  helpers.fetchCommunity h (app_db a) (models.Community_id p) = (c, None) →
  models.Strategies c = Some strategies →
  models.Strategy p = Some strategy →
  more.MatchStrategyByProposal m strategies strategy = (s, None) →
  let out := serve (getProposal h m r) a in
  panicked out = false
  ∧ status (response out) = Some http.StatusOK
  ∧ body (response out) = [JProposal p]
  ∧ app_after out = a.
Proof.
  intros Hp Hc Hs Hn Hmatch. unfold getProposal. run_handler.
  rewrite Hp. cbn. rewrite Hc. cbn. rewrite Hs. cbn. rewrite Hn. cbn.
  rewrite Hmatch. cbn. by destruct a.
Qed.

(** X10. When pinning the cancelled proposal fails, [updateProposal] answers
    with [errIncompleteRequest] and the proposal is not updated: the stored
    data is what the pinning call left. *)
Theorem updateProposal_pin_failure (r : Request) (a : App DB)
    (p : models.Proposal)
    (payload : models.UpdateProposalRequestPayload Voucher Sigs)
    (cid : option string) (e : string) (d1 : DB) :
  helpers.fetchProposal h (app_db a) (Vars r) "id" = (p, None) →
  helpers.decode_UpdateProposal h (Body r) UpdateProposalRequestPayload_zero
    = Some payload →
  models.UStatus payload = "cancelled" →
  authorization h (app_db a) p payload = None →
  helpers.pinJSONToIpfs h (app_db a) (with_Status p (Some "cancelled"))
    = ((cid, Some e), d1) →
  let out := serve (updateProposal h r) a in
  panicked out = false
  ∧ status (response out) = Some (StatusCode (errIncompleteRequest (app_globals a)))
  ∧ body (response out)
    = [JObject (error_fields (errIncompleteRequest (app_globals a)))]
  ∧ app_db (app_after out) = d1.
Proof.
  intros Hfetch Hdec Hstatus Hauth Hpin.
  unfold updateProposal. run_handler.
  rewrite Hfetch. cbn. rewrite Hdec. cbn.
  rewrite bool_decide_eq_false_2 by (intros Hne; by apply Hne). cbn.
  unfold authorization in Hauth.
  destruct (models.UVoucher payload) as [voucher|]; cbn; rewrite Hauth; cbn;
    rewrite Hstatus, Hpin; cbn; done.
Qed.

(** X11. [createProposal] stores the community of the route in the proposal
    before the body is decoded into it, and relays what its helper answers:
    the helper's error response as it is, or 201 with the proposal. *)
Theorem createProposal_relays (r : Request) (a : App DB) (communityId : Z)
    (p proposal : models.Proposal) (errResponse : errorResponse) (d' : DB) :
  strconv.Atoi (var_of (Vars r) "communityId") = (communityId, None) →
  more.decode_Proposal m (Body r)
    (with_Community_id models.Proposal_zero communityId) = Some p →
  more.createProposal m (app_db a) p = ((proposal, errResponse), d') →
  let out := serve (createProposal m r) a in
  app_db (app_after out) = d'
  ∧ panicked out = false
  ∧ status (response out)
    = Some (if bool_decide (errResponse = nilErr) then http.StatusCreated
            else StatusCode errResponse)
  ∧ body (response out)
    = [if bool_decide (errResponse = nilErr) then JProposal proposal
       else JObject (error_fields errResponse)].
Proof.
  intros Hid Hdec Hcreate. unfold createProposal. rewrite Hid. run_handler.
  rewrite Hdec. cbn. rewrite Hcreate. cbn.
  destruct (decide (errResponse = nilErr)) as [->|Hne].
  - done.
  - rewrite bool_decide_eq_true_2 by done.
    rewrite bool_decide_eq_false_2 by done. cbn. done.
Qed.

End Handlers.

(** ** [Itoa] and [Atoi] *)

Lemma horner_le (d : Decimal.uint) (acc : Z) : 0 ≤ acc → acc ≤ horner d acc.
Proof.
  revert acc. induction d; intros acc Hacc; cbn [horner]; [lia|..];
    (etrans; [|apply IHd]; lia).
Qed.

Lemma horner_of_uint_acc (d : Decimal.uint) (p : positive) :
  horner d (Z.pos p) = Z.pos (Pos.of_uint_acc d p).
Proof.
  revert p. induction d; intros p; cbn [horner Pos.of_uint_acc]; [done|..];
    rewrite <- IHd; f_equal; lia.
Qed.

Lemma horner_of_uint (d : Decimal.uint) : horner d 0 = Z.of_N (Pos.of_uint d).
Proof.
  induction d; cbn [horner Pos.of_uint]; [done|done|..];
    apply (horner_of_uint_acc d).
Qed.

Lemma scan_digits_step (c : ascii) (k : Z) (rest : string) (acc : Z) :
  strconv.digit_of c = Some k → acc * 10 + k ≤ MaxUint64 →
  strconv.scan_digits (String c rest) acc = strconv.scan_digits rest (acc * 10 + k).
Proof.
  intros Hc Hmax. cbn [strconv.scan_digits]. rewrite Hc.
  by rewrite (proj2 (Z.ltb_ge MaxUint64 (acc * 10 + k))).
Qed.

Lemma scan_digits_horner (d : Decimal.uint) (acc : Z) :
  0 ≤ acc → horner d acc ≤ MaxUint64 →
  strconv.scan_digits (NilEmpty.string_of_uint d) acc = strconv.ScanOk (horner d acc).
Proof.
  revert acc.
  induction d; intros acc Hacc Hmax;
    cbn [horner NilEmpty.string_of_uint] in *; [done|..];
    (erewrite scan_digits_step;
     [apply IHd; [lia|exact Hmax]
     |vm_compute; reflexivity
     |etrans; [apply horner_le; lia|exact Hmax]]).
Qed.

(** A numeral that is not empty is written with a digit first. *)
Lemma string_of_uint_head (d : Decimal.uint) :
  d ≠ Decimal.Nil →
  ∃ c rest, NilEmpty.string_of_uint d = String c rest
            ∧ c ≠ "-"%char ∧ c ≠ "+"%char.
Proof.
  intros Hd. destruct d; [done|..]; cbn [NilEmpty.string_of_uint];
    eexists _, _; (split; [reflexivity|split; discriminate]).
Qed.

Lemma Itoa_pos (p : positive) :
  strconv.Itoa (Z.pos p) = NilEmpty.string_of_uint (Pos.to_uint p).
Proof.
  unfold strconv.Itoa. cbn [Z.to_int NilZero.string_of_int].
  unfold NilZero.string_of_uint.
  pose proof (Unsigned.to_uint_nonnil p) as Hnil.
  by destruct (Pos.to_uint p).
Qed.

Lemma Itoa_neg (p : positive) :
  strconv.Itoa (Z.neg p)
  = String "-"%char (NilEmpty.string_of_uint (Pos.to_uint p)).
Proof.
  unfold strconv.Itoa. cbn [Z.to_int NilZero.string_of_int].
  unfold NilZero.string_of_uint.
  pose proof (Unsigned.to_uint_nonnil p) as Hnil.
  by destruct (Pos.to_uint p).
Qed.

Lemma scan_to_uint (p : positive) :
  Z.pos p ≤ MaxUint64 →
  strconv.scan_digits (NilEmpty.string_of_uint (Pos.to_uint p)) 0
  = strconv.ScanOk (Z.pos p).
Proof.
  intros Hmax.
  assert (horner (Pos.to_uint p) 0 = Z.pos p) as Hval.
  { rewrite horner_of_uint, Unsigned.of_to. reflexivity. }
  rewrite scan_digits_horner by (rewrite ?Hval; lia).
  by rewrite Hval.
Qed.

(** [Atoi] reads back what [Itoa] wrote, for every [int]. *)
Lemma Atoi_Itoa (n : Z) :
  MinInt64 ≤ n ≤ MaxInt64 → strconv.Atoi (strconv.Itoa n) = (n, None).
Proof.
  intros Hn. unfold MinInt64, MaxInt64 in Hn.
  destruct n as [|p|p].
  - reflexivity.
  - rewrite Itoa_pos. unfold strconv.Atoi, strconv.ParseInt.
    destruct (string_of_uint_head (Pos.to_uint p) (Unsigned.to_uint_nonnil p))
      as (c & rest & Hs & Hminus & Hplus).
    pose proof (scan_to_uint p) as Hscan. rewrite Hs in *.
    rewrite (bool_decide_eq_false_2 _ Hminus), (bool_decide_eq_false_2 _ Hplus).
    cbn [orb]. rewrite Hscan by (unfold MaxUint64; lia).
    rewrite (proj2 (Z.leb_gt (2 ^ 63) (Z.pos p))) by lia. reflexivity.
  - rewrite Itoa_neg. unfold strconv.Atoi, strconv.ParseInt.
    destruct (string_of_uint_head (Pos.to_uint p) (Unsigned.to_uint_nonnil p))
      as (c & rest & Hs & _).
    pose proof (scan_to_uint p) as Hscan. rewrite Hs in *.
    rewrite bool_decide_eq_true_2 by done. cbn [orb].
    rewrite Hscan by (unfold MaxUint64; lia).
    rewrite (proj2 (Z.ltb_ge (2 ^ 63) (Z.pos p))) by lia. reflexivity.
Qed.

Lemma scan_digits_nonneg (s : string) (acc n : Z) :
  0 ≤ acc → strconv.scan_digits s acc = strconv.ScanOk n → 0 ≤ n.
Proof.
  revert acc. induction s as [|c rest IH]; intros acc Hacc; cbn [strconv.scan_digits].
  - intros [= <-]. done.
  - unfold strconv.digit_of.
    destruct (_ && _) eqn:Hc; [|done].
    apply andb_true_iff in Hc as [Hlo%Z.leb_le _].
    destruct (_ <? _); [done|]. apply IH. lia.
Qed.

(** What [ParseInt] returns: the value without an error, 0 with a syntax
    error, or the bound that was crossed with a range error. *)
Lemma ParseInt_cases (s : string) :
  let '(n, err) := strconv.ParseInt s in
  (err = None ∧ MinInt64 ≤ n ≤ MaxInt64)
  ∨ (err = Some strconv.ErrSyntax ∧ n = 0)
  ∨ (err = Some strconv.ErrRange ∧ (n = MinInt64 ∨ n = MaxInt64)).
Proof.
  unfold strconv.ParseInt. destruct s as [|c rest]; [by right; left|].
  cbv zeta.
  set (digits := if _ || _ then rest else String c rest).
  destruct digits as [|c' rest'] eqn:Hd; [by right; left|].
  destruct (strconv.scan_digits (String c' rest') 0) as [un| |] eqn:Hscan.
  - apply scan_digits_nonneg in Hscan; [|done].
    destruct (bool_decide (c = "-"%char)).
    + destruct (Z.ltb_spec (2 ^ 63) un); [by right; right; split; [|left]|].
      left. unfold MinInt64, MaxInt64. split; [done|lia].
    + destruct (Z.leb_spec (2 ^ 63) un); [by right; right; split; [|right]|].
      left. unfold MinInt64, MaxInt64. split; [done|lia].
  - by right; left.
  - destruct (bool_decide (c = "-"%char));
      right; right; (split; [done|]); [by left|by right].
Qed.

Lemma FormValue_echo (s c o : string) :
  let r := request_of [] [("start", s); ("count", c); ("order", o)] "" in
  FormValue r "start" = s ∧ FormValue r "count" = c ∧ FormValue r "order" = o.
Proof.
  unfold FormValue, request_of, form_of. cbn.
  repeat split; by simplify_map_eq.
Qed.

(** X16. The page parameters of a request that does not parse: a count that is
    not a number, or not an [int], counts as missing and becomes the
    default; a start that is not a number becomes 0, and one beyond the
    range of [int] becomes 0 when negative and the largest [int] when
    positive.  No error is reported. *)
Theorem getPageParams_unparsable (r : Request) (defaultCount : Z) :
  defaultCount ≤ MaxInt64 →
  let p := getPageParams r defaultCount in
  let '(s, errStart) := strconv.Atoi (FormValue r "start") in
  let '(c, errCount) := strconv.Atoi (FormValue r "count") in
  (errCount ≠ None → shared.Count p = defaultCount)
  ∧ (errStart = Some strconv.ErrSyntax → shared.Start p = 0)
  ∧ (errStart = Some strconv.ErrRange →
     shared.Start p = (if s <? 0 then 0 else MaxInt64)).
Proof.
  intros Hmax p. subst p. unfold getPageParams, strconv.Atoi.
  pose proof (ParseInt_cases (FormValue r "start")) as Hs.
  pose proof (ParseInt_cases (FormValue r "count")) as Hc.
  destruct (strconv.ParseInt (FormValue r "start")) as [s errStart].
  destruct (strconv.ParseInt (FormValue r "count")) as [c errCount].
  cbn [fst shared.Count shared.Start]. unfold MinInt64, MaxInt64 in *.
  split; [|split].
  - intros Herr.
    destruct (Z.gtb_spec c defaultCount), (Z.ltb_spec c 1); cbn [orb];
      try reflexivity.
    destruct Hc as [[-> _]|[[_ ->]|[_ [->| ->]]]]; [done|lia..].
  - intros ->.
    destruct Hs as [[[=] _]|[[_ ->]|[[=] _]]]. done.
  - intros ->.
    destruct Hs as [[[=] _]|[[[=] _]|[_ [->| ->]]]]; done.
Qed.

(** X17. Page parameters are stable: a request that sends back the start, count
    and order the server derived is given the same page parameters. *)
Theorem getPageParams_echo (r : Request) (defaultCount : Z) :
  MinInt64 ≤ defaultCount ≤ MaxInt64 →
  let p := getPageParams r defaultCount in
  getPageParams
    (request_of [] [("start", strconv.Itoa (shared.Start p));
                    ("count", strconv.Itoa (shared.Count p));
                    ("order", shared.Order p)] "") defaultCount
  = p.
Proof.
  intros Hd p.
  assert (MinInt64 ≤ shared.Start p ≤ MaxInt64 ∧ 0 ≤ shared.Start p) as [Hs Hs0].
  { subst p. unfold getPageParams, strconv.Atoi. cbn [shared.Start].
    pose proof (ParseInt_cases (FormValue r "start")) as Hc.
    destruct (strconv.ParseInt (FormValue r "start")) as [s e]. cbn [fst].
    unfold MinInt64, MaxInt64 in *.
    destruct (Z.ltb_spec s 0); [lia|].
    destruct Hc as [[_ ?]|[[_ ->]|[_ [->| ->]]]]; lia. }
  assert (MinInt64 ≤ shared.Count p ≤ MaxInt64
          ∧ (shared.Count p = defaultCount
             ∨ 1 ≤ shared.Count p ≤ defaultCount)) as [Hc Hc1].
  { subst p. unfold getPageParams, strconv.Atoi. cbn [shared.Count].
    pose proof (ParseInt_cases (FormValue r "count")) as Hc.
    destruct (strconv.ParseInt (FormValue r "count")) as [c e]. cbn [fst].
    unfold MinInt64, MaxInt64 in *.
    destruct (Z.gtb_spec c defaultCount), (Z.ltb_spec c 1); cbn [orb];
      try (split; [lia|by left]).
    destruct Hc as [[_ ?]|[[_ ->]|[_ [->| ->]]]]; lia. }
  assert (shared.Order p ≠ "") as Ho.
  { subst p. unfold getPageParams. cbn [shared.Order].
    case_bool_decide; [done|done]. }
  assert (shared.TotalRecords p = 0) as Ht by reflexivity.
  unfold getPageParams at 1.
  destruct (FormValue_echo (strconv.Itoa (shared.Start p))
              (strconv.Itoa (shared.Count p)) (shared.Order p))
    as (-> & -> & ->).
  rewrite !Atoi_Itoa by done. cbn [fst].
  rewrite (bool_decide_eq_false_2 _ Ho).
  rewrite (proj2 (Z.ltb_ge (shared.Start p) 0)) by done.
  destruct p as [ps pc po pt]. cbn in *. subst pt.
  f_equal.
  destruct (Z.gtb_spec pc defaultCount), (Z.ltb_spec pc 1); cbn [orb]; lia.
Qed.

Section ErrorBody.
Context {DB : Type}.

(** X18. An error response with a status that [net/http] sends as it is,
    sent first on a connection, carries its status twice, in the status
    line and as the decimal string under "statusCode" in the body, and the
    two agree: the string reads back as the number.  The response is what
    [net/http] makes of the call. *)
Theorem respondWithError_status_agrees (err : errorResponse) (s : St DB) :
  sendable (StatusCode err) →
  status (rw s) = None →
  ∃ s' fields,
    respondWithError err s = Next tt s'
    ∧ net_http.respondWithJSON (StatusCode err) (JObject fields) (rw s)
      = Some (rw s')
    ∧ status (rw s') = Some (StatusCode err)
    ∧ body (rw s') = body (rw s) ++ [JObject fields]
    ∧ strconv.Atoi <$> fields !! "statusCode" = Some (StatusCode err, None)
    ∧ fields !! "errorCode" = Some (ErrorCode err)
    ∧ fields !! "message" = Some (Message err)
    ∧ fields !! "details" = Some (Details err).
Proof.
  intros Hcode Hfresh. eexists _, (error_fields err).
  split; [reflexivity|]. cbn [rw].
  split; [by apply respondWithJSON_sendable|].
  unfold Write, WriteHeader, Header_Set. cbn. rewrite Hfresh. cbn.
  split; [done|]. split; [done|].
  unfold error_fields. simplify_map_eq.
  rewrite Atoi_Itoa; [done|].
  destruct Hcode as (Hrange & _). unfold MinInt64, MaxInt64. lia.
Qed.

End ErrorBody.

(** ** Contract thresholds, continued *)

Lemma validateConractThreshold_message (l : list models.Strategy_t) :
  validateConractThreshold l = None
  ∨ validateConractThreshold l = Some "Contract Threshold Cannot Be < 1.".
Proof.
  induction l as [|s0 rest IH]; cbn [validateConractThreshold]; [by left|].
  destruct (models.Threshold s0) as [t|]; [|done].
  destruct (Qltb t 1); [by right|done].
Qed.

(** X19. The check of the contract thresholds looks at the thresholds only and
    not at their order: two lists of strategies with the same members, in
    any order, get the same verdict, and a list put together from two is
    accepted exactly when both are. *)
Theorem validateConractThreshold_order (l l' l1 l2 : list models.Strategy_t) :
  (l ≡ₚ l' → validateConractThreshold l = validateConractThreshold l')
  ∧ (validateConractThreshold (l1 ++ l2) = None
     ↔ validateConractThreshold l1 = None ∧ validateConractThreshold l2 = None).
Proof.
  assert (∀ k, validateConractThreshold k = None ↔ ¬ ∃ st, st ∈ k ∧ sub_one st)
    as Hnone.
  { intros k. rewrite <- validateConractThreshold_error.
    destruct (validateConractThreshold k) as [e|]; split; try done.
    - intros Hne. exfalso. by apply Hne.
    - intros _ Hne. by apply Hne. }
  split.
  - intros Hperm.
    assert (validateConractThreshold l = None ↔ validateConractThreshold l' = None)
      as Hiff.
    { rewrite !Hnone. by setoid_rewrite Hperm. }
    destruct (validateConractThreshold_message l) as [Hl|Hl],
             (validateConractThreshold_message l') as [Hl'|Hl'];
      rewrite Hl, Hl'; try done.
    + apply Hiff in Hl. congruence.
    + apply Hiff in Hl'. congruence.
  - rewrite !Hnone. setoid_rewrite elem_of_app. split.
    + intros Hno. split; intros (st & Hin & Hsub); apply Hno; exists st; tauto.
    + intros [H1 H2] (st & [Hin|Hin] & Hsub); [apply H1|apply H2]; by exists st.
Qed.

(** ** Instances in the reference world *)

Lemma getResultsForProposal_reads_only_witness :
  app_db (app_after (serve (getResultsForProposal fixture.h
                              (request_of [("proposalId", "2")] [] ""))
                       fixture.app0))
  = fixture.w0.
Proof.
  apply (getResultsForProposal_reads_only fixture.h
           (request_of [("proposalId", "2")] [] "") fixture.app0).
  left. vm_compute. discriminate.
Defined.

Lemma createCommunity_threshold_falls_through_witness :
  let out := serve (createCommunity scenario.h (request_of [] [] "with threshold"))
               fixture.app0 in
  app_db (app_after out)
  = snd (reference.createCommunity fixture.w0 scenario.with_threshold)
  ∧ status (response out) = Some 400
  ∧ body (response out)
    = [JObject (error_fields errIncompleteRequest_init);
       JCommunity {| models.Community_ID := 2; models.Strategies := None |}].
Proof.
  eapply (createCommunity_threshold_falls_through scenario.h
            (request_of [] [] "with threshold") fixture.app0
            scenario.with_threshold "0" false
            "proposal threshold must be positive"
            {| models.Community_ID := 2; models.Strategies := None |} None).
  - reflexivity.
  - reflexivity.
  - reflexivity.
  - reflexivity.
  - reflexivity.
  - vm_compute. reflexivity.
Defined.

Lemma updateCommunity_threshold_falls_through_witness :
  let out := serve (updateCommunity scenario.h
                      (request_of [("id", "1")] [] "with threshold"))
               fixture.app0 in
  app_db (app_after out)
  = snd (reference.updateCommunity fixture.w0 1 scenario.with_threshold)
  ∧ status (response out) = Some 400
  ∧ body (response out)
    = [JObject (error_fields errIncompleteRequest_init);
       JCommunity {| models.Community_ID := 1; models.Strategies := None |}].
Proof.
  eapply (updateCommunity_threshold_falls_through scenario.h
            (request_of [("id", "1")] [] "with threshold") fixture.app0
            1 scenario.with_threshold "0" false
            "proposal threshold must be positive"
            {| models.Community_ID := 1; models.Strategies := None |} None).
  - vm_compute. reflexivity.
  - reflexivity.
  - reflexivity.
  - reflexivity.
  - reflexivity.
  - reflexivity.
  - vm_compute. reflexivity.
Defined.

Lemma getProposal_nil_panics_witness :
  let out := serve (getProposal fixture.h scenario.m (request_of [("id", "2")] [] ""))
               fixture.app0 in
  panicked out = true ∧ response out = ResponseWriter_new
  ∧ app_after out = fixture.app0.
Proof.
  apply (getProposal_nil_panics fixture.h scenario.m
           (request_of [("id", "2")] [] "") fixture.app0
           (fixture.proposal 2 "published")
           {| models.Community_ID := 1; models.Strategies := None |}).
  - vm_compute. reflexivity.
  - vm_compute. reflexivity.
  - left. reflexivity.
Defined.

Lemma getProposal_found_witness :
  let a := {| app_globals := globals_init;
              app_db := world.set_communities
                          {[ 1 := {| models.Community_ID := 1;
                                     models.Strategies := Some fixture.low_threshold |} ]}
                          fixture.w0 |} in
  let out := serve (getProposal fixture.h scenario.m (request_of [("id", "2")] [] "")) a in
  panicked out = false
  ∧ status (response out) = Some 200
  ∧ body (response out) = [JProposal (fixture.proposal 2 "published")]
  ∧ app_after out = a.
Proof.
  eapply (getProposal_found fixture.h scenario.m
            (request_of [("id", "2")] [] "") _
            (fixture.proposal 2 "published")
            {| models.Community_ID := 1;
               models.Strategies := Some fixture.low_threshold |}
            fixture.low_threshold "one-address-one-vote"
            {| models.Name := Some "one-address-one-vote"; models.Threshold := None |}).
  - vm_compute. reflexivity.
  - vm_compute. reflexivity.
  - reflexivity.
  - reflexivity.
  - vm_compute. reflexivity.
Defined.

Lemma updateProposal_pin_failure_witness :
  let out := serve (updateProposal scenario.h (request_of [("id", "2")] [] "cancel"))
               fixture.app0 in
  panicked out = false
  ∧ status (response out) = Some 400
  ∧ body (response out) = [JObject (error_fields errIncompleteRequest_init)]
  ∧ app_db (app_after out) = fixture.w0.
Proof.
  eapply (updateProposal_pin_failure scenario.h
            (request_of [("id", "2")] [] "cancel") fixture.app0
            (fixture.proposal 2 "published") (fixture.cancel "0xauthor" None)
            None "pinning service unavailable").
  - vm_compute. reflexivity.
  - vm_compute. reflexivity.
  - reflexivity.
  - vm_compute. reflexivity.
  - reflexivity.
Defined.

Lemma createProposal_relays_witness :
  let out := serve (createProposal scenario.m
                      (request_of [("communityId", "7")] [] "a proposal"))
               fixture.app0 in
  app_db (app_after out) = fixture.w0
  ∧ panicked out = false
  ∧ status (response out) = Some 403
  ∧ body (response out) = [JObject (error_fields errForbidden)].
Proof.
  eapply (createProposal_relays scenario.m
            (request_of [("communityId", "7")] [] "a proposal") fixture.app0
            7 (with_Community_id models.Proposal_zero 7) models.Proposal_zero
            errForbidden).
  - vm_compute. reflexivity.
  - vm_compute. reflexivity.
  - vm_compute. reflexivity.
Defined.

Lemma createVoteForProposal_relays_witness :
  let out := serve (createVoteForProposal fixture.h
                      (request_of [("proposalId", "1")] [] "0xa"))
               fixture.app0 in
  status (response out) = Some (StatusCode errInactiveProposal)
  ∧ body (response out) = [JObject (error_fields errInactiveProposal)].
Proof.
  refine (proj1 (proj2 (proj2
            (createVoteForProposal_relays fixture.h
               (request_of [("proposalId", "1")] [] "0xa") fixture.app0
               (fixture.proposal 1 "closed") reference.Vote_zero errInactiveProposal
               fixture.w0 _ _))) _).
  - vm_compute. reflexivity.
  - vm_compute. reflexivity.
  - vm_compute. discriminate.
Defined.

Lemma addAddressesToList_failure_witness :
  let out := serve (addAddressesToList fixture.h (request_of [("id", "1")] [] "0xadmin"))
               fixture.app0 in
  errIncompleteRequest (app_globals (app_after out))
  = with_StatusCode errIncompleteRequest_init 500
  ∧ status (response out) = Some (StatusCode errCreateCommunity_init)
  ∧ body (response out) = [JObject (error_fields errCreateCommunity_init)].
Proof.
  eapply (addAddressesToList_failure fixture.h
            (request_of [("id", "1")] [] "0xadmin") fixture.app0
            1 {| models_ext.AFields := {[ "signingAddr" := "0xadmin" ]} |}
            500 "list not found" fixture.w0).
  - vm_compute. reflexivity.
  - vm_compute. reflexivity.
  - vm_compute. reflexivity.
Defined.

Lemma removeAddressesFromList_failure_witness :
  let out := serve (removeAddressesFromList fixture.h
                      (request_of [("id", "1")] [] "0xadmin"))
               fixture.app0 in
  errIncompleteRequest (app_globals (app_after out))
  = with_StatusCode errIncompleteRequest_init 500
  ∧ status (response out) = Some 500.
Proof.
  eapply (removeAddressesFromList_failure fixture.h
            (request_of [("id", "1")] [] "0xadmin") fixture.app0
            1 {| models_ext.AFields := {[ "signingAddr" := "0xadmin" ]} |}
            500 "list not found" fixture.w0).
  - vm_compute. reflexivity.
  - vm_compute. reflexivity.
  - vm_compute. reflexivity.
Defined.

Lemma createCommunityUser_failure_witness :
  let out := serve (createCommunityUser fixture.h
                      (request_of [("communityId", "1")] [] "0xstranger"))
               fixture.app0 in
  errCreateCommunity (app_globals (app_after out))
  = with_StatusCode errCreateCommunity_init 403
  ∧ status (response out) = Some 403.
Proof.
  eapply (createCommunityUser_failure fixture.h
            (request_of [("communityId", "1")] [] "0xstranger") fixture.app0
            1 {| models_ext.UCommunity_id := 1; models_ext.UAddr := "0xnew";
                 models_ext.User_type := "member";
                 models_ext.UFields := {[ "signingAddr" := "0xstranger" ]} |}
            403 "user is not an admin" fixture.w0).
  - vm_compute. reflexivity.
  - vm_compute. reflexivity.
  - vm_compute. reflexivity.
Defined.

Lemma getPageParams_unparsable_witness :
  let p := getPageParams
             (request_of [] [("start", "99999999999999999999"); ("count", "ten")] "")
             25 in
  shared.Count p = 25 ∧ shared.Start p = MaxInt64.
Proof.
  pose proof (getPageParams_unparsable
                (request_of [] [("start", "99999999999999999999"); ("count", "ten")] "")
                25 ltac:(vm_compute; discriminate)) as Hp.
  vm_compute in Hp. destruct Hp as (Hcount & _ & Hstart).
  split; [apply Hcount; discriminate|apply Hstart; reflexivity].
Defined.

Lemma getPageParams_echo_witness :
  let p := getPageParams (request_of [] [("start", "40"); ("count", "500")] "") 25 in
  getPageParams
    (request_of [] [("start", strconv.Itoa (shared.Start p));
                    ("count", strconv.Itoa (shared.Count p));
                    ("order", shared.Order p)] "") 25
  = p.
Proof.
  apply (getPageParams_echo (request_of [] [("start", "40"); ("count", "500")] "") 25).
  vm_compute. split; discriminate.
Defined.

Lemma respondWithError_status_agrees_witness :
  ∃ s' fields,
    respondWithError errForbidden
      {| globals := globals_init; db := fixture.w0; rw := ResponseWriter_new;
         logs := [] |} = Next tt s'
    ∧ net_http.respondWithJSON 403 (JObject fields) ResponseWriter_new = Some (rw s')
    ∧ status (rw s') = Some 403
    ∧ body (rw s') = [] ++ [JObject fields]
    ∧ strconv.Atoi <$> fields !! "statusCode" = Some (403, None)
    ∧ fields !! "errorCode" = Some (ErrorCode errForbidden)
    ∧ fields !! "message" = Some (Message errForbidden)
    ∧ fields !! "details" = Some (Details errForbidden).
Proof.
  apply (respondWithError_status_agrees errForbidden
           {| globals := globals_init; db := fixture.w0; rw := ResponseWriter_new;
              logs := [] |}).
  - repeat split; by vm_compute.
  - reflexivity.
Defined.

(** The reference collaborators report the statuses of the error values of
    the package and of [net/http]'s constants. *)
Lemma reference_sendable (dec : reference.Decoders) :
  sendable_helpers (reference.impl dec) scenario.m.
Proof.
  split.
  - intros w body p v e w' Hcall Hne. cbn in Hcall.
    unfold reference.createVote in Hcall.
    destruct (reference.as_Cast dec body) as [req|].
    + destruct (castVote _ _ _ _ _ _) as [[v'|f] ledger];
        injection Hcall as <- <- <-; [done|].
      destruct f; repeat split; by vm_compute.
    + injection Hcall as <- <- <-. repeat split; by vm_compute.
  - intros w p p' e w' Hcall Hne. cbn in Hcall.
    destruct (reference.authorize _ _ _ _); injection Hcall as <- <- <-; [done|].
    repeat split; by vm_compute.
  - intros w lp l code e w' Hcall. cbn in Hcall.
    unfold reference.createListForCommunity in Hcall.
    destruct (reference.authorize _ _ _ _); [done|].
    injection Hcall as <- <- <- <-. repeat split; by vm_compute.
  - intros w id up action code e w' Hcall. cbn in Hcall.
    unfold reference.updateAddressesInList in Hcall.
    destruct (world.lists w !! _) as [lp|].
    + destruct (reference.authorize _ _ _ _); [done|].
      injection Hcall as <- <- <-. repeat split; by vm_compute.
    + injection Hcall as <- <- <-. repeat split; by vm_compute.
  - intros w up code e w' Hcall. cbn in Hcall.
    unfold reference.createCommunityUser in Hcall.
    destruct (reference.authorize _ _ _ _); [done|].
    injection Hcall as <- <- <-. repeat split; by vm_compute.
Qed.

Lemma handlers_respond_once_witness :
  responds_once
    (createListForCommunity fixture.h
       (request_of [("communityId", "1")] [] "0xstranger"))
    fixture.app0
  ∧ responds_once
      (createVoteForProposal fixture.h (request_of [("proposalId", "1")] [] "0xa"))
      fixture.app0.
Proof.
  split.
  - apply (handlers_respond_once fixture.h scenario.m
             (request_of [("communityId", "1")] [] "0xstranger") fixture.app0
             sendable_init (reference_sendable fixture.dec)).
  - apply (handlers_respond_once fixture.h scenario.m
             (request_of [("proposalId", "1")] [] "0xa") fixture.app0
             sendable_init (reference_sendable fixture.dec)).
Defined.

Lemma validateConractThreshold_order_witness :
  validateConractThreshold (reverse fixture.low_threshold)
  = validateConractThreshold fixture.low_threshold.
Proof.
  apply (proj1 (validateConractThreshold_order
                  (reverse fixture.low_threshold) fixture.low_threshold [] [])).
  apply reverse_Permutation.
Defined.
